(** * Travel-Guide: ranking and day allocation of the itinerary planner

    A shallow embedding of [models.py] and of the rule-based planner of
    [agent.py] ([create_itinerary_simple], together with the agent tools
    [calculate_distance] and [rank_places_by_relevance]).

    Conventions of the embedding:
    - a Python [float] is modelled twice.  In [Agent] it is an exact number:
      a rational ([Q]) wherever the code only adds, multiplies, divides,
      compares and rounds, and a real ([R]) where it calls [math.sqrt],
      [math.sin], [math.cos] or [math.asin] (the relevance score); the
      statements on the order of the ranking, on the places and the number
      of the days and on lower bounds of the costs are proved there.  In
      [Double] and [AgentF] it is the rational a double stands for, and
      every operation of the allocation and of the totals gives the double
      nearest its exact result (IEEE-754 binary64, ties to even); the
      statements on the budget test of the loop, on the totals and on the
      budget status are proved there.  Results beyond the largest double,
      NaN and the sign of zero are outside both models;
    - a Python [int] is [Z]; a list index and a [len] are [nat];
    - a [datetime.date] is its proleptic ordinal ([Z]), so that adding
      [timedelta(days=k)] adds [k] and [(e - s).days] is [e - s];
    - a [str] is a [string] of ASCII characters;
    - a raised [pydantic.ValidationError] is the left summand of a [sum]. *)

From Stdlib Require Import List String Ascii Bool Arith ZArith Lia.
From Stdlib Require Import QArith Qround Qabs Qpower.
From Stdlib Require Import Reals Qreals Psatz.
From Stdlib Require Import Permutation Sorted.
From Stdlib Require Import DecimalString.
Import ListNotations.

Local Open Scope string_scope.
Local Open Scope list_scope.

(** ** Python built-ins the planner relies on *)

Module Py.

(** [str.lower] on ASCII text. *)
Definition lower_char (c : ascii) : ascii :=
  let n := nat_of_ascii c in
  if (65 <=? n)%nat && (n <=? 90)%nat then ascii_of_nat (n + 32) else c.

Fixpoint lower (s : string) : string :=
  match s with
  | EmptyString => EmptyString
  | String c s' => String (lower_char c) (lower s')
  end.

(** [needle in hay] for strings: substring containment. *)
Fixpoint str_in (needle hay : string) : bool :=
  String.prefix needle hay
  || match hay with
     | EmptyString => false
     | String _ hay' => str_in needle hay'
     end.

(** [x in xs] for a list of strings. *)
Definition list_in (x : string) (xs : list string) : bool :=
  existsb (String.eqb x) xs.

(** [str(n)] for an [int]. *)
Definition str_of_int (n : Z) : string :=
  NilZero.string_of_int (Z.to_int n).

(** [range(lo, hi)]. *)
Definition range (lo hi : Z) : list Z :=
  map (fun k => (lo + Z.of_nat k)%Z) (seq 0 (Z.to_nat (hi - lo))).

(** Rounding to the nearest integer, ties to the even one. *)
Definition round_half_even (x : Q) : Z :=
  let f := Qfloor x in
  match (x - inject_Z f ?= 1 # 2)%Q with
  | Lt => f
  | Gt => (f + 1)%Z
  | Eq => if Z.even f then f else (f + 1)%Z
  end.

(** [round(x, 2)]: the result is a number of hundredths. *)
Definition round2 (x : Q) : Q :=
  Qmake (round_half_even (x * 100)) 100.

(** The format specification [:.0f]. *)
Definition format_0f (x : Q) : string :=
  str_of_int (round_half_even x).

(** [sum(xs)] starts from [0] and adds from the left. *)
Definition sum (xs : list Q) : Q := fold_left Qplus xs 0%Q.

(** [x < y] on floats. *)
Definition Qlt_bool (x y : Q) : bool := negb (Qle_bool y x).

(** [d.get(key, default)] for a dict written as a list of items. *)
Fixpoint dict_get {V} (d : list (string * V)) (key : string) (default : V)
  : V :=
  match d with
  | [] => default
  | (k, v) :: d' => if String.eqb k key then v else dict_get d' key default
  end.

(** [l.sort(key=key, reverse=True)]: the stable sort by decreasing key.
    An element moves in front of the ones already placed unless one of
    them has a strictly greater key, so equal keys keep their order. *)
Fixpoint insert_desc {A} (key : A -> R) (x : A) (l : list A) : list A :=
  match l with
  | [] => [x]
  | y :: l' =>
      if Rlt_dec (key x) (key y) then y :: insert_desc key x l'
      else x :: y :: l'
  end.

Definition sort_desc {A} (key : A -> R) (l : list A) : list A :=
  fold_right (insert_desc key) [] l.

(** [max(0, x)] on reals. *)
Definition max0 (x : R) : R := if Rlt_dec 0 x then x else 0%R.

(** [math.radians]. *)
Definition radians (x : R) : R := (x * PI / 180)%R.

End Py.

(** ** models.py *)

Module Models.

(** One entry of a [ValidationError]: the field and the message. *)
Record ErrorDetails := mkError { loc : string; msg : string }.

Definition ValidationError := list ErrorDetails.

(** A computation that may raise a [ValidationError]. *)
Definition result (A : Type) : Type := (ValidationError + A)%type.

Definition ret {A} (a : A) : result A := inr a.

Definition bind {A B} (c : result A) (k : A -> result B) : result B :=
  match c with
  | inl e => inl e
  | inr a => k a
  end.

Record TripRequest := mkTripRequest {
  city : string;
  start_date : Z;
  end_date : Z;
  budget : Q;
  interests : list string;
  pace : string;
  group_size : Z
}.

Definition allowed : list string := ["relaxed"; "moderate"; "packed"].

(** [TripRequest.validate_pace]: the error message, or the stored value. *)
Definition validate_pace (v : string) : string + string :=
  let v_lower := Py.lower v in
  if negb (Py.list_in v_lower allowed)
  then inl "Pace must be one of ['relaxed', 'moderate', 'packed']"
  else inr v_lower.

(** [TripRequest.validate_dates]; [start_date] is the already validated
    field found in [info.data]. *)
Definition validate_dates (v : Z) (start_date : Z) : string + Z :=
  if (v <=? start_date)%Z
  then inl "End date must be after start date"
  else inr v.

(** The constraint [gt=0] of a float field and of an int field. *)
Definition gt0_float (x : Q) : bool := negb (Qle_bool x 0).
Definition gt0_int (x : Z) : bool := (0 <? x)%Z.

Definition field_errors {A} (field : string) (r : string + A)
  : ValidationError :=
  match r with
  | inl m => [mkError field ("Value error, " ++ m)%string]
  | inr _ => []
  end.

Definition constraint_errors (field : string) (ok : bool)
  : ValidationError :=
  if ok then [] else [mkError field "Input should be greater than 0"].

(** [TripRequest(city=.., start_date=.., ...)]: the fields are validated
    in declaration order, every failure is collected, and the model is
    built only when there is none. *)
Definition TripRequest_new (city : string) (start_date end_date : Z)
    (budget : Q) (interests : list string) (pace : string)
    (group_size : Z) : result TripRequest :=
  let errors :=
    (field_errors "end_date" (validate_dates end_date start_date)
     ++ constraint_errors "budget" (gt0_float budget)
     ++ field_errors "pace" (validate_pace pace)
     ++ constraint_errors "group_size" (gt0_int group_size))%list in
  match errors with
  | [] => inr (mkTripRequest city start_date end_date budget interests
                 (Py.lower pace) group_size)
  | _ :: _ => inl errors
  end.

(** [TripRequest.num_days]. *)
Definition num_days (t : TripRequest) : Z :=
  (end_date t - start_date t)%Z.

(** [TripRequest.daily_budget]. *)
Definition daily_budget (t : TripRequest) : Q :=
  (budget t / inject_Z (Z.max (num_days t) 1))%Q.

Record Place := mkPlace {
  name : string;
  category : string;
  latitude : Q;
  longitude : Q;
  estimated_cost : Q;
  hours : option string;
  description : option string;
  rating : option Q;
  time_needed : Z;
  address : option string
}.

(** The field constraints of [Place]: [estimated_cost >= 0] and a rating,
    when present, within [0, 5]. *)
Definition Place_ok (p : Place) : bool :=
  Qle_bool 0 (estimated_cost p)
  && match rating p with
     | Some r => Qle_bool 0 r && Qle_bool r 5
     | None => true
     end.

Record DayPlan := mkDayPlan {
  day_index : Z;
  day_date : Z;
  places : list Place;
  total_cost : Q;
  notes : option string
}.

(** [DayPlan(day_index=.., day_date=.., places=.., total_cost=.., notes=..)]
    with its constraints [day_index >= 1] and [total_cost >= 0].  The field
    [day_date] is required: [None] stands for a call that does not pass the
    keyword [day_date] (a keyword that is not a field is ignored). *)
Definition DayPlan_new (day_index : Z) (day_date : option Z)
    (places : list Place) (total_cost : Q) (notes : option string)
  : result DayPlan :=
  let errors :=
    ((if (1 <=? day_index)%Z then []
      else [mkError "day_index"
              "Input should be greater than or equal to 1"])
     ++ match day_date with
        | Some _ => []
        | None => [mkError "day_date" "Field required"]
        end
     ++ (if Qle_bool 0 total_cost then []
         else [mkError "total_cost"
                 "Input should be greater than or equal to 0"]))%list in
  match day_date, errors with
  | Some day_date, [] =>
      inr (mkDayPlan day_index day_date places total_cost notes)
  | _, _ => inl errors
  end.

(** [Itinerary]; the field [created_at] (the wall clock at construction)
    is left out. *)
Record Itinerary := mkItinerary {
  trip_request : TripRequest;
  days : list DayPlan;
  itinerary_total_cost : Q;
  itinerary_notes : option string
}.

Definition Itinerary_new (trip_request : TripRequest)
    (days : list DayPlan) (total_cost : Q) (notes : option string)
    : result Itinerary :=
  if Qle_bool 0 total_cost
  then inr (mkItinerary trip_request days total_cost notes)
  else inl [mkError "total_cost"
              "Input should be greater than or equal to 0"].

End Models.

Import Models.

Notation "x <- c ;; k" := (bind c (fun x => k))
  (at level 61, c at next level, right associativity).

(** ** agent.py *)

Module Agent.

(** The test [interest.lower() in place.category.lower() or
    interest.lower() in place.name.lower()]. *)
Definition interest_matches (interest : string) (place : Place) : bool :=
  Py.str_in (Py.lower interest) (Py.lower (category place))
  || Py.str_in (Py.lower interest) (Py.lower (name place)).

(** The loop [for interest in interests: if ...: score += 5.0]. *)
Definition interest_score (interests : list string) (place : Place)
    (score : R) : R :=
  fold_left
    (fun score interest =>
       if interest_matches interest place then (score + 5)%R else score)
    interests score.

(** [if place.rating: score += place.rating]; a rating of [0.0] is falsy
    like [None]. *)
Definition rating_score (place : Place) (score : R) : R :=
  match rating place with
  | Some r => if Qeq_bool r 0 then score else (score + Q2R r)%R
  | None => score
  end.

(** [if place.estimated_cost < daily_budget / 3: score += 2.0]. *)
Definition budget_score (t : TripRequest) (place : Place) (score : R) : R :=
  if Py.Qlt_bool (estimated_cost place) (daily_budget t / 3)
  then (score + 2)%R else score.

(** *** The agent tools *)

(** [calculate_distance]: the haversine formula. *)
Definition calculate_distance (lat1 lon1 lat2 lon2 : Q) : R :=
  let R_ := 6371%R in
  let lat1_rad := Py.radians (Q2R lat1) in
  let lat2_rad := Py.radians (Q2R lat2) in
  let delta_lat := Py.radians (Q2R (lat2 - lat1)) in
  let delta_lon := Py.radians (Q2R (lon2 - lon1)) in
  let a := (sin (delta_lat / 2) ^ 2
            + cos lat1_rad * cos lat2_rad * sin (delta_lon / 2) ^ 2)%R in
  let c := (2 * asin (sqrt a))%R in
  (R_ * c)%R.

(** The proximity term of [rank_places_by_relevance]. *)
Definition proximity_score (city_coords : Q * Q) (place : Place) : R :=
  let '(city_lat, city_lon) := city_coords in
  let distance :=
    calculate_distance city_lat city_lon (latitude place) (longitude place)
  in
  Py.max0 (5 - distance / 2).

(** The score [rank_places_by_relevance] gives to one place. *)
Definition relevance_score (t : TripRequest) (city_coords : Q * Q)
    (place : Place) : R :=
  let score := 0%R in
  let score := interest_score (interests t) place score in
  let score := (score + proximity_score city_coords place)%R in
  let score := rating_score place score in
  let score := budget_score t place score in
  score.

(** [rank_places_by_relevance]. *)
Definition rank_places_by_relevance (t : TripRequest)
    (available_places : list Place) (city_coords : Q * Q) : list Place :=
  let scored_places :=
    map (fun place => (place, relevance_score t city_coords place))
      available_places in
  let scored_places := Py.sort_desc snd scored_places in
  map fst scored_places.

(** *** [create_itinerary_simple]: ranking *)

(** The proximity term of [create_itinerary_simple]: the distance is the
    Euclidean norm of the coordinate difference, in degrees. *)
Definition simple_proximity (city_coords : Q * Q) (place : Place) : R :=
  let '(city_lat, city_lon) := city_coords in
  let distance :=
    sqrt (Q2R ((latitude place - city_lat) ^ 2
               + (longitude place - city_lon) ^ 2)) in
  Py.max0 (5 - distance * 100).

(** The score [create_itinerary_simple] gives to one place. *)
Definition simple_score (t : TripRequest) (city_coords : Q * Q)
    (place : Place) : R :=
  let score := 0%R in
  let score := interest_score (interests t) place score in
  let score := (score + simple_proximity city_coords place)%R in
  let score := rating_score place score in
  let score := budget_score t place score in
  score.

Definition scored_places (t : TripRequest) (places : list Place)
    (city_coords : Q * Q) : list (Place * R) :=
  map (fun place => (place, simple_score t city_coords place)) places.

(** [scored_places.sort(key=lambda x: x[1], reverse=True)] followed by
    [[place for place, score in scored_places]]. *)
Definition ranked_places (t : TripRequest) (places : list Place)
    (city_coords : Q * Q) : list Place :=
  map fst (Py.sort_desc snd (scored_places t places city_coords)).

(** *** [create_itinerary_simple]: allocation *)

Definition pace_map : list (string * nat) :=
  [("relaxed", 2%nat); ("moderate", 3%nat); ("packed", 5%nat)].

Definition target_places_per_day (t : TripRequest) : nat :=
  Py.dict_get pace_map (pace t) 3%nat.

(** The variables the [while] loop of one day reads and writes. *)
Record DayState := mkDayState {
  day_places : list Place;
  day_cost : Q;
  current_index : nat
}.

Section Allocation.

Variable t : TripRequest.
Variable ranked : list Place.

(** The condition of the [while] loop; [and] evaluates
    [ranked_places[current_index]] only below [len(ranked_places)]. *)
Definition while_cond (st : DayState) : bool :=
  (List.length (day_places st) <? target_places_per_day t)%nat
  && (current_index st <? List.length ranked)%nat
  && match nth_error ranked (current_index st) with
     | Some place =>
         Qle_bool
           (day_cost st + estimated_cost place * inject_Z (group_size t))
           (daily_budget t * (12 # 10))
     | None => false
     end.

(** The body of the [while] loop. *)
Definition while_body (st : DayState) : DayState :=
  match nth_error ranked (current_index st) with
  | Some place =>
      mkDayState
        (day_places st ++ [place])%list
        (day_cost st + estimated_cost place * inject_Z (group_size t))
        (current_index st + 1)
  | None => st
  end.

(** The [while] loop, run for at most [fuel] iterations. *)
Fixpoint while_loop (fuel : nat) (st : DayState) : DayState :=
  match fuel with
  | O => st
  | S fuel' =>
      if while_cond st then while_loop fuel' (while_body st) else st
  end.

(** One iteration of [for day_num in range(1, num_days + 1)]: the new
    day plan and the cursor after it.  The [while] loop gets one unit
    of fuel for each place the cursor has not passed yet. *)
Definition plan_day (day_num : Z) (current_index : nat)
  : result (DayPlan * nat) :=
  let day_date := (start_date t + (day_num - 1))%Z in
  let day_places := [] in
  let day_cost := 0%Q in
  let meal_cost := (40 * inject_Z (group_size t))%Q in
  let day_cost := (day_cost + meal_cost)%Q in
  let st :=
    while_loop (List.length ranked - current_index)
      (mkDayState day_places day_cost current_index) in
  let transport_cost := (15 * inject_Z (group_size t))%Q in
  let day_cost := (Agent.day_cost st + transport_cost)%Q in
  let notes :=
    ("Includes meals (~$" ++ Py.format_0f meal_cost
     ++ ") and transport (~$" ++ Py.format_0f transport_cost
     ++ ")")%string in
  d <- DayPlan_new day_num (Some day_date) (Agent.day_places st)
         (Py.round2 day_cost) (Some notes) ;;
  ret (d, Agent.current_index st).

(** The [for] loop over the days, threading [daily_plans] and
    [current_index]. *)
Fixpoint for_days (day_nums : list Z) (daily_plans : list DayPlan)
    (current_index : nat) : result (list DayPlan * nat) :=
  match day_nums with
  | [] => ret (daily_plans, current_index)
  | day_num :: day_nums' =>
      r <- plan_day day_num current_index ;;
      for_days day_nums' (daily_plans ++ [fst r])%list (snd r)
  end.

(** [daily_plans] when the [for] loop is over. *)
Definition daily_plans : result (list DayPlan) :=
  r <- for_days (Py.range 1 (num_days t + 1)) [] 0%nat ;;
  ret (fst r).

End Allocation.

(** *** The agent tool [allocate_places_to_days] *)

Section ToolAllocation.

Variable t : TripRequest.
Variable ranked_places : list Place.

(** One iteration of the [for] loop of the tool.  Its [while] loop is the
    one of [create_itinerary_simple]; the day plan is built with
    [DayPlan(day_index=day_num, date=day_date, ...)]: the date goes to a
    keyword that is not a field, and no [day_date] is passed. *)
Definition tool_plan_day (day_num : Z) (current_place_index : nat)
  : result (DayPlan * nat) :=
  let day_date := (start_date t + (day_num - 1))%Z in
  let day_places := [] in
  let day_cost := 0%Q in
  let meal_cost := (40 * inject_Z (group_size t))%Q in
  let day_cost := (day_cost + meal_cost)%Q in
  let st :=
    while_loop t ranked_places
      (List.length ranked_places - current_place_index)
      (mkDayState day_places day_cost current_place_index) in
  let transport_cost := (15 * inject_Z (group_size t))%Q in
  let day_cost := (Agent.day_cost st + transport_cost)%Q in
  let notes :=
    ("Includes meals (~$" ++ Py.format_0f meal_cost
     ++ ") and transport (~$" ++ Py.format_0f transport_cost
     ++ ")")%string in
  d <- DayPlan_new day_num None (Agent.day_places st)
         (Py.round2 day_cost) (Some notes) ;;
  ret (d, Agent.current_index st).

Fixpoint tool_for_days (day_nums : list Z) (daily_plans : list DayPlan)
    (current_place_index : nat) : result (list DayPlan * nat) :=
  match day_nums with
  | [] => ret (daily_plans, current_place_index)
  | day_num :: day_nums' =>
      r <- tool_plan_day day_num current_place_index ;;
      tool_for_days day_nums' (daily_plans ++ [fst r])%list (snd r)
  end.

(** [allocate_places_to_days]. *)
Definition allocate_places_to_days : result (list DayPlan) :=
  r <- tool_for_days (Py.range 1 (num_days t + 1)) [] 0%nat ;;
  ret (fst r).

End ToolAllocation.

(** ["within budget" if total_cost <= budget else "slightly over budget"] *)
Definition budget_status (total_cost : Q) (t : TripRequest) : string :=
  if Qle_bool total_cost (budget t) then "within budget"
  else "slightly over budget".

(** The part of [create_itinerary_simple] after the ranking. *)
Definition build_itinerary (t : TripRequest) (ranked : list Place)
  : result Itinerary :=
  plans <- daily_plans t ranked ;;
  let total_cost := Py.sum (map total_cost plans) in
  let notes :=
    ("Itinerary created for " ++ Py.str_of_int (num_days t)
     ++ " days with " ++ pace t ++ " pace. Total cost is "
     ++ budget_status total_cost t ++ ".")%string in
  Itinerary_new t plans (Py.round2 total_cost) (Some notes).

(** [create_itinerary_simple]. *)
Definition create_itinerary_simple (t : TripRequest) (places : list Place)
    (city_coords : Q * Q) : result Itinerary :=
  build_itinerary t (ranked_places t places city_coords).

End Agent.

Import Agent.

(** ** Vocabulary of the statements *)

(** [ranked[i:j]]. *)
Definition slice {A} (i j : nat) (l : list A) : list A :=
  firstn (j - i) (skipn i l).

(** What one place adds to the running cost of a day. *)
Definition add_cost (t : TripRequest) (acc : Q) (place : Place) : Q :=
  (acc + estimated_cost place * inject_Z (group_size t))%Q.

(** The running cost of a day that has taken the places [ps]. *)
Definition running_cost (t : TripRequest) (ps : list Place) : Q :=
  fold_left (add_cost t) ps (0 + 40 * inject_Z (group_size t))%Q.

(** The sum of [estimated_cost * group_size] over the places [ps]. *)
Definition places_cost (t : TripRequest) (ps : list Place) : Q :=
  fold_right
    (fun place acc => (estimated_cost place * inject_Z (group_size t) + acc)%Q)
    0%Q ps.

(** The state of the [while] loop once it has moved the cursor from where
    [st] has it to [j]. *)
Definition advance (t : TripRequest) (ranked : list Place) (st : DayState)
    (j : nat) : DayState :=
  mkDayState
    (day_places st ++ slice (current_index st) j ranked)%list
    (fold_left (add_cost t) (slice (current_index st) j ranked) (day_cost st))
    j.

(** The state of the [while] loop of a day that started with the cursor at
    [i] and has moved it to [j]. *)
Definition state_at (t : TripRequest) (ranked : list Place) (i j : nat)
  : DayState :=
  mkDayState (slice i j ranked) (running_cost t (slice i j ranked)) j.

(** The note of every day. *)
Definition day_notes (t : TripRequest) : string :=
  ("Includes meals (~$" ++ Py.format_0f (40 * inject_Z (group_size t))
   ++ ") and transport (~$" ++ Py.format_0f (15 * inject_Z (group_size t))
   ++ ")")%string.

(** The day plan of day [n] when the cursor starts at [i] and stops at
    [j]. *)
Definition day_of (t : TripRequest) (ranked : list Place) (n : Z)
    (i j : nat) : DayPlan :=
  mkDayPlan n (start_date t + (n - 1))%Z (slice i j ranked)
    (Py.round2
       (running_cost t (slice i j ranked) + 15 * inject_Z (group_size t)))
    (Some (day_notes t)).

(** [j] is where the [while] loop that starts at [i] stops: the condition
    holds at every cursor position before [j] and fails at [j]. *)
Definition stops_at (t : TripRequest) (ranked : list Place) (i j : nat)
  : Prop :=
  (i <= j <= List.length ranked)%nat
  /\ while_cond t ranked (state_at t ranked i j) = false
  /\ forall m, (i <= m < j)%nat ->
       while_cond t ranked (state_at t ranked i m) = true.

(** The run of the [for] loop: the days planned for the day numbers [ns]
    while the cursor goes from [i] to [j]. *)
Inductive days_trace (t : TripRequest) (ranked : list Place)
  : nat -> list Z -> list DayPlan -> nat -> Prop :=
| trace_nil : forall i, days_trace t ranked i [] [] i
| trace_cons : forall i j k n ns ds,
    stops_at t ranked i j ->
    days_trace t ranked j ns ds k ->
    days_trace t ranked i (n :: ns) (day_of t ranked n i j :: ds) k.

(** [a] may stand right before [b] in a list of non-increasing keys. *)
Definition desc {A} (key : A -> R) (a b : A) : Prop := (key b <= key a)%R.

(** Whether the key of [a] is [s]. *)
Definition has_key {A} (key : A -> R) (s : R) (a : A) : bool :=
  if Req_dec_T (key a) s then true else false.

(** The text of the summary notes for a given budget status. *)
Definition summary_notes (t : TripRequest) (status : string) : string :=
  ("Itinerary created for " ++ Py.str_of_int (num_days t)
   ++ " days with " ++ pace t ++ " pace. Total cost is "
   ++ status ++ ".")%string.

(** A place 0.05 degrees of latitude north of a city centre at (0, 0). *)
Definition north_place : Place :=
  mkPlace "Old Mill" "museum" (5 # 100) 0 0 None None None 120 None.

(** The two places and the request of the first example scenario. *)
Definition city_museum : Place :=
  mkPlace "City Museum" "museum" (1 # 100) 0 15 None None (Some 4) 120 None.

Definition riverside_park : Place :=
  mkPlace "Riverside Park" "park" (2 # 100) 0 0 None None None 120 None.

Definition museum_trip : TripRequest :=
  mkTripRequest "Lyon" 100 102 200 ["museums"] "relaxed" 1.

(** The requests [TripRequest_new] builds. *)
Definition TripRequest_valid (t : TripRequest) : Prop :=
  (start_date t < end_date t)%Z /\ (0 < budget t)%Q
  /\ In (pace t) allowed /\ (0 < group_size t)%Z.

(** ** models.py: the derived views *)

Module Views.

(** [Place.coordinates]. *)
Definition coordinates (p : Place) : Q * Q := (latitude p, longitude p).

(** [DayPlan.place_count]. *)
Definition place_count (d : DayPlan) : nat := List.length (places d).

(** [DayPlan.total_time]. *)
Definition total_time (d : DayPlan) : Z :=
  fold_left Z.add (map time_needed (places d)) 0%Z.

(** [Itinerary.num_days]. *)
Definition itinerary_num_days (it : Itinerary) : nat :=
  List.length (days it).

(** [Itinerary.total_places]. *)
Definition total_places (it : Itinerary) : nat :=
  fold_left Nat.add (map place_count (days it)) 0%nat.

(** [Place(...)] with its constraints [estimated_cost >= 0] and
    [0 <= rating <= 5]. *)
Definition Place_new (name category : string) (latitude longitude : Q)
    (estimated_cost : Q) (hours description : option string)
    (rating : option Q) (time_needed : Z) (address : option string)
  : result Place :=
  let errors :=
    ((if Qle_bool 0 estimated_cost then []
      else [mkError "estimated_cost"
              "Input should be greater than or equal to 0"])
     ++ match rating with
        | Some r =>
            if negb (Qle_bool 0 r)
            then [mkError "rating"
                    "Input should be greater than or equal to 0"]
            else if negb (Qle_bool r 5)
            then [mkError "rating" "Input should be less than or equal to 5"]
            else []
        | None => []
        end)%list in
  match errors with
  | [] => inr (mkPlace name category latitude longitude estimated_cost
                 hours description rating time_needed address)
  | _ :: _ => inl errors
  end.

End Views.

Import Views.

(** ** Exceptions *)

Module Entry.

(** The exceptions the planner and its clients can raise. *)
Inductive PyError :=
| ValidationErr (e : ValidationError)
| TypeError (msg : string)
| ValueError (msg : string)
| Exception (msg : string).

End Entry.

Import Entry.

(** ** api_clients.py: the Overpass client *)

Module ApiClients.

(** [d.get(key)] for a dict written as a list of items. *)
Fixpoint dict_lookup {V} (d : list (string * V)) (key : string) : option V :=
  match d with
  | [] => None
  | (k, v) :: d' => if String.eqb k key then Some v else dict_lookup d' key
  end.

(** The truth value of an optional string: [None] and the empty string are
    falsy. *)
Definition truthy (o : option string) : bool :=
  match o with
  | Some s => negb (String.eqb s EmptyString)
  | None => false
  end.

(** [a or b]. *)
Definition py_or (a b : option string) : option string :=
  if truthy a then a else b.

(** [l[:n]]. *)
Definition take {A} (n : Z) (l : list A) : list A :=
  if (n <? 0)%Z then firstn (Z.to_nat (Z.of_nat (List.length l) + n)) l
  else firstn (Z.to_nat n) l.

(** [s.split(sep)] for a separator of one character. *)
Fixpoint split_on (sep : ascii) (s : string) : list string :=
  match s with
  | EmptyString => [EmptyString]
  | String c s' =>
      if Ascii.eqb c sep then EmptyString :: split_on sep s'
      else match split_on sep s' with
           | part :: parts => String c part :: parts
           | [] => [String c EmptyString]
           end
  end.

Definition newline : string := String (ascii_of_nat 10) EmptyString.
Definition dquote : string := String (ascii_of_nat 34) EmptyString.
Definition equals_sign : ascii := ascii_of_nat 61.

Definition OVERPASS_SERVERS : list string :=
  ["https://overpass.kumi.systems/api/interpreter";
   "https://overpass-api.de/api/interpreter";
   "https://maps.mail.ru/osm/tools/overpass/api/interpreter"].

Definition INTEREST_TO_OSM_TAGS : list (string * list string) :=
  [("museums", ["tourism=museum"]);
   ("history", ["tourism=museum"; "historic=monument"; "historic=castle"]);
   ("culture", ["tourism=museum"; "tourism=gallery"; "tourism=theatre"]);
   ("art", ["tourism=gallery"; "tourism=artwork"]);
   ("nature", ["leisure=park"; "leisure=garden"; "natural=beach"]);
   ("parks", ["leisure=park"; "leisure=garden"]);
   ("outdoor", ["leisure=park"; "natural=peak"; "tourism=viewpoint"]);
   ("food", ["amenity=restaurant"; "amenity=cafe"; "amenity=bar"]);
   ("restaurants", ["amenity=restaurant"; "amenity=cafe"]);
   ("architecture",
    ["tourism=attraction"; "historic=building"; "building=cathedral"]);
   ("religion",
    ["amenity=place_of_worship"; "building=church"; "building=mosque"]);
   ("sport", ["leisure=sports_centre"; "leisure=stadium"]);
   ("shopping", ["shop=mall"; "shop=department_store"]);
   ("entertainment", ["tourism=attraction"; "leisure=amusement_arcade"]);
   ("amusements", ["tourism=theme_park"; "leisure=amusement_arcade"])].

(** The list [tags] of [_map_interests_to_tags] when its loop is over. *)
Definition collected_tags (interests : list string) : list string :=
  fold_left
    (fun tags interest =>
       let interest_lower := Py.lower interest in
       match dict_lookup INTEREST_TO_OSM_TAGS interest_lower with
       | Some ts => (tags ++ ts)%list
       | None => tags
       end)
    interests [].

(** [_map_interests_to_tags]; [set_to_list] stands for [list(set(tags))],
    whose order Python leaves open. *)
Definition _map_interests_to_tags (set_to_list : list string -> list string)
    (interests : list string) : list string :=
  let tags := collected_tags interests in
  match tags with
  | [] => ["tourism=attraction"]
  | _ :: _ => set_to_list tags
  end.

(** The loop of [_build_query] over the tags: [key, value = tag.split("=")]
    raises unless the tag has exactly two parts. *)
Fixpoint tag_filters (float_str : Q -> string) (lat lon : Q) (radius : Z)
    (tags : list string) (acc : list string) : PyError + list string :=
  match tags with
  | [] => inr acc
  | tag :: tags' =>
      match split_on equals_sign tag with
      | [key; value] =>
          tag_filters float_str lat lon radius tags'
            (acc ++ [("  node[" ++ dquote ++ key ++ dquote ++ "="
                      ++ dquote ++ value ++ dquote ++ "](around:"
                      ++ Py.str_of_int radius ++ "," ++ float_str lat
                      ++ "," ++ float_str lon ++ ");")%string])%list
      | [_] => inl (ValueError "not enough values to unpack")
      | _ => inl (ValueError "too many values to unpack")
      end
  end.

(** [_build_query]; [float_str] is the text an f-string gives a float. *)
Definition _build_query (float_str : Q -> string) (lat lon : Q) (radius : Z)
    (tags : list string) : PyError + string :=
  let tags := firstn 3 tags in
  match tag_filters float_str lat lon radius tags [] with
  | inl e => inl e
  | inr filters =>
      inr ("[out:json][timeout:10];" ++ newline ++ "(" ++ newline
           ++ String.concat newline filters ++ newline ++ ");" ++ newline
           ++ "out body 50;")%string
  end.

(** [_determine_category]. *)
Definition _determine_category (tags : list (string * string)) : string :=
  let tag_is k v :=
    match dict_lookup tags k with
    | Some x => String.eqb x v
    | None => false
    end in
  if tag_is "tourism" "museum" then "museum"
  else if tag_is "tourism" "gallery" then "art_gallery"
  else if tag_is "tourism" "attraction" then "attraction"
  else if tag_is "tourism" "viewpoint" then "viewpoint"
  else if tag_is "amenity" "restaurant" then "restaurant"
  else if tag_is "amenity" "cafe" then "cafe"
  else if tag_is "amenity" "place_of_worship" then "religious_site"
  else if tag_is "leisure" "park" then "park"
  else if tag_is "leisure" "garden" then "garden"
  else if truthy (dict_lookup tags "historic")
  then match dict_lookup tags "historic" with
       | Some historic => ("historic_" ++ historic)%string
       | None => "attraction"
       end
  else if truthy (dict_lookup tags "shop") then "shopping"
  else "attraction".

(** The loop [for key, value in d.items(): if key in text: return value]
    with the value returned after it. *)
Fixpoint first_key_in {V} (d : list (string * V)) (text : string)
    (otherwise : V) : V :=
  match d with
  | [] => otherwise
  | (key, value) :: d' =>
      if Py.str_in key text then value else first_key_in d' text otherwise
  end.

Definition cost_map : list (string * Q) :=
  [("museum", 15%Q); ("art_gallery", 12%Q); ("park", 0%Q); ("garden", 5%Q);
   ("restaurant", 25%Q); ("cafe", 15%Q); ("religious_site", 0%Q);
   ("historic", 10%Q); ("attraction", 10%Q); ("shopping", 20%Q);
   ("viewpoint", 0%Q)].

(** [_estimate_cost]. *)
Definition _estimate_cost (category : string) (tags : list (string * string))
  : Q :=
  let fee :=
    Py.lower match dict_lookup tags "fee" with
             | Some f => f
             | None => EmptyString
             end in
  if String.eqb fee "no" then 0%Q
  else first_key_in cost_map (Py.lower category) 10%Q.

Definition time_map : list (string * Z) :=
  [("museum", 120%Z); ("art_gallery", 90%Z); ("park", 60%Z);
   ("garden", 45%Z); ("restaurant", 90%Z); ("cafe", 45%Z);
   ("religious", 45%Z); ("historic", 60%Z); ("attraction", 90%Z);
   ("shopping", 90%Z); ("viewpoint", 30%Z)].

(** [_estimate_time]. *)
Definition _estimate_time (category : string) : Z :=
  first_key_in time_map (Py.lower category) 60%Z.

(** The [center] of an OSM way or relation. *)
Record Center := mkCenter {
  center_lat : option Q;
  center_lon : option Q
}.

(** An element of the Overpass answer: the keys [_parse_element] reads,
    each present or absent. *)
Record Element := mkElement {
  el_type : option string;
  el_lat : option Q;
  el_lon : option Q;
  el_center : option Center;
  el_tags : option (list (string * string))
}.

(** [_parse_element]; the [except] clause turns a failed [Place(...)] into
    [None]. *)
Definition _parse_element (element : Element) : option Place :=
  let tags :=
    match el_tags element with
    | Some d => d
    | None => []
    end in
  let name := dict_lookup tags "name" in
  let name :=
    if negb (truthy name)
    then py_or (dict_lookup tags "name:en") (dict_lookup tags "official_name")
    else name in
  match name with
  | Some name_text =>
      if negb (truthy name) then None
      else
        let coords :=
          if match el_type element with
             | Some ty => String.eqb ty "node"
             | None => false
             end
          then Some (el_lat element, el_lon element)
          else match el_center element with
               | Some center => Some (center_lat center, center_lon center)
               | None => None
               end in
        match coords with
        | Some (Some lat, Some lon) =>
            let category := _determine_category tags in
            let estimated_cost := _estimate_cost category tags in
            let time_needed := _estimate_time category in
            let hours := dict_lookup tags "opening_hours" in
            let description :=
              py_or (dict_lookup tags "description")
                (dict_lookup tags "wikipedia") in
            let address := dict_lookup tags "addr:street" in
            match Place_new name_text category lat lon estimated_cost hours
                    description None time_needed address with
            | inr place => Some place
            | inl _ => None
            end
        | _ => None
        end
  | None => None
  end.

(** The loop of [fetch_pois] over [elements[:limit]]. *)
Definition parse_elements (elements : list Element) (limit : Z)
  : list Place :=
  fold_left
    (fun places element =>
       match _parse_element element with
       | Some place => (places ++ [place])%list
       | None => places
       end)
    (take limit elements) [].

(** The loop of [fetch_pois] over the servers; [post server query] is the
    answer of a server, its elements or the exception of the attempt.  The
    [else] clause of the loop raises the last error. *)
Fixpoint try_servers (post : string -> string -> PyError + list Element)
    (query : string) (servers : list string) (last_error : option PyError)
  : PyError + list Element :=
  match servers with
  | [] =>
      inl match last_error with
          | Some e => e
          | None => Exception "All Overpass servers failed"
          end
  | server_url :: servers' =>
      match post server_url query with
      | inr elements => inr elements
      | inl e => try_servers post query servers' (Some e)
      end
  end.

(** [fetch_pois]; an absent or empty [interests] selects the default
    tags. *)
Definition fetch_pois (set_to_list : list string -> list string)
    (float_str : Q -> string)
    (post : string -> string -> PyError + list Element)
    (latitude longitude : Q) (radius : Z) (interests : option (list string))
    (limit : Z) : PyError + list Place :=
  let osm_tags :=
    match interests with
    | Some (i :: rest) => _map_interests_to_tags set_to_list (i :: rest)
    | _ => ["tourism=museum"; "amenity=restaurant"; "leisure=park"]
    end in
  match _build_query float_str latitude longitude radius osm_tags with
  | inl e => inl e
  | inr query =>
      match try_servers post query OVERPASS_SERVERS None with
      | inl e => inl e
      | inr elements => inr (parse_elements elements limit)
      end
  end.

End ApiClients.

Import ApiClients.

(** ** Vocabulary of the statements on the Overpass client *)

(** The name [_parse_element] settles on: [name], else [name:en], else
    [official_name], when it is not empty. *)
Definition element_name (element : Element) : option string :=
  let tags :=
    match el_tags element with
    | Some d => d
    | None => []
    end in
  let name :=
    if truthy (dict_lookup tags "name") then dict_lookup tags "name"
    else py_or (dict_lookup tags "name:en")
           (dict_lookup tags "official_name") in
  if truthy name then name else None.

(** The coordinates [_parse_element] reads: those of a node, else those of
    the centre, when both are there. *)
Definition element_coords (element : Element) : option (Q * Q) :=
  let is_node :=
    match el_type element with
    | Some ty => String.eqb ty "node"
    | None => false
    end in
  let pair :=
    if is_node then Some (el_lat element, el_lon element)
    else match el_center element with
         | Some center => Some (center_lat center, center_lon center)
         | None => None
         end in
  match pair with
  | Some (Some lat, Some lon) => Some (lat, lon)
  | _ => None
  end.

(** A tag that [tag.split("=")] cuts in exactly two parts. *)
Definition two_parts (tag : string) : bool :=
  match split_on equals_sign tag with
  | [_; _] => true
  | _ => false
  end.

(** [f] lists the elements of the set of a list: each once, in some
    order. *)
Definition enumerates_sets (f : list string -> list string) : Prop :=
  forall l, NoDup (f l) /\ forall x, In x (f l) <-> In x l.

(** Three elements of an Overpass answer: a museum node without a fee, a
    castle given by its centre, and a node without a longitude. *)
Definition louvre_element : Element :=
  mkElement (Some "node") (Some (4886 # 100)) (Some (234 # 100)) None
    (Some [("name", "Louvre"); ("tourism", "museum"); ("fee", "No")]).

Definition castle_element : Element :=
  mkElement (Some "way") None None
    (Some (mkCenter (Some (4880 # 100)) (Some (230 # 100))))
    (Some [("name:en", "Castle"); ("historic", "castle")]).

Definition broken_element : Element :=
  mkElement (Some "node") (Some 1) None None (Some [("name", "Kiosk")]).

(** ** Double-precision arithmetic *)

(** A Python [float] as the exact rational it stands for, each operation
    giving the double nearest its exact result (ties to the even
    mantissa), as IEEE-754 prescribes.  Results beyond the largest double,
    NaN and the sign of zero are not modelled. *)
Module Double.

(** The [e] with [2^e <= a < 2^(e+1)], for a positive [a]. *)
Definition exponent (a : Q) : Z :=
  let e0 := (Z.log2 (Qnum a) - Z.log2 (Zpos (Qden a)))%Z in
  if Qle_bool (2 ^ e0) a then e0 else (e0 - 1)%Z.

(** The double nearest a positive [a]: a mantissa of 53 bits, on the grid
    of the subnormals below [2^-1022]. *)
Definition rnd_pos (a : Q) : Q :=
  let e := Z.max (exponent a) (-1022) in
  let ulp := (2 ^ (e - 52))%Q in
  (inject_Z (Py.round_half_even (a / ulp)) * ulp)%Q.

(** The double nearest [x]. *)
Definition rnd (x : Q) : Q :=
  Qred match (x ?= 0)%Q with
       | Eq => 0%Q
       | Gt => rnd_pos x
       | Lt => (- rnd_pos (- x))%Q
       end.

(** A decimal literal, and an [int] used where a float is expected. *)
Definition lit (q : Q) : Q := rnd q.
Definition of_int (z : Z) : Q := rnd (inject_Z z).

(** [x + y], [x - y], [x * y] and [x / y] on floats. *)
Definition fadd (x y : Q) : Q := rnd (x + y).
Definition fsub (x y : Q) : Q := rnd (x - y).
Definition fmul (x y : Q) : Q := rnd (x * y).
Definition fdiv (x y : Q) : Q := rnd (x / y).

(** [x <= y] on floats. *)
Definition fle (x y : Q) : bool := Qle_bool x y.

(** [round(x, 2)]: the exact value of [x] rounded to hundredths, ties to
    even, then the double nearest that decimal. *)
Definition fround2 (x : Q) : Q := rnd (Py.round2 x).

(** The two ways the builtin [sum] adds floats up: CPython up to 3.11
    adds from the left; CPython from 3.12 on also carries the rounding
    errors of the additions along and adds them at the end (Neumaier's
    summation). *)
Inductive summation : Type := plain | compensated.

(** One step of the compensated loop of [sum]:
    [t = f_result + x], then [c += (f_result - t) + x] if
    [fabs(f_result) >= fabs(x)] and [c += (x - t) + f_result] otherwise,
    then [f_result = t]. *)
Definition neumaier (acc : Q * Q) (x : Q) : Q * Q :=
  let (f_result, c) := acc in
  let t := fadd f_result x in
  let c :=
    if fle (Qabs x) (Qabs f_result)
    then fadd c (fadd (fsub f_result t) x)
    else fadd c (fadd (fsub x t) f_result) in
  (t, c).

(** [sum(xs)] on a list of floats.  The sum of no float is the [int] 0;
    otherwise the first float is added to that 0.  The compensated loop
    starts after it and ends with [f_result + c] unless [c] is 0. *)
Definition fsum (s : summation) (xs : list Q) : Q :=
  match s, xs with
  | _, [] => 0%Q
  | plain, _ => fold_left fadd xs 0%Q
  | compensated, x :: xs' =>
      let (f_result, c) := fold_left neumaier xs' (fadd 0 x, 0%Q) in
      if Qeq_bool c 0 then f_result else fadd f_result c
  end.

End Double.

(** ** agent.py, with the arithmetic of doubles *)

(** The allocation and the totals of [create_itinerary_simple] once more,
    every float operation rounded as the interpreter rounds it.  The
    numeric fields of the request and of the places are taken to hold
    doubles. *)
Module AgentF.

Import Double.

(** [TripRequest.daily_budget]. *)
Definition daily_budget (t : TripRequest) : Q :=
  fdiv (budget t) (of_int (Z.max (num_days t) 1)).

Section Allocation.

Variable t : TripRequest.
Variable ranked : list Place.

(** [place.estimated_cost * trip_request.group_size]. *)
Definition place_cost (place : Place) : Q :=
  fmul (estimated_cost place) (of_int (group_size t)).

(** [trip_request.daily_budget * 1.2]. *)
Definition ceiling : Q := fmul (daily_budget t) (lit (12 # 10)).

(** The condition of the [while] loop. *)
Definition while_cond (st : DayState) : bool :=
  (List.length (day_places st) <? target_places_per_day t)%nat
  && (current_index st <? List.length ranked)%nat
  && match nth_error ranked (current_index st) with
     | Some place => fle (fadd (day_cost st) (place_cost place)) ceiling
     | None => false
     end.

(** The body of the [while] loop. *)
Definition while_body (st : DayState) : DayState :=
  match nth_error ranked (current_index st) with
  | Some place =>
      mkDayState
        (day_places st ++ [place])%list
        (fadd (day_cost st) (place_cost place))
        (current_index st + 1)
  | None => st
  end.

(** The [while] loop, run for at most [fuel] iterations. *)
Fixpoint while_loop (fuel : nat) (st : DayState) : DayState :=
  match fuel with
  | O => st
  | S fuel' =>
      if while_cond st then while_loop fuel' (while_body st) else st
  end.

(** One iteration of [for day_num in range(1, num_days + 1)]. *)
Definition plan_day (day_num : Z) (current_index : nat)
  : result (DayPlan * nat) :=
  let day_date := (start_date t + (day_num - 1))%Z in
  let day_places := [] in
  let day_cost := 0%Q in
  let meal_cost := fmul 40 (of_int (group_size t)) in
  let day_cost := fadd day_cost meal_cost in
  let st :=
    while_loop (List.length ranked - current_index)
      (mkDayState day_places day_cost current_index) in
  let transport_cost := fmul 15 (of_int (group_size t)) in
  let day_cost := fadd (Agent.day_cost st) transport_cost in
  let notes :=
    ("Includes meals (~$" ++ Py.format_0f meal_cost
     ++ ") and transport (~$" ++ Py.format_0f transport_cost
     ++ ")")%string in
  d <- DayPlan_new day_num (Some day_date) (Agent.day_places st)
         (fround2 day_cost) (Some notes) ;;
  ret (d, Agent.current_index st).

(** The [for] loop over the days. *)
Fixpoint for_days (day_nums : list Z) (daily_plans : list DayPlan)
    (current_index : nat) : result (list DayPlan * nat) :=
  match day_nums with
  | [] => ret (daily_plans, current_index)
  | day_num :: day_nums' =>
      r <- plan_day day_num current_index ;;
      for_days day_nums' (daily_plans ++ [fst r])%list (snd r)
  end.

(** [daily_plans] when the [for] loop is over. *)
Definition daily_plans : result (list DayPlan) :=
  r <- for_days (Py.range 1 (num_days t + 1)) [] 0%nat ;;
  ret (fst r).

End Allocation.

(** ["within budget" if total_cost <= budget else "slightly over budget"] *)
Definition budget_status (total_cost : Q) (t : TripRequest) : string :=
  if fle total_cost (budget t) then "within budget"
  else "slightly over budget".

(** The part of [create_itinerary_simple] after the ranking, on an
    interpreter whose [sum] adds floats up as [s] says. *)
Definition build_itinerary (s : summation) (t : TripRequest)
    (ranked : list Place) : result Itinerary :=
  plans <- daily_plans t ranked ;;
  let total_cost := fsum s (map total_cost plans) in
  let notes :=
    ("Itinerary created for " ++ Py.str_of_int (num_days t)
     ++ " days with " ++ pace t ++ " pace. Total cost is "
     ++ budget_status total_cost t ++ ".")%string in
  Itinerary_new t plans (fround2 total_cost) (Some notes).

End AgentF.

(** ** Vocabulary of the statements on doubles *)

(** [x] is a double: a mantissa of at most 53 bits times a power of two
    that is at least [2^-1074]. *)
Definition is_double (x : Q) : Prop :=
  exists m e : Z,
    (Z.abs m <= 2 ^ 53)%Z /\ (-1074 <= e)%Z
    /\ (x == inject_Z m * 2 ^ e)%Q.

(** The exponent of the spacing of the doubles around a positive [a]. *)
Definition grid_exponent (a : Q) : Z :=
  (Z.max (Double.exponent a) (-1022) - 52)%Z.

(** The running cost of a day that has taken the places [ps], as the loop
    accumulates it. *)
Definition running_cost_f (t : TripRequest) (ps : list Place) : Q :=
  fold_left (fun acc place => Double.fadd acc (AgentF.place_cost t place)) ps
    (Double.fadd 0 (Double.fmul 40 (Double.of_int (group_size t)))).

(** The state of the [while] loop once it has moved the cursor from where
    [st] has it to [j]. *)
Definition advance_f (t : TripRequest) (ranked : list Place) (st : DayState)
    (j : nat) : DayState :=
  mkDayState
    (day_places st ++ slice (current_index st) j ranked)%list
    (fold_left (fun acc place => Double.fadd acc (AgentF.place_cost t place))
       (slice (current_index st) j ranked) (day_cost st))
    j.

(** The state of the [while] loop of a day that started with the cursor at
    [i] and has moved it to [j]. *)
Definition state_at_f (t : TripRequest) (ranked : list Place) (i j : nat)
  : DayState :=
  mkDayState (slice i j ranked) (running_cost_f t (slice i j ranked)) j.

(** The note of every day. *)
Definition day_notes_f (t : TripRequest) : string :=
  ("Includes meals (~$"
   ++ Py.format_0f (Double.fmul 40 (Double.of_int (group_size t)))
   ++ ") and transport (~$"
   ++ Py.format_0f (Double.fmul 15 (Double.of_int (group_size t)))
   ++ ")")%string.

(** The day plan of day [n] when the cursor starts at [i] and stops at
    [j]. *)
Definition day_of_f (t : TripRequest) (ranked : list Place) (n : Z)
    (i j : nat) : DayPlan :=
  mkDayPlan n (start_date t + (n - 1))%Z (slice i j ranked)
    (Double.fround2
       (Double.fadd (running_cost_f t (slice i j ranked))
          (Double.fmul 15 (Double.of_int (group_size t)))))
    (Some (day_notes_f t)).

(** [j] is where the [while] loop that starts at [i] stops. *)
Definition stops_at_f (t : TripRequest) (ranked : list Place) (i j : nat)
  : Prop :=
  (i <= j <= List.length ranked)%nat
  /\ AgentF.while_cond t ranked (state_at_f t ranked i j) = false
  /\ forall m, (i <= m < j)%nat ->
       AgentF.while_cond t ranked (state_at_f t ranked i m) = true.

(** The run of the [for] loop. *)
Inductive days_trace_f (t : TripRequest) (ranked : list Place)
  : nat -> list Z -> list DayPlan -> nat -> Prop :=
| trace_f_nil : forall i, days_trace_f t ranked i [] [] i
| trace_f_cons : forall i j k n ns ds,
    stops_at_f t ranked i j ->
    days_trace_f t ranked j ns ds k ->
    days_trace_f t ranked i (n :: ns) (day_of_f t ranked n i j :: ds) k.




(** A request of 250 over three days, and places that cost 15, 25 and
    20. *)
Definition thirds_trip : TripRequest :=
  mkTripRequest "Lyon" 100 103 250 [] "moderate" 1.

Definition thirds_places : list Place :=
  [mkPlace "Museum" "museum" 0 0 15 None None None 120 None;
   mkPlace "Bistro" "restaurant" 0 0 25 None None None 90 None;
   mkPlace "Mall" "shopping" 0 0 20 None None None 90 None].

(** ** Rounding *)

Section Rounding.

Local Open Scope Q_scope.

Lemma round_half_even_bounds (x : Q) :
  (Qfloor x <= Py.round_half_even x <= Qfloor x + 1)%Z.
Proof.
  unfold Py.round_half_even.
  destruct (x - inject_Z (Qfloor x) ?= 1 # 2); try lia.
  destruct (Z.even (Qfloor x)); lia.
Qed.

Lemma round_half_even_comp (x y : Q) :
  x == y -> Py.round_half_even x = Py.round_half_even y.
Proof.
  intros E. unfold Py.round_half_even.
  rewrite (Qfloor_comp _ _ E).
  assert (E' : x - inject_Z (Qfloor y) == y - inject_Z (Qfloor y))
    by (rewrite E; reflexivity).
  rewrite (Qcompare_comp _ _ E' _ _ (Qeq_refl (1 # 2))).
  reflexivity.
Qed.

Lemma round_half_even_Z (z : Z) : Py.round_half_even (inject_Z z) = z.
Proof.
  unfold Py.round_half_even. rewrite Qfloor_Z.
  assert (E : inject_Z z - inject_Z z == 0) by ring.
  rewrite (Qcompare_comp _ _ E _ _ (Qeq_refl (1 # 2))).
  reflexivity.
Qed.

Lemma round_half_even_mono (x y : Q) :
  x <= y -> (Py.round_half_even x <= Py.round_half_even y)%Z.
Proof.
  intros L.
  pose proof (Qfloor_resp_le _ _ L) as F.
  destruct (Z.eq_dec (Qfloor x) (Qfloor y)) as [E | N].
  - unfold Py.round_half_even. rewrite E.
    assert (D : x - inject_Z (Qfloor y) <= y - inject_Z (Qfloor y)).
    { apply Qplus_le_compat; [exact L | apply Qle_refl]. }
    destruct (x - inject_Z (Qfloor y) ?= 1 # 2) eqn:Cx;
      destruct (y - inject_Z (Qfloor y) ?= 1 # 2) eqn:Cy;
      try (destruct (Z.even (Qfloor y))); try lia; exfalso;
      repeat match goal with
             | H : (_ ?= _) = Eq |- _ => apply Qeq_alt in H
             | H : (_ ?= _) = Lt |- _ => apply Qlt_alt in H
             | H : (_ ?= _) = Gt |- _ => apply Qgt_alt in H
             end; lra.
  - pose proof (round_half_even_bounds x).
    pose proof (round_half_even_bounds y).
    lia.
Qed.

Lemma round2_comp (x y : Q) : x == y -> Py.round2 x = Py.round2 y.
Proof.
  intros E. unfold Py.round2. f_equal.
  apply round_half_even_comp. rewrite E. reflexivity.
Qed.

Lemma round2_hundredths (z : Z) : Py.round2 (z # 100) = z # 100.
Proof.
  unfold Py.round2. f_equal.
  rewrite <- (round_half_even_Z z) at 2.
  apply round_half_even_comp.
  unfold Qeq, Qmult, inject_Z. simpl. lia.
Qed.

Lemma round2_mono (x y : Q) : x <= y -> Py.round2 x <= Py.round2 y.
Proof.
  intros L. unfold Py.round2, Qle. simpl.
  apply Z.mul_le_mono_nonneg_r; [lia |].
  apply round_half_even_mono.
  apply Qmult_le_compat_r; [exact L | discriminate].
Qed.

Lemma round2_Z (z : Z) : Py.round2 (inject_Z z) == inject_Z z.
Proof.
  assert (E : inject_Z z == (z * 100 # 100)).
  { unfold Qeq, inject_Z. simpl. lia. }
  rewrite (round2_comp _ _ E), round2_hundredths. symmetry. exact E.
Qed.

Lemma round2_nonneg (x : Q) : 0 <= x -> 0 <= Py.round2 x.
Proof.
  intros L. apply round2_mono in L.
  change (Py.round2 0) with (0 # 100) in L.
  eapply Qle_trans; [| exact L]. discriminate.
Qed.

End Rounding.

(** ** Construction of a [TripRequest] *)

Lemma list_in_iff (x : string) (xs : list string) :
  Py.list_in x xs = true <-> In x xs.
Proof.
  unfold Py.list_in. rewrite existsb_exists. split.
  - intros [y [Hy E]]. apply String.eqb_eq in E. subst. exact Hy.
  - intros H. exists x. split; [exact H | apply String.eqb_refl].
Qed.

Lemma gt0_float_iff (x : Q) : gt0_float x = true <-> (0 < x)%Q.
Proof.
  unfold gt0_float. rewrite negb_true_iff. split.
  - intros H. apply Qnot_le_lt. intros L.
    apply Qle_bool_iff in L. congruence.
  - intros H. destruct (Qle_bool x 0) eqn:E; [| reflexivity].
    apply Qle_bool_iff in E. exfalso. exact (Qlt_not_le _ _ H E).
Qed.

(** Construction succeeds exactly on the four conditions, and then stores
    the lowercased pace. *)
Lemma TripRequest_new_inr (c : string) (s e : Z) (b : Q) (i : list string)
    (p : string) (g : Z) (t : TripRequest) :
  TripRequest_new c s e b i p g = inr t <->
  ((s < e)%Z /\ (0 < b)%Q /\ In (Py.lower p) allowed /\ (0 < g)%Z)
  /\ t = mkTripRequest c s e b i (Py.lower p) g.
Proof.
  unfold TripRequest_new, validate_dates, validate_pace, gt0_int.
  rewrite <- list_in_iff, <- gt0_float_iff.
  destruct (e <=? s)%Z eqn:D; destruct (gt0_float b) eqn:B;
    destruct (Py.list_in (Py.lower p) allowed) eqn:P;
    destruct (0 <? g)%Z eqn:G; simpl;
    try apply Z.leb_le in D; try apply Z.leb_gt in D;
    try apply Z.ltb_lt in G; try apply Z.ltb_ge in G;
    (split; [intros H | intros [[? [? [? ?]]] ?]]);
    try discriminate; try lia.
  - inversion H. auto.
  - subst. reflexivity.
Qed.

Lemma TripRequest_new_valid (c : string) (s e : Z) (b : Q) (i : list string)
    (p : string) (g : Z) (t : TripRequest) :
  TripRequest_new c s e b i p g = inr t -> TripRequest_valid t.
Proof.
  intros H. apply TripRequest_new_inr in H. destruct H as [H E]. subst t.
  exact H.
Qed.

Lemma TripRequest_new_total (c : string) (s e : Z) (b : Q) (i : list string)
    (p : string) (g : Z) :
  (exists err, TripRequest_new c s e b i p g = inl err)
  \/ (exists t, TripRequest_new c s e b i p g = inr t).
Proof.
  destruct (TripRequest_new c s e b i p g) as [err | t]; eauto.
Qed.


(** ** Slices of the ranked list *)

Section Slices.

Context {A : Type}.
Implicit Types (l : list A) (i j k : nat).

Lemma slice_nil l i : slice i i l = [].
Proof. unfold slice. rewrite Nat.sub_diag. reflexivity. Qed.

Lemma slice_0 l j : slice 0 j l = firstn j l.
Proof. unfold slice. rewrite Nat.sub_0_r. reflexivity. Qed.

Lemma skipn_nth_error l i x :
  nth_error l i = Some x -> skipn i l = x :: skipn (S i) l.
Proof.
  revert i. induction l as [| y l IH]; intros [| i] H; simpl in *;
    try discriminate.
  - congruence.
  - apply IH. exact H.
Qed.

Lemma slice_cons l i j x :
  nth_error l i = Some x -> (i < j)%nat ->
  slice i j l = x :: slice (S i) j l.
Proof.
  intros H L. unfold slice. rewrite (skipn_nth_error _ _ _ H).
  replace (j - i)%nat with (S (j - S i)) by lia. reflexivity.
Qed.

Lemma slice_length l i j :
  (i <= j <= List.length l)%nat -> List.length (slice i j l) = (j - i)%nat.
Proof.
  intros H. unfold slice. rewrite length_firstn, length_skipn. lia.
Qed.

Lemma firstn_plus l a b :
  firstn (a + b) l = (firstn a l ++ firstn b (skipn a l))%list.
Proof.
  revert l. induction a as [| a IH]; intros [| x l]; simpl;
    try reflexivity.
  - rewrite firstn_nil. reflexivity.
  - rewrite IH. reflexivity.
Qed.

Lemma slice_app l i j k :
  (i <= j <= k)%nat -> (slice i j l ++ slice j k l)%list = slice i k l.
Proof.
  intros H. unfold slice.
  replace (k - i)%nat with ((j - i) + (k - j))%nat by lia.
  rewrite firstn_plus, skipn_skipn.
  replace (j - i + i)%nat with j by lia. reflexivity.
Qed.

Lemma slice_In l i j x : In x (slice i j l) -> In x l.
Proof.
  intros H. unfold slice in H.
  rewrite <- (firstn_skipn i l). apply in_or_app. right.
  rewrite <- (firstn_skipn (j - i) (skipn i l)). apply in_or_app. left.
  exact H.
Qed.

Lemma slice_Forall (P : A -> Prop) l i j :
  Forall P l -> Forall P (slice i j l).
Proof.
  rewrite !Forall_forall. intros H x Hx. apply H. eapply slice_In, Hx.
Qed.

Lemma slice_beyond l i j : (List.length l <= i)%nat -> slice i j l = [].
Proof.
  intros H. unfold slice. rewrite skipn_all2 by exact H.
  apply firstn_nil.
Qed.

End Slices.

(** ** The [while] loop of one day *)

Section WhileLoop.

Variable t : TripRequest.
Variable ranked : list Place.

Lemma while_cond_true (st : DayState) :
  while_cond t ranked st = true ->
  exists place,
    nth_error ranked (current_index st) = Some place
    /\ (List.length (day_places st) < target_places_per_day t)%nat
    /\ (current_index st < List.length ranked)%nat
    /\ (day_cost st + estimated_cost place * inject_Z (group_size t)
        <= daily_budget t * (12 # 10))%Q.
Proof.
  unfold while_cond. intros H.
  apply andb_true_iff in H. destruct H as [H C].
  apply andb_true_iff in H. destruct H as [N I].
  destruct (nth_error ranked (current_index st)) as [place |];
    [| discriminate].
  exists place. apply Nat.ltb_lt in N. apply Nat.ltb_lt in I.
  apply Qle_bool_iff in C. auto.
Qed.

Lemma advance_self (st : DayState) :
  advance t ranked st (current_index st) = st.
Proof.
  destruct st as [ps c i]. unfold advance. simpl.
  rewrite slice_nil, app_nil_r. reflexivity.
Qed.

Lemma advance_body (st : DayState) (place : Place) (j : nat) :
  nth_error ranked (current_index st) = Some place ->
  (current_index st < j)%nat ->
  advance t ranked (while_body t ranked st) j = advance t ranked st j.
Proof.
  intros E L. unfold while_body. rewrite E. unfold advance. simpl.
  rewrite Nat.add_1_r, (slice_cons _ _ _ _ E L), <- app_assoc.
  reflexivity.
Qed.

(** With one unit of fuel for each place left, the loop stops because its
    condition fails, and it has held at every cursor position on the
    way. *)
Lemma while_loop_spec (fuel : nat) (st : DayState) :
  (current_index st <= List.length ranked)%nat ->
  (List.length ranked - current_index st <= fuel)%nat ->
  exists j,
    (current_index st <= j <= List.length ranked)%nat
    /\ while_loop t ranked fuel st = advance t ranked st j
    /\ while_cond t ranked (advance t ranked st j) = false
    /\ forall m, (current_index st <= m < j)%nat ->
         while_cond t ranked (advance t ranked st m) = true.
Proof.
  revert st. induction fuel as [| fuel IH]; intros st B F.
  - exists (current_index st). rewrite advance_self. simpl.
    repeat split; try lia.
    unfold while_cond.
    replace (current_index st <? List.length ranked)%nat with false
      by (symmetry; apply Nat.ltb_ge; lia).
    rewrite andb_false_r. reflexivity.
  - simpl. destruct (while_cond t ranked st) eqn:C.
    + destruct (while_cond_true _ C) as [place [E [_ [I _]]]].
      destruct (IH (while_body t ranked st)) as [j [Bj [Ej [Cj Hj]]]].
      * unfold while_body. rewrite E. simpl. lia.
      * unfold while_body. rewrite E. simpl. lia.
      * assert (S_ : current_index (while_body t ranked st)
                     = S (current_index st)).
        { unfold while_body. rewrite E. simpl. lia. }
        rewrite S_ in Bj, Hj.
        exists j. rewrite <- (advance_body st place j E) by lia.
        repeat split; try lia; try assumption.
        intros m Hm.
        destruct (Nat.eq_dec m (current_index st)) as [-> | Nm].
        -- rewrite advance_self. exact C.
        -- rewrite <- (advance_body st place m E) by lia.
           apply Hj. lia.
    + exists (current_index st). rewrite advance_self.
      repeat split; try lia; try assumption.
Qed.

Lemma while_loop_day (i : nat) :
  (i <= List.length ranked)%nat ->
  exists j,
    stops_at t ranked i j
    /\ while_loop t ranked (List.length ranked - i)
         (mkDayState [] (0 + 40 * inject_Z (group_size t))%Q i)
       = state_at t ranked i j.
Proof.
  intros B.
  destruct (while_loop_spec (List.length ranked - i)
              (mkDayState [] (0 + 40 * inject_Z (group_size t))%Q i))
    as [j [Bj [Ej [Cj Hj]]]]; simpl; try lia.
  exists j. split; [| exact Ej].
  split; [exact Bj |]. split; [exact Cj | exact Hj].
Qed.

End WhileLoop.

(** ** Costs *)

Section Costs.

Variable t : TripRequest.

Local Open Scope Q_scope.

Lemma Place_ok_cost (p : Place) : Place_ok p = true -> 0 <= estimated_cost p.
Proof.
  unfold Place_ok. intros H. apply andb_true_iff in H.
  apply Qle_bool_iff. exact (proj1 H).
Qed.

Lemma fold_add_cost (ps : list Place) (c : Q) :
  fold_left (add_cost t) ps c == c + places_cost t ps.
Proof.
  revert c. induction ps as [| p ps IH]; intros c; simpl.
  - ring.
  - rewrite IH. unfold add_cost. ring.
Qed.

Lemma running_cost_sum (ps : list Place) :
  running_cost t ps == 40 * inject_Z (group_size t) + places_cost t ps.
Proof. unfold running_cost. rewrite fold_add_cost. ring. Qed.

Lemma inject_Z_nonneg (z : Z) : (0 <= z)%Z -> 0 <= inject_Z z.
Proof. intros H. unfold Qle, inject_Z. simpl. lia. Qed.

Lemma places_cost_nonneg (ps : list Place) :
  (0 <= group_size t)%Z ->
  Forall (fun p => Place_ok p = true) ps ->
  0 <= places_cost t ps.
Proof.
  intros G H. induction H as [| p ps Hp _ IH]; simpl.
  - apply Qle_refl.
  - apply Place_ok_cost in Hp. apply inject_Z_nonneg in G.
    pose proof (Qmult_le_0_compat _ _ Hp G). lra.
Qed.

(** The cost of a day before rounding is at least the two allowances. *)
Lemma day_cost_lower_bound (ps : list Place) :
  (0 <= group_size t)%Z ->
  Forall (fun p => Place_ok p = true) ps ->
  inject_Z (55 * group_size t)
  <= running_cost t ps + 15 * inject_Z (group_size t).
Proof.
  intros G H. rewrite running_cost_sum.
  pose proof (places_cost_nonneg ps G H).
  rewrite inject_Z_mult. change (inject_Z 55) with 55. lra.
Qed.

End Costs.

(** ** The [for] loop over the days *)

Section ForLoop.

Variable t : TripRequest.
Variable ranked : list Place.
Hypothesis group_nonneg : (0 <= group_size t)%Z.
Hypothesis ranked_ok : Forall (fun p => Place_ok p = true) ranked.

Lemma plan_day_spec (n : Z) (i : nat) :
  (1 <= n)%Z -> (i <= List.length ranked)%nat ->
  exists j,
    stops_at t ranked i j
    /\ plan_day t ranked n i = inr (day_of t ranked n i j, j).
Proof.
  intros N B. destruct (while_loop_day t ranked i B) as [j [S E]].
  exists j. split; [exact S |].
  unfold plan_day. rewrite E. unfold DayPlan_new. cbn [state_at
    Agent.day_places Agent.day_cost Agent.current_index].
  replace (1 <=? n)%Z with true by (symmetry; apply Z.leb_le; exact N).
  cbn [app].
  assert (P : Qle_bool 0
                (Py.round2
                   (running_cost t (slice i j ranked)
                    + 15 * inject_Z (group_size t))) = true).
  { apply Qle_bool_iff, round2_nonneg.
    eapply Qle_trans;
      [| apply day_cost_lower_bound;
         [exact group_nonneg | apply slice_Forall, ranked_ok]].
    apply inject_Z_nonneg. lia. }
  rewrite P. reflexivity.
Qed.

Lemma for_days_spec (ns : list Z) :
  Forall (fun n => (1 <= n)%Z) ns ->
  forall (acc : list DayPlan) (i : nat),
    (i <= List.length ranked)%nat ->
    exists ds k,
      for_days t ranked ns acc i = inr ((acc ++ ds)%list, k)
      /\ days_trace t ranked i ns ds k
      /\ (k <= List.length ranked)%nat.
Proof.
  induction 1 as [| n ns N _ IH]; intros acc i B.
  - exists [], i. simpl. rewrite app_nil_r.
    repeat split; [constructor | exact B].
  - destruct (plan_day_spec n i N B) as [j [S E]].
    destruct (IH (acc ++ [day_of t ranked n i j])%list j)
      as [ds [k [F [T K]]]].
    { destruct S as [S _]. lia. }
    exists (day_of t ranked n i j :: ds), k.
    simpl. rewrite E. simpl. rewrite F, <- app_assoc. simpl.
    repeat split; [| exact K].
    constructor; assumption.
Qed.

Lemma range_from_1 (hi : Z) : Forall (fun n => (1 <= n)%Z) (Py.range 1 hi).
Proof.
  unfold Py.range. apply Forall_forall. intros n H.
  apply in_map_iff in H. destruct H as [k [E _]]. lia.
Qed.

(** The allocation never raises, and its result is a run of the loop that
    starts with the cursor at the front of the ranked list. *)
Lemma daily_plans_spec :
  exists ds k,
    daily_plans t ranked = inr ds
    /\ days_trace t ranked 0 (Py.range 1 (num_days t + 1)) ds k
    /\ (k <= List.length ranked)%nat.
Proof.
  destruct (for_days_spec (Py.range 1 (num_days t + 1)) (range_from_1 _)
              [] 0%nat (Nat.le_0_l _)) as [ds [k [F [T K]]]].
  exists ds, k. unfold daily_plans. rewrite F. simpl. auto.
Qed.

End ForLoop.

(** ** Runs of the [for] loop *)

Section Traces.

Variable t : TripRequest.
Variable ranked : list Place.

Lemma trace_length i ns ds k :
  days_trace t ranked i ns ds k -> List.length ds = List.length ns.
Proof. induction 1; simpl; congruence. Qed.

Lemma trace_cursor i ns ds k : days_trace t ranked i ns ds k -> (i <= k)%nat.
Proof.
  induction 1 as [| i j k n ns ds [B _] _ IH]; lia.
Qed.

(** The places of the days of a run are the slice the cursor went over. *)
Lemma trace_places i ns ds k :
  days_trace t ranked i ns ds k ->
  List.concat (map places ds) = slice i k ranked.
Proof.
  induction 1 as [| i j k n ns ds [B _] T IH]; simpl.
  - symmetry. apply slice_nil.
  - rewrite IH. apply slice_app.
    pose proof (trace_cursor _ _ _ _ T). lia.
Qed.

(** The day at position [m] of a run: its number, and where the cursor
    was before and after it. *)
Lemma trace_nth i ns ds k :
  days_trace t ranked i ns ds k ->
  forall m d, nth_error ds m = Some d ->
    exists n i0 i1,
      nth_error ns m = Some n
      /\ d = day_of t ranked n i0 i1
      /\ stops_at t ranked i0 i1
      /\ (i <= i0)%nat
      /\ List.concat (map places (firstn m ds)) = slice i i0 ranked.
Proof.
  induction 1 as [| i j k n ns ds S T IH]; intros m d H.
  - destruct m; discriminate.
  - destruct m as [| m]; simpl in H.
    + inversion H. subst d. exists n, i, j. simpl.
      split; [reflexivity |]. split; [reflexivity |]. split; [exact S |].
      split; [lia | symmetry; apply slice_nil].
    + destruct (IH m d H) as [n' [i0 [i1 [Hn [Hd [Hs [Hi Hc]]]]]]].
      exists n', i0, i1. simpl. rewrite Hc.
      destruct S as [B S'].
      split; [exact Hn |]. split; [exact Hd |]. split; [exact Hs |].
      split; [lia | apply slice_app; lia].
Qed.

Lemma range_nth (lo hi : Z) (m : nat) (n : Z) :
  nth_error (Py.range lo hi) m = Some n -> n = (lo + Z.of_nat m)%Z.
Proof.
  unfold Py.range. intros H.
  rewrite nth_error_map in H.
  destruct (nth_error (seq 0 (Z.to_nat (hi - lo))) m) as [k |] eqn:E;
    [| discriminate].
  simpl in H. inversion H.
  assert (L : (m < List.length (seq 0 (Z.to_nat (hi - lo))))%nat).
  { apply nth_error_Some. congruence. }
  rewrite (nth_error_nth' _ 0%nat L) in E. rewrite length_seq in L.
  rewrite seq_nth in E by exact L. inversion E. reflexivity.
Qed.

Lemma range_length (lo hi : Z) :
  List.length (Py.range lo hi) = Z.to_nat (hi - lo).
Proof. unfold Py.range. rewrite length_map, length_seq. reflexivity. Qed.

End Traces.

(** ** Sums of day totals *)

Section Sums.

Local Open Scope Q_scope.

Lemma fold_Qplus_comp (qs : list Q) (a b : Q) :
  a == b -> fold_left Qplus qs a == fold_left Qplus qs b.
Proof.
  revert a b. induction qs as [| q qs IH]; intros a b E; simpl.
  - exact E.
  - apply IH. rewrite E. reflexivity.
Qed.

Lemma fold_Qplus_hundredths (qs : list Q) (a : Z) :
  Forall (fun q => exists z, q = z # 100) qs ->
  exists z, fold_left Qplus qs (a # 100) == z # 100.
Proof.
  intros H. revert a. induction H as [| q qs [z ->] _ IH]; intros a; simpl.
  - exists a. reflexivity.
  - destruct (IH (a + z)%Z) as [w E]. exists w. rewrite <- E.
    apply fold_Qplus_comp. unfold Qeq, Qplus. simpl. lia.
Qed.

Lemma sum_hundredths (qs : list Q) :
  Forall (fun q => exists z, q = z # 100) qs ->
  exists z, Py.sum qs == z # 100.
Proof.
  intros H. destruct (fold_Qplus_hundredths qs 0 H) as [z E].
  exists z. rewrite <- E. apply fold_Qplus_comp. reflexivity.
Qed.

Lemma fold_Qplus_nonneg (qs : list Q) (a : Q) :
  Forall (fun q => 0 <= q) qs -> 0 <= a -> 0 <= fold_left Qplus qs a.
Proof.
  intros H. revert a. induction H as [| q qs Hq _ IH]; intros a A; simpl.
  - exact A.
  - apply IH. lra.
Qed.

(** Rounding a number of hundredths to two decimals leaves it as it is. *)
Lemma round2_fixes_hundredths (x : Q) (z : Z) :
  x == z # 100 -> Py.round2 x == x.
Proof.
  intros E. rewrite (round2_comp _ _ E), round2_hundredths.
  symmetry. exact E.
Qed.

End Sums.

(** ** The stable sort *)

Section Sorting.

Context {A : Type}.
Variable key : A -> R.

Local Open Scope R_scope.

Lemma insert_desc_perm (x : A) (l : list A) :
  Permutation (x :: l) (Py.insert_desc key x l).
Proof.
  induction l as [| y l IH]; simpl.
  - apply Permutation_refl.
  - destruct (Rlt_dec (key x) (key y)).
    + eapply perm_trans; [apply perm_swap |].
      apply perm_skip. exact IH.
    + apply Permutation_refl.
Qed.

Lemma sort_desc_perm (l : list A) : Permutation l (Py.sort_desc key l).
Proof.
  induction l as [| x l IH]; simpl.
  - constructor.
  - eapply perm_trans; [| apply insert_desc_perm].
    apply perm_skip. exact IH.
Qed.

Lemma insert_desc_HdRel (a x : A) (l : list A) :
  desc key a x -> HdRel (desc key) a l ->
  HdRel (desc key) a (Py.insert_desc key x l).
Proof.
  intros Hx Hl. destruct l as [| y l]; simpl.
  - constructor. exact Hx.
  - destruct (Rlt_dec (key x) (key y)).
    + constructor. inversion Hl. assumption.
    + constructor. exact Hx.
Qed.

Lemma insert_desc_sorted (x : A) (l : list A) :
  Sorted (desc key) l -> Sorted (desc key) (Py.insert_desc key x l).
Proof.
  induction 1 as [| y l S IH H]; simpl.
  - repeat constructor.
  - destruct (Rlt_dec (key x) (key y)) as [L | L].
    + constructor; [exact IH |].
      apply insert_desc_HdRel; [| exact H].
      unfold desc. lra.
    + constructor; [constructor; assumption |].
      constructor. unfold desc. lra.
Qed.

Lemma sort_desc_sorted (l : list A) : Sorted (desc key) (Py.sort_desc key l).
Proof.
  induction l as [| x l IH]; simpl.
  - constructor.
  - apply insert_desc_sorted. exact IH.
Qed.

(** Inserting does not disturb the elements of any one key. *)
Lemma insert_desc_stable (s : R) (x : A) (l : list A) :
  filter (has_key key s) (Py.insert_desc key x l)
  = filter (has_key key s) (x :: l).
Proof.
  induction l as [| y l IH]; [reflexivity |].
  cbn [Py.insert_desc]. destruct (Rlt_dec (key x) (key y)) as [L | L].
  - cbn [filter] in *. rewrite IH. unfold has_key.
    destruct (Req_dec_T (key x) s); destruct (Req_dec_T (key y) s);
      try reflexivity.
    exfalso. lra.
  - reflexivity.
Qed.

Lemma sort_desc_stable (s : R) (l : list A) :
  filter (has_key key s) (Py.sort_desc key l) = filter (has_key key s) l.
Proof.
  induction l as [| x l IH]; [reflexivity |].
  cbn [Py.sort_desc fold_right]. rewrite insert_desc_stable.
  cbn [filter]. fold (Py.sort_desc key l). rewrite IH. reflexivity.
Qed.

(** Sorting the pairs of an element and its key sorts the elements. *)
Lemma insert_desc_decorated (x : A) (l : list A) :
  Py.insert_desc snd (x, key x) (map (fun a => (a, key a)) l)
  = map (fun a => (a, key a)) (Py.insert_desc key x l).
Proof.
  induction l as [| y l IH]; [reflexivity |]. simpl.
  destruct (Rlt_dec (key x) (key y)); simpl; [rewrite IH |]; reflexivity.
Qed.

Lemma sort_desc_decorated (l : list A) :
  map fst (Py.sort_desc snd (map (fun a => (a, key a)) l))
  = Py.sort_desc key l.
Proof.
  assert (E : Py.sort_desc snd (map (fun a => (a, key a)) l)
              = map (fun a => (a, key a)) (Py.sort_desc key l)).
  { induction l as [| x l IH]; [reflexivity |].
    change (Py.sort_desc snd (map (fun a => (a, key a)) (x :: l)))
      with (Py.insert_desc snd (x, key x)
              (Py.sort_desc snd (map (fun a => (a, key a)) l))).
    rewrite IH. apply insert_desc_decorated. }
  rewrite E, map_map. simpl. apply map_id.
Qed.

End Sorting.

Lemma ranked_places_sort (t : TripRequest) (places : list Place)
    (city_coords : Q * Q) :
  ranked_places t places city_coords
  = Py.sort_desc (simple_score t city_coords) places.
Proof. apply sort_desc_decorated. Qed.

Lemma rank_places_by_relevance_sort (t : TripRequest) (places : list Place)
    (city_coords : Q * Q) :
  rank_places_by_relevance t places city_coords
  = Py.sort_desc (relevance_score t city_coords) places.
Proof. apply sort_desc_decorated. Qed.

(** ** Uniqueness of the stable sort *)

Section StableSortUnique.

Context {A : Type}.
Variable key : A -> R.

Local Open Scope R_scope.

Lemma desc_trans : Relations_1.Transitive (desc key).
Proof. intros a b c H1 H2. unfold desc in *. lra. Qed.

Lemma has_key_true (s : R) (a : A) : has_key key s a = true <-> key a = s.
Proof. unfold has_key. destruct (Req_dec_T (key a) s); split; congruence. Qed.

Lemma sorted_head_max (x : A) (l : list A) :
  Sorted (desc key) (x :: l) -> forall y, In y (x :: l) -> key y <= key x.
Proof.
  intros S y [-> | H]; [lra |].
  apply (Sorted_StronglySorted desc_trans) in S.
  inversion S as [| ? ? _ F]. rewrite Forall_forall in F. exact (F y H).
Qed.

Lemma filter_key_head (x : A) (l l' : list A) :
  filter (has_key key (key x)) (x :: l) = filter (has_key key (key x)) l' ->
  exists y, In y l' /\ key y = key x.
Proof.
  intros E. cbn [filter] in E.
  rewrite (proj2 (has_key_true (key x) x) eq_refl) in E.
  assert (H : In x (filter (has_key key (key x)) l'))
    by (rewrite <- E; left; reflexivity).
  apply filter_In in H. destruct H as [H K].
  exists x. split; [exact H | reflexivity].
Qed.

(** Two lists with non-increasing keys that agree, key by key, on the
    elements of that key are equal: a stable sort by decreasing key has
    only one possible result. *)
Lemma stable_sort_unique (l1 l2 : list A) :
  Sorted (desc key) l1 -> Sorted (desc key) l2 ->
  (forall s, filter (has_key key s) l1 = filter (has_key key s) l2) ->
  l1 = l2.
Proof.
  revert l2. induction l1 as [| x l1 IH]; intros l2 S1 S2 H.
  - destruct l2 as [| y l2]; [reflexivity |].
    specialize (H (key y)). cbn [filter] in H.
    rewrite (proj2 (has_key_true (key y) y) eq_refl) in H. discriminate.
  - destruct l2 as [| y l2].
    + specialize (H (key x)). cbn [filter] in H.
      rewrite (proj2 (has_key_true (key x) x) eq_refl) in H. discriminate.
    + assert (K : key x = key y).
      { destruct (filter_key_head x l1 (y :: l2) (H (key x)))
          as [a [Ha Ka]].
        destruct (filter_key_head y l2 (x :: l1) (eq_sym (H (key y))))
          as [b [Hb Kb]].
        pose proof (sorted_head_max y l2 S2 a Ha).
        pose proof (sorted_head_max x l1 S1 b Hb). lra. }
      assert (E : x = y).
      { specialize (H (key x)). cbn [filter] in H.
        rewrite (proj2 (has_key_true (key x) x) eq_refl) in H.
        rewrite (proj2 (has_key_true (key x) y) (eq_sym K)) in H.
        congruence. }
      subst y. f_equal. apply IH.
      * inversion S1; assumption.
      * inversion S2; assumption.
      * intros s. specialize (H s). cbn [filter] in H.
        destruct (has_key key s x); congruence.
Qed.

(** Whatever algorithm [list.sort] runs, a result that is sorted by
    decreasing key and stable is the one of the insertion sort. *)
Lemma sort_desc_unique (l out : list A) :
  Sorted (desc key) out ->
  (forall s, filter (has_key key s) out = filter (has_key key s) l) ->
  out = Py.sort_desc key l.
Proof.
  intros S H. apply stable_sort_unique.
  - exact S.
  - apply sort_desc_sorted.
  - intros s. rewrite H. symmetry. apply sort_desc_stable.
Qed.

End StableSortUnique.

(** ** The allocator on valid input *)

Lemma museum_trip_valid : TripRequest_valid museum_trip.
Proof.
  unfold TripRequest_valid, museum_trip. simpl.
  split; [lia |]. split; [reflexivity |]. split; [auto | lia].
Defined.

Lemma museum_places_ok :
  Forall (fun p => Place_ok p = true) [city_museum; riverside_park].
Proof. repeat constructor. Defined.

Lemma allocation_run (t : TripRequest) (ranked : list Place) :
  TripRequest_valid t ->
  Forall (fun p => Place_ok p = true) ranked ->
  exists ds k,
    daily_plans t ranked = inr ds
    /\ days_trace t ranked 0 (Py.range 1 (num_days t + 1)) ds k
    /\ (k <= List.length ranked)%nat.
Proof.
  intros [_ [_ [_ G]]] H. apply daily_plans_spec; [lia | exact H].
Qed.

Lemma NoDup_firstn_of {A} (n : nat) (l : list A) :
  NoDup l -> NoDup (firstn n l).
Proof.
  intros H. rewrite <- (firstn_skipn n l) in H.
  exact (NoDup_app_remove_r _ _ H).
Qed.

(** C2: on a valid request, the place lists of the returned day plans,
    concatenated in day order, are a prefix of the ranked list, so that the
    places come in ranked order with none skipped; when the ranked list has
    no repeated place, no place occurs twice, within a day or across
    days. *)
Theorem allocator_prefix (t : TripRequest) (ranked : list Place) :
  TripRequest_valid t ->
  Forall (fun p => Place_ok p = true) ranked ->
  exists ds n,
    daily_plans t ranked = inr ds
    /\ (n <= List.length ranked)%nat
    /\ List.concat (map places ds) = firstn n ranked
    /\ (NoDup ranked -> NoDup (List.concat (map places ds))).
Proof.
  intros V H. destruct (allocation_run t ranked V H) as [ds [k [E [T K]]]].
  exists ds, k. split; [exact E |]. split; [exact K |].
  assert (P : List.concat (map places ds) = firstn k ranked).
  { rewrite (trace_places _ _ _ _ _ _ T). apply slice_0. }
  split; [exact P |].
  intros N. rewrite P. apply NoDup_firstn_of. exact N.
Qed.

Lemma allocator_prefix_witness :
  exists ds n,
    daily_plans museum_trip [city_museum; riverside_park] = inr ds
    /\ (n <= 2)%nat
    /\ List.concat (map places ds) = firstn n [city_museum; riverside_park]
    /\ (NoDup [city_museum; riverside_park] ->
        NoDup (List.concat (map places ds))).
Proof.
  exact (allocator_prefix museum_trip [city_museum; riverside_park]
           museum_trip_valid museum_places_ok).
Defined.

(** C6: on a valid request the allocator returns exactly [num_days] day
    plans; the plan at position [m] has day index [m + 1] and the date
    [start_date + (day_index - 1)]; a day reached once the ranked list is
    used up is still returned, with no place.  When [num_days] is zero or
    negative the allocator returns no day plan, without raising. *)
Theorem allocator_day_count (t : TripRequest) (ranked : list Place) :
  (TripRequest_valid t ->
   Forall (fun p => Place_ok p = true) ranked ->
   exists ds,
     daily_plans t ranked = inr ds
     /\ Z.of_nat (List.length ds) = num_days t
     /\ (forall m d, nth_error ds m = Some d ->
           day_index d = (Z.of_nat m + 1)%Z
           /\ day_date d = (start_date t + (day_index d - 1))%Z)
     /\ (forall m d, nth_error ds m = Some d ->
           (List.length ranked
            <= List.length (List.concat (map places (firstn m ds))))%nat ->
           places d = []))
  /\ ((num_days t <= 0)%Z -> daily_plans t ranked = inr []).
Proof.
  split.
  - intros V H. destruct (allocation_run t ranked V H) as [ds [k [E [T K]]]].
    exists ds. split; [exact E |].
    split.
    { rewrite (trace_length _ _ _ _ _ _ T), range_length.
      destruct V as [D _]. unfold num_days in *. lia. }
    split.
    + intros m d Hd.
      destruct (trace_nth _ _ _ _ _ _ T m d Hd)
        as [n [i0 [i1 [Hn [-> _]]]]].
      apply range_nth in Hn. subst n. unfold day_of.
      cbn [day_index day_date]. split; [lia | reflexivity].
    + intros m d Hd L.
      destruct (trace_nth _ _ _ _ _ _ T m d Hd)
        as [n [i0 [i1 [_ [-> [[B _] [_ C]]]]]]].
      rewrite C, slice_0, length_firstn in L. unfold day_of.
      cbn [places]. apply slice_beyond. lia.
  - intros N. unfold daily_plans, Py.range.
    replace (Z.to_nat (num_days t + 1 - 1)) with 0%nat by lia.
    reflexivity.
Qed.

Lemma allocator_day_count_witness :
  (exists ds,
     daily_plans museum_trip [city_museum; riverside_park] = inr ds
     /\ Z.of_nat (List.length ds) = 2%Z
     /\ (forall m d, nth_error ds m = Some d ->
           day_index d = (Z.of_nat m + 1)%Z
           /\ day_date d = (100 + (day_index d - 1))%Z)
     /\ (forall m d, nth_error ds m = Some d ->
           (2 <= List.length (List.concat (map places (firstn m ds))))%nat ->
           places d = []))
  /\ daily_plans (mkTripRequest "Lyon" 100 100 200 [] "relaxed" 1)
       [city_museum; riverside_park] = inr [].
Proof.
  split.
  - exact (proj1 (allocator_day_count museum_trip
                    [city_museum; riverside_park])
             museum_trip_valid museum_places_ok).
  - apply (proj2 (allocator_day_count
                    (mkTripRequest "Lyon" 100 100 200 [] "relaxed" 1)
                    [city_museum; riverside_park])).
    unfold num_days. simpl. lia.
Defined.

Lemma target_by_pace (t : TripRequest) :
  target_places_per_day t
  = if String.eqb "relaxed" (pace t) then 2%nat
    else if String.eqb "moderate" (pace t) then 3%nat
    else if String.eqb "packed" (pace t) then 5%nat
    else 3%nat.
Proof. reflexivity. Qed.

Lemma trace_In (t : TripRequest) (ranked : list Place) i ns ds k :
  days_trace t ranked i ns ds k ->
  forall d, In d ds -> exists n i0 i1, d = day_of t ranked n i0 i1.
Proof.
  intros T d H. apply In_nth_error in H. destruct H as [m H].
  destruct (trace_nth _ _ _ _ _ _ T m d H) as [n [i0 [i1 [_ [E _]]]]].
  eauto.
Qed.

Lemma day_of_lower_bound (t : TripRequest) (ranked : list Place) n i j :
  (0 <= group_size t)%Z ->
  Forall (fun p => Place_ok p = true) ranked ->
  (55 * inject_Z (group_size t) <= total_cost (day_of t ranked n i j))%Q.
Proof.
  intros G H. unfold day_of. cbn [total_cost].
  assert (E : (55 * inject_Z (group_size t)
               == Py.round2 (inject_Z (55 * group_size t)))%Q).
  { rewrite round2_Z, inject_Z_mult. reflexivity. }
  rewrite E. apply round2_mono, day_cost_lower_bound; [exact G |].
  apply slice_Forall, H.
Qed.



(** ** The itinerary *)


(** On a valid request and valid places, building the itinerary does not
    raise; the total is already a number of hundredths before it is
    rounded. *)
Lemma build_itinerary_spec (t : TripRequest) (ranked : list Place) :
  TripRequest_valid t ->
  Forall (fun p => Place_ok p = true) ranked ->
  exists ds,
    daily_plans t ranked = inr ds
    /\ build_itinerary t ranked
       = inr (mkItinerary t ds
                (Py.round2 (Py.sum (map total_cost ds)))
                (Some (summary_notes t
                         (budget_status (Py.sum (map total_cost ds)) t))))
    /\ (Py.round2 (Py.sum (map total_cost ds))
        == Py.sum (map total_cost ds))%Q.
Proof.
  intros V H. destruct (allocation_run t ranked V H) as [ds [k [E [T K]]]].
  exists ds. split; [exact E |].
  assert (G : (0 <= group_size t)%Z) by (destruct V as [_ [_ [_ G]]]; lia).
  assert (N : (0 <= Py.sum (map total_cost ds))%Q).
  { apply fold_Qplus_nonneg; [| apply Qle_refl].
    apply Forall_map, Forall_forall. intros d Hd.
    destruct (trace_In _ _ _ _ _ _ T d Hd) as [n [i0 [i1 ->]]].
    eapply Qle_trans; [| apply day_of_lower_bound; assumption].
    apply inject_Z_nonneg in G. lra. }
  split.
  - unfold build_itinerary. rewrite E. simpl. unfold Itinerary_new.
    apply round2_nonneg, Qle_bool_iff in N. rewrite N. reflexivity.
  - assert (Hh : exists z, (Py.sum (map total_cost ds) == z # 100)%Q).
    { apply sum_hundredths, Forall_map, Forall_forall. intros d Hd.
      destruct (trace_In _ _ _ _ _ _ T d Hd) as [n [i0 [i1 ->]]].
      unfold day_of, Py.round2. cbn [total_cost]. eauto. }
    destruct Hh as [z Hz]. exact (round2_fixes_hundredths _ _ Hz).
Qed.

Lemma ranked_places_ok (t : TripRequest) (places : list Place)
    (city_coords : Q * Q) :
  Forall (fun p => Place_ok p = true) places ->
  Forall (fun p => Place_ok p = true) (ranked_places t places city_coords).
Proof.
  rewrite !Forall_forall. intros H p Hp. apply H.
  rewrite ranked_places_sort in Hp.
  eapply Permutation_in; [| exact Hp].
  apply Permutation_sym, sort_desc_perm.
Qed.

(** [create_itinerary_simple] does not raise on a valid request and valid
    places: it returns the itinerary of a run of the allocation. *)
Lemma create_itinerary_simple_runs (t : TripRequest) (places : list Place)
    (city_coords : Q * Q) :
  TripRequest_valid t ->
  Forall (fun p => Place_ok p = true) places ->
  exists ds k,
    days_trace t (ranked_places t places city_coords) 0
      (Py.range 1 (num_days t + 1)) ds k
    /\ create_itinerary_simple t places city_coords
       = inr (mkItinerary t ds
                (Py.round2 (Py.sum (map total_cost ds)))
                (Some (summary_notes t
                         (budget_status (Py.sum (map total_cost ds)) t))))
    /\ (Py.round2 (Py.sum (map total_cost ds))
        == Py.sum (map total_cost ds))%Q.
Proof.
  intros V H.
  pose proof (ranked_places_ok t places city_coords H) as R.
  destruct (allocation_run t _ V R) as [ds' [k [E' [T K]]]].
  destruct (build_itinerary_spec t _ V R) as [ds [E [B Rd]]].
  assert (ds' = ds) by congruence. subst ds'.
  exists ds, k. split; [exact T |]. split; [exact B | exact Rd].
Qed.

(** ** The agent tool [allocate_places_to_days] *)

Lemma DayPlan_new_no_date (n : Z) (ps : list Place) (c : Q)
    (notes : option string) :
  exists err, DayPlan_new n None ps c notes = inl err.
Proof. unfold DayPlan_new. eexists. reflexivity. Qed.

(** X11: the agent tool [allocate_places_to_days] builds its day plans
    without the required [day_date], so it raises a validation error
    whenever the request has at least one day; it returns normally, with
    no day plan, only when there is no day. *)
Lemma allocate_places_to_days_raises (t : TripRequest)
    (ranked : list Place) :
  ((1 <= num_days t)%Z ->
   exists err, allocate_places_to_days t ranked = inl err)
  /\ ((num_days t <= 0)%Z -> allocate_places_to_days t ranked = inr []).
Proof.
  unfold allocate_places_to_days, Py.range. split; intros N.
  - destruct (Z.to_nat (num_days t + 1 - 1)) as [| k] eqn:K; [lia |].
    cbn [seq map tool_for_days]. unfold tool_plan_day.
    match goal with
    | |- context [DayPlan_new ?n None ?ps ?c ?notes] =>
        destruct (DayPlan_new_no_date n ps c notes) as [err E]; rewrite E
    end.
    exists err. reflexivity.
  - replace (Z.to_nat (num_days t + 1 - 1)) with 0%nat by lia. reflexivity.
Qed.

(** ** The ranker *)

Lemma Sorted_adjacent {A} (R : A -> A -> Prop) (l : list A) :
  Sorted R l ->
  forall i a b,
    nth_error l i = Some a -> nth_error l (S i) = Some b -> R a b.
Proof.
  induction 1 as [| x l S IH H]; intros i a b Ha Hb.
  - destruct i; discriminate.
  - destruct i as [| i]; simpl in Ha, Hb.
    + inversion Ha. subst x. destruct l as [| y l]; [discriminate |].
      simpl in Hb. inversion Hb. subst y. inversion H. assumption.
    + exact (IH i a b Ha Hb).
Qed.

(** C5: the ranked list is a permutation of the places given to the ranker,
    of the same length; nothing is added, removed or duplicated, and the
    empty list is ranked to the empty list. *)
Theorem ranker_permutation (t : TripRequest) (places : list Place)
    (city_coords : Q * Q) :
  Permutation places (ranked_places t places city_coords)
  /\ List.length (ranked_places t places city_coords) = List.length places
  /\ ranked_places t [] city_coords = [].
Proof.
  assert (P : Permutation places (ranked_places t places city_coords)).
  { rewrite ranked_places_sort. apply sort_desc_perm. }
  split; [exact P |]. split; [| reflexivity].
  symmetry. apply Permutation_length. exact P.
Qed.

(** C4: in the ranked list the score of an element is at least the score
    of the element right after it, and the places of any one score are in
    the order they have in the input. *)
Theorem ranker_sorted_stable (t : TripRequest) (places : list Place)
    (city_coords : Q * Q) :
  let score := simple_score t city_coords in
  let ranked := ranked_places t places city_coords in
  Sorted (desc score) ranked
  /\ (forall i a b,
        nth_error ranked i = Some a -> nth_error ranked (S i) = Some b ->
        (score a >= score b)%R)
  /\ (forall s, filter (has_key score s) ranked
                = filter (has_key score s) places).
Proof.
  intros score ranked. subst ranked. rewrite ranked_places_sort. fold score.
  pose proof (sort_desc_sorted score places) as S.
  split; [exact S |]. split.
  - intros i a b Ha Hb. apply Rle_ge.
    exact (Sorted_adjacent _ _ S i a b Ha Hb).
  - intros s. apply sort_desc_stable.
Qed.

Lemma ranker_sorted_stable_witness :
  let score := simple_score museum_trip (0, 0) in
  let ranked :=
    ranked_places museum_trip [riverside_park; city_museum] (0, 0) in
  Sorted (desc score) ranked
  /\ (forall i a b,
        nth_error ranked i = Some a -> nth_error ranked (S i) = Some b ->
        (score a >= score b)%R)
  /\ (forall s, filter (has_key score s) ranked
                = filter (has_key score s) [riverside_park; city_museum]).
Proof.
  exact (ranker_sorted_stable museum_trip [riverside_park; city_museum]
           (0, 0)).
Defined.

(** *** Proximity *)

Lemma Q2R_frac (a : Z) (b : positive) :
  Q2R (a # b) = (IZR a / IZR (Z.pos b))%R.
Proof. reflexivity. Qed.

Lemma max0_Rmax (x : R) : Py.max0 x = Rmax 0 x.
Proof.
  unfold Py.max0, Rmax.
  destruct (Rlt_dec 0 x); destruct (Rle_dec 0 x); lra.
Qed.

(** The agent tool scores proximity as [max(0, 5 - d / 2)] with [d] the
    haversine distance, hence as 0 from 10 km on. *)
Lemma proximity_score_haversine (city_lat city_lon : Q) (place : Place) :
  let d :=
    calculate_distance city_lat city_lon (latitude place) (longitude place) in
  proximity_score (city_lat, city_lon) place = Rmax 0 (5 - d / 2)
  /\ ((10 <= d)%R -> proximity_score (city_lat, city_lon) place = 0%R).
Proof.
  intros d. unfold proximity_score. fold d. split.
  - apply max0_Rmax.
  - intros H. unfold Py.max0. destruct (Rlt_dec 0 (5 - d / 2)); lra.
Qed.

Lemma north_place_simple : simple_proximity (0, 0) north_place = 0%R.
Proof.
  unfold simple_proximity, north_place. cbn [latitude longitude].
  assert (E : ((5 # 100) - 0) ^ 2 + (0 - 0) ^ 2 == (5 # 100) * (5 # 100))
    by reflexivity.
  rewrite (Qeq_eqR _ _ E), Q2R_mult, sqrt_square.
  - unfold Py.max0. rewrite Q2R_frac. destruct (Rlt_dec _ _); lra.
  - rewrite Q2R_frac. lra.
Qed.

Lemma north_place_haversine :
  calculate_distance 0 0 (5 # 100) 0 = (6371 * (5 / 100 * PI / 180))%R.
Proof.
  unfold calculate_distance, Py.radians.
  assert (E0 : Q2R (0 - 0) = 0%R) by (unfold Q2R; simpl; lra).
  assert (E1 : Q2R ((5 # 100) - 0) = (5 / 100)%R)
    by (unfold Q2R; simpl; lra).
  rewrite E0, E1.
  replace (0 * PI / 180 / 2)%R with 0%R by lra.
  rewrite sin_0.
  pose proof PI_RGT_0 as P0. pose proof PI_4 as P4.
  match goal with
  | |- context [sqrt ?a] =>
      replace a with (sin (5 / 100 * PI / 180 / 2) ^ 2)%R by ring
  end.
  rewrite sqrt_pow2.
  - rewrite asin_sin; lra.
  - apply sin_ge_0; lra.
Qed.

(** C1, on [create_itinerary_simple]: for a place 0.05 degrees north of the
    centre the proximity term of its score is 0, whereas the haversine
    distance [d] of the place is below 10 km and [max(0, 5 - d / 2)], the
    term [rank_places_by_relevance] computes, is positive. *)
Theorem simple_proximity_not_haversine :
  let d :=
    calculate_distance 0 0 (latitude north_place) (longitude north_place) in
  simple_proximity (0, 0) north_place = 0%R
  /\ (d < 10)%R
  /\ (0 < Rmax 0 (5 - d / 2))%R
  /\ proximity_score (0, 0) north_place = Rmax 0 (5 - d / 2)
  /\ simple_proximity (0, 0) north_place <> Rmax 0 (5 - d / 2).
Proof.
  intros d. subst d. cbn [latitude longitude north_place].
  pose proof PI_RGT_0 as P0. pose proof PI_4 as P4.
  pose proof north_place_haversine as Hd.
  pose proof north_place_simple as Hs.
  assert (M : (0 < Rmax 0 (5 - calculate_distance 0 0 (5 # 100) 0 / 2))%R).
  { rewrite Hd. eapply Rlt_le_trans; [| apply Rmax_r]. lra. }
  split; [exact Hs |]. split; [rewrite Hd; lra |]. split; [exact M |].
  split.
  - apply (proximity_score_haversine 0 0 north_place).
  - rewrite Hs. lra.
Qed.

(** ** Validation *)

(** C8, as stated, fails for a pace in upper case: ["PACKED"] is none of
    the three allowed values, and the construction does not raise. *)
Lemma uppercase_pace_accepted :
  ~ ((exists err,
        TripRequest_new "Lyon" 100 102 200 [] "PACKED" 1 = inl err)
     <-> ((102 <= 100)%Z \/ (200 <= 0)%Q \/ (1 <= 0)%Z
          \/ ~ In "PACKED" allowed)).
Proof.
  intros [_ H].
  destruct H as [err E].
  - right. right. right. simpl. intros [E | [E | [E | []]]]; discriminate.
  - discriminate.
Qed.

(** C8, amended: the construction of a [TripRequest] raises a validation
    error exactly when the end date is not after the start date, or the
    budget or the group size is not positive, or the lowercased pace is
    none of relaxed, moderate, packed; and on a request it has built,
    ranking and allocating valid places does not raise. *)
Theorem validation_errors (c : string) (s e : Z) (b : Q) (i : list string)
    (p : string) (g : Z) :
  ((exists err, TripRequest_new c s e b i p g = inl err)
   <-> ((e <= s)%Z \/ (b <= 0)%Q \/ (g <= 0)%Z
        \/ ~ In (Py.lower p) allowed))
  /\ (forall t places city_coords,
        TripRequest_new c s e b i p g = inr t ->
        Forall (fun q => Place_ok q = true) places ->
        exists it, create_itinerary_simple t places city_coords = inr it).
Proof.
  split.
  - split.
    + intros [err E].
      destruct (Z_lt_le_dec s e) as [D | D]; [| auto].
      destruct (Qlt_le_dec 0 b) as [B | B]; [| auto].
      destruct (Z_lt_le_dec 0 g) as [G | G]; [| auto].
      right. right. right. intros P.
      assert (N : TripRequest_new c s e b i p g
                  = inr (mkTripRequest c s e b i (Py.lower p) g)).
      { apply TripRequest_new_inr. auto. }
      congruence.
    + intros H. destruct (TripRequest_new c s e b i p g) as [err | t] eqn:E.
      * exists err. reflexivity.
      * exfalso. apply TripRequest_new_inr in E.
        destruct E as [[D [B [P G]]] _].
        destruct H as [H | [H | [H | H]]];
          [lia | exact (Qlt_not_le _ _ B H) | lia | exact (H P)].
  - intros t places city_coords E H.
    apply TripRequest_new_valid in E.
    destruct (create_itinerary_simple_runs t places city_coords E H)
      as [ds [k [_ [I _]]]].
    eexists. exact I.
Qed.

Lemma validation_errors_witness :
  ((exists err,
      TripRequest_new "Lyon" 100 102 200 ["museums"] "Relaxed" 1 = inl err)
   <-> ((102 <= 100)%Z \/ (200 <= 0)%Q \/ (1 <= 0)%Z
        \/ ~ In (Py.lower "Relaxed") allowed))
  /\ exists it,
       create_itinerary_simple museum_trip [city_museum; riverside_park]
         (0, 0) = inr it.
Proof.
  split.
  - exact (proj1 (validation_errors "Lyon" 100 102 200 ["museums"]
                    "Relaxed" 1)).
  - apply (proj2 (validation_errors "Lyon" 100 102 200 ["museums"]
                    "Relaxed" 1) museum_trip [city_museum; riverside_park]
             (0, 0)).
    + reflexivity.
    + exact museum_places_ok.
Defined.



(** ** The example scenarios, run *)

(** A daily budget of 50 for a group of 2: the meals alone (80) exceed
    [50 * 1.2], so each day has no place and costs 80 + 30. *)
Example scenario_meals_over_budget :
  match daily_plans (mkTripRequest "Lyon" 100 102 100 [] "moderate" 2)
          [city_museum; riverside_park] with
  | inr ds => map (fun d => (List.length (places d), total_cost d)) ds
  | inl _ => []
  end = [(0%nat, 11000 # 100); (0%nat, 11000 # 100)].
Proof. vm_compute. reflexivity. Qed.

(** Three packed days over twenty free places: five places a day, the last
    five are left out. *)
Example scenario_packed_days :
  match daily_plans (mkTripRequest "Lyon" 100 103 900 [] "packed" 1)
          (repeat riverside_park 20) with
  | inr ds =>
      map (fun d => (day_index d, day_date d, List.length (places d))) ds
  | inl _ => []
  end = [(1, 100, 5%nat); (2, 101, 5%nat); (3, 102, 5%nat)]%Z.
Proof. vm_compute. reflexivity. Qed.

(** A place the day cannot afford blocks the cheaper place behind it, on
    that day and on the next. *)
Example scenario_no_skipping :
  match daily_plans (mkTripRequest "Lyon" 100 102 200 [] "relaxed" 1)
          [mkPlace "Opera" "theatre" 0 0 90 None None None 120 None;
           riverside_park] with
  | inr ds => map (fun d => (List.length (places d), total_cost d)) ds
  | inl _ => []
  end = [(0%nat, 5500 # 100); (0%nat, 5500 # 100)].
Proof. vm_compute. reflexivity. Qed.

(** The itinerary of the first scenario. *)
Example scenario_museum_itinerary :
  match build_itinerary museum_trip [city_museum; riverside_park] with
  | inr it =>
      (map (fun d => map name (places d)) (days it),
       itinerary_total_cost it, itinerary_notes it)
  | inl _ => ([], 0%Q, None)
  end
  = ([["City Museum"; "Riverside Park"]; []], 12500 # 100,
     Some (summary_notes museum_trip "within budget")).
Proof. vm_compute. reflexivity. Qed.

(** Every failing field is reported. *)
Example scenario_invalid_request :
  match TripRequest_new "Lyon" 100 100 0 [] "fast" 0 with
  | inl errors => map loc errors
  | inr _ => []
  end = ["end_date"; "budget"; "pace"; "group_size"].
Proof. reflexivity. Qed.

(** ** More on the allocation of [create_itinerary_simple] *)

Lemma target_at_most_5 (t : TripRequest) :
  (2 <= target_places_per_day t <= 5)%nat.
Proof.
  rewrite target_by_pace.
  destruct (String.eqb "relaxed" (pace t)); [lia |].
  destruct (String.eqb "moderate" (pace t)); [lia |].
  destruct (String.eqb "packed" (pace t)); lia.
Qed.

Lemma slice_snoc {A} (l : list A) (i j : nat) (x : A) :
  (i <= j)%nat -> nth_error l j = Some x ->
  slice i (S j) l = (slice i j l ++ [x])%list.
Proof.
  intros L H. rewrite <- (slice_app l i j (S j)) by lia.
  rewrite (slice_cons l j (S j) x H) by lia. rewrite slice_nil.
  reflexivity.
Qed.

Section DayBounds.

Variable t : TripRequest.
Variable ranked : list Place.

(** A day never takes more places than the pace target. *)
Lemma stops_at_count (i j : nat) :
  stops_at t ranked i j -> (j - i <= target_places_per_day t)%nat.
Proof.
  intros [B [_ Go]].
  destruct (Nat.eq_dec i j) as [-> | N]; [lia |].
  destruct (while_cond_true _ _ _ (Go (j - 1)%nat ltac:(lia)))
    as [_ [_ [C _]]].
  unfold state_at in C. cbn [day_places] in C.
  rewrite slice_length in C by lia. lia.
Qed.

(** The running cost of a day that has a place is within the ceiling. *)
Lemma stops_at_ceiling (i j : nat) :
  stops_at t ranked i j -> (i < j)%nat ->
  (running_cost t (slice i j ranked) <= daily_budget t * (12 # 10))%Q.
Proof.
  intros [B [_ Go]] L.
  destruct (while_cond_true _ _ _ (Go (j - 1)%nat ltac:(lia)))
    as [place [E [_ [_ C]]]].
  unfold state_at in E, C. cbn [current_index day_cost] in E, C.
  replace j with (S (j - 1)) at 1 by lia.
  rewrite (slice_snoc ranked i (j - 1) place) by (try lia; exact E).
  unfold running_cost in *. rewrite fold_left_app. exact C.
Qed.

(** A day that starts where the loop cannot take a place stays empty. *)
Lemma stops_at_blocked (i j : nat) :
  while_cond t ranked (state_at t ranked i i) = false ->
  stops_at t ranked i j -> j = i.
Proof.
  intros F [B [_ Go]].
  destruct (Nat.eq_dec i j) as [E | N]; [auto |].
  rewrite (Go i ltac:(lia)) in F. discriminate.
Qed.

Lemma trace_blocked i ns ds k :
  days_trace t ranked i ns ds k ->
  while_cond t ranked (state_at t ranked i i) = false ->
  Forall (fun d => places d = []) ds.
Proof.
  induction 1 as [| i j k n ns ds S T IH]; intros F; constructor.
  - rewrite (stops_at_blocked i j F S). unfold day_of. cbn [places].
    apply slice_nil.
  - apply IH. rewrite (stops_at_blocked i j F S). exact F.
Qed.

Lemma trace_empty_day i ns ds k :
  days_trace t ranked i ns ds k ->
  forall m m' d d',
    nth_error ds m = Some d -> nth_error ds m' = Some d' ->
    (m <= m')%nat -> places d = [] -> places d' = [].
Proof.
  induction 1 as [| i j k n ns ds S T IH]; intros m m' d d' Hd Hd' L E.
  - destruct m; discriminate.
  - destruct m as [| m]; destruct m' as [| m']; simpl in Hd, Hd'; try lia.
    + congruence.
    + inversion Hd. subst d. unfold day_of in E. cbn [places] in E.
      assert (J : j = i).
      { destruct S as [B _]. apply (f_equal (@List.length Place)) in E.
        rewrite slice_length in E by exact B. simpl in E. lia. }
      subst j. destruct S as [_ [F _]].
      pose proof (trace_blocked _ _ _ _ T F) as All.
      rewrite Forall_forall in All. apply All.
      eapply nth_error_In. exact Hd'.
    + apply (IH m m' d d' Hd Hd'); [lia | exact E].
Qed.

Lemma trace_day_bounds i ns ds k :
  days_trace t ranked i ns ds k ->
  forall d, In d ds ->
    (place_count d <= target_places_per_day t)%nat
    /\ (places d <> [] ->
        (running_cost t (places d) <= daily_budget t * (12 # 10))%Q).
Proof.
  induction 1 as [| i j k n ns ds S T IH]; intros d H.
  - destruct H.
  - destruct H as [<- | H]; [| exact (IH d H)].
    unfold place_count, day_of. cbn [places].
    pose proof S as [B _]. rewrite (slice_length _ _ _ B). split.
    + exact (stops_at_count i j S).
    + intros N. apply stops_at_ceiling; [exact S |].
      destruct (Nat.eq_dec i j) as [-> | Nj]; [| lia].
      rewrite slice_nil in N. congruence.
Qed.

Lemma total_places_concat (ds : list DayPlan) (a : nat) :
  fold_left Nat.add (map place_count ds) a
  = (a + List.length (List.concat (map places ds)))%nat.
Proof.
  revert a. induction ds as [| d ds IH]; intros a; simpl.
  - lia.
  - rewrite IH, length_app. unfold place_count. lia.
Qed.

Lemma fold_add_bound (ds : list DayPlan) (c a : nat) :
  Forall (fun d => (place_count d <= c)%nat) ds ->
  (fold_left Nat.add (map place_count ds) a <= a + c * List.length ds)%nat.
Proof.
  intros H. revert a. induction H as [| d ds Hd _ IH]; intros a; simpl.
  - lia.
  - specialize (IH (a + place_count d)%nat). lia.
Qed.

End DayBounds.


(** X1: on a valid request no day of the itinerary has more places than the
    pace target, which is at most 5; the itinerary places at most as many
    places as it was given and at most target times the number of days. *)
Theorem itinerary_place_counts (t : TripRequest) (places : list Place)
    (city_coords : Q * Q) :
  TripRequest_valid t ->
  Forall (fun p => Place_ok p = true) places ->
  exists it,
    create_itinerary_simple t places city_coords = inr it
    /\ (forall d, In d (days it) ->
          (place_count d <= target_places_per_day t <= 5)%nat)
    /\ (total_places it <= List.length places)%nat
    /\ (total_places it
        <= target_places_per_day t * itinerary_num_days it)%nat.
Proof.
  intros V H.
  destruct (create_itinerary_simple_runs t places city_coords V H)
    as [ds [k [T [B _]]]].
  eexists. split; [exact B |].
  unfold total_places, itinerary_num_days. cbn [days].
  assert (C : forall d, In d ds ->
                (place_count d <= target_places_per_day t)%nat).
  { intros d Hd. exact (proj1 (trace_day_bounds _ _ _ _ _ _ T d Hd)). }
  split; [| split].
  - intros d Hd. pose proof (target_at_most_5 t). split; [auto | lia].
  - rewrite total_places_concat, (trace_places _ _ _ _ _ _ T), slice_0.
    rewrite length_firstn.
    assert (L : List.length (ranked_places t places city_coords)
                = List.length places).
    { rewrite ranked_places_sort. symmetry.
      apply Permutation_length, sort_desc_perm. }
    lia.
  - pose proof (fold_add_bound ds (target_places_per_day t) 0) as F.
    rewrite Forall_forall in F. specialize (F C). lia.
Qed.

Lemma itinerary_place_counts_witness :
  exists it,
    create_itinerary_simple museum_trip [city_museum; riverside_park] (0, 0)
    = inr it
    /\ (forall d, In d (days it) ->
          (place_count d <= target_places_per_day museum_trip <= 5)%nat)
    /\ (total_places it <= 2)%nat
    /\ (total_places it
        <= target_places_per_day museum_trip * itinerary_num_days it)%nat.
Proof.
  exact (itinerary_place_counts museum_trip [city_museum; riverside_park]
           (0, 0) museum_trip_valid museum_places_ok).
Defined.

(** X3: on a valid request, once a day of the itinerary has no place, no
    later day has one: the place that did not fit the empty day blocks the
    rest of the ranked list. *)
Theorem itinerary_blocked_queue (t : TripRequest) (places : list Place)
    (city_coords : Q * Q) :
  TripRequest_valid t ->
  Forall (fun p => Place_ok p = true) places ->
  exists it,
    create_itinerary_simple t places city_coords = inr it
    /\ forall m m' d d',
         nth_error (days it) m = Some d ->
         nth_error (days it) m' = Some d' ->
         (m <= m')%nat -> Models.places d = [] -> Models.places d' = [].
Proof.
  intros V H.
  destruct (create_itinerary_simple_runs t places city_coords V H)
    as [ds [k [T [B _]]]].
  eexists. split; [exact B |]. cbn [days].
  exact (trace_empty_day _ _ _ _ _ _ T).
Qed.

Lemma itinerary_blocked_queue_witness :
  exists it,
    create_itinerary_simple museum_trip [city_museum; riverside_park] (0, 0)
    = inr it
    /\ forall m m' d d',
         nth_error (days it) m = Some d ->
         nth_error (days it) m' = Some d' ->
         (m <= m')%nat -> Models.places d = [] -> Models.places d' = [].
Proof.
  exact (itinerary_blocked_queue museum_trip [city_museum; riverside_park]
           (0, 0) museum_trip_valid museum_places_ok).
Defined.





(** ** More on the rankers *)

(** X7: the agent tool [rank_places_by_relevance] returns a permutation of
    the places it is given, in non-increasing order of its relevance
    score, the places of any one score in the order they came in. *)
Theorem tool_ranker_sorts (t : TripRequest) (places : list Place)
    (city_coords : Q * Q) :
  let score := relevance_score t city_coords in
  let ranked := rank_places_by_relevance t places city_coords in
  Permutation places ranked
  /\ List.length ranked = List.length places
  /\ Sorted (desc score) ranked
  /\ (forall s, filter (has_key score s) ranked
                = filter (has_key score s) places).
Proof.
  intros score ranked. subst ranked.
  rewrite rank_places_by_relevance_sort. fold score.
  pose proof (sort_desc_perm score places) as P.
  split; [exact P |].
  split; [symmetry; apply Permutation_length; exact P |].
  split; [apply sort_desc_sorted | intros s; apply sort_desc_stable].
Qed.

(** X8: ranking is idempotent: a list that either ranker has produced is
    left as it is by ranking it again with the same request and centre. *)
Theorem ranking_idempotent (t : TripRequest) (places : list Place)
    (city_coords : Q * Q) :
  ranked_places t (ranked_places t places city_coords) city_coords
  = ranked_places t places city_coords
  /\ rank_places_by_relevance t
       (rank_places_by_relevance t places city_coords) city_coords
     = rank_places_by_relevance t places city_coords.
Proof.
  rewrite !ranked_places_sort, !rank_places_by_relevance_sort.
  split; symmetry; apply sort_desc_unique;
    try apply sort_desc_sorted; reflexivity.
Qed.

Section Scores.

Local Open Scope R_scope.

Lemma max0_bounds (x : R) : x <= 5 -> 0 <= Py.max0 x <= 5.
Proof. intros H. unfold Py.max0. destruct (Rlt_dec 0 x); lra. Qed.

Lemma asin_nonneg (x : R) : 0 <= x -> 0 <= asin x.
Proof.
  intros H. pose proof PI_RGT_0 as P. unfold asin.
  destruct (Rle_dec x (-1)); [lra |].
  destruct (Rle_dec 1 x); [lra |].
  assert (S : 0 < sqrt (1 - x²)).
  { apply sqrt_lt_R0. unfold Rsqr. nra. }
  assert (D : 0 <= x / sqrt (1 - x²)).
  { apply Rmult_le_pos; [exact H |]. apply Rlt_le, Rinv_0_lt_compat, S. }
  destruct D as [D | D].
  - apply Rlt_le. rewrite <- atan_0. apply atan_increasing. exact D.
  - rewrite <- D, atan_0. lra.
Qed.

Lemma interest_score_bounds (interests : list string) (place : Place)
    (score : R) :
  score <= interest_score interests place score
  <= score + 5 * INR (List.length interests).
Proof.
  unfold interest_score. revert score.
  induction interests as [| i rest IH]; intros score.
  - simpl. lra.
  - cbn [fold_left List.length]. rewrite S_INR.
    destruct (interest_matches i place).
    + specialize (IH (score + 5)). lra.
    + specialize (IH score). lra.
Qed.

Lemma rating_score_bounds (place : Place) (score : R) :
  Place_ok place = true ->
  score <= rating_score place score <= score + 5.
Proof.
  unfold Place_ok, rating_score. intros H.
  apply andb_true_iff in H. destruct H as [_ H].
  destruct (rating place) as [r |]; [| lra].
  apply andb_true_iff in H. destruct H as [H0 H5].
  apply Qle_bool_iff, Qle_Rle in H0. apply Qle_bool_iff, Qle_Rle in H5.
  rewrite RMicromega.Q2R_0 in H0.
  replace (Q2R 5) with 5 in H5 by (unfold Q2R; simpl; lra).
  destruct (Qeq_bool r 0); lra.
Qed.

Lemma budget_score_bounds (t : TripRequest) (place : Place) (score : R) :
  score <= budget_score t place score <= score + 2.
Proof.
  unfold budget_score.
  destruct (Py.Qlt_bool (estimated_cost place) (daily_budget t / 3)); lra.
Qed.

Lemma simple_proximity_bounds (city_coords : Q * Q) (place : Place) :
  0 <= simple_proximity city_coords place <= 5.
Proof.
  destruct city_coords as [city_lat city_lon]. unfold simple_proximity.
  apply max0_bounds.
  match goal with |- context [sqrt ?a] => pose proof (sqrt_pos a) end.
  lra.
Qed.

Lemma calculate_distance_nonneg (lat1 lon1 lat2 lon2 : Q) :
  0 <= calculate_distance lat1 lon1 lat2 lon2.
Proof.
  unfold calculate_distance.
  match goal with |- context [sqrt ?a] =>
    pose proof (asin_nonneg (sqrt a) (sqrt_pos a)) end.
  lra.
Qed.

Lemma proximity_score_bounds (city_coords : Q * Q) (place : Place) :
  0 <= proximity_score city_coords place <= 5.
Proof.
  destruct city_coords as [city_lat city_lon]. unfold proximity_score.
  apply max0_bounds.
  pose proof (calculate_distance_nonneg city_lat city_lon (latitude place)
                (longitude place)).
  lra.
Qed.

End Scores.

(** X9: the score either ranker gives a valid place lies between 0 and
    [5 * len(interests) + 12]: at most 5 for each interest, 5 for
    proximity, 5 for the rating and 2 for the budget bonus. *)
Theorem score_bounds (t : TripRequest) (city_coords : Q * Q)
    (place : Place) :
  Place_ok place = true ->
  (0 <= simple_score t city_coords place
   <= 5 * INR (List.length (interests t)) + 12)%R
  /\ (0 <= relevance_score t city_coords place
      <= 5 * INR (List.length (interests t)) + 12)%R.
Proof.
  intros H. unfold simple_score, relevance_score.
  pose proof (interest_score_bounds (interests t) place 0) as I.
  pose proof (simple_proximity_bounds city_coords place) as S.
  pose proof (proximity_score_bounds city_coords place) as P.
  split.
  - pose proof (rating_score_bounds place
                  (interest_score (interests t) place 0
                   + simple_proximity city_coords place) H) as Rt.
    pose proof (budget_score_bounds t place
                  (rating_score place
                     (interest_score (interests t) place 0
                      + simple_proximity city_coords place))) as Bs.
    lra.
  - pose proof (rating_score_bounds place
                  (interest_score (interests t) place 0
                   + proximity_score city_coords place) H) as Rt.
    pose proof (budget_score_bounds t place
                  (rating_score place
                     (interest_score (interests t) place 0
                      + proximity_score city_coords place))) as Bs.
    lra.
Qed.

Lemma score_bounds_witness :
  (0 <= simple_score museum_trip (0%Q, 0%Q) city_museum
   <= 5 * INR (List.length (interests museum_trip)) + 12)%R
  /\ (0 <= relevance_score museum_trip (0%Q, 0%Q) city_museum
      <= 5 * INR (List.length (interests museum_trip)) + 12)%R.
Proof.
  apply (score_bounds museum_trip (0, 0) city_museum). reflexivity.
Defined.

(** X10: the haversine distance of [calculate_distance] does not depend on
    the order of the two points, is 0 from a point to itself, and lies
    between 0 and half the circumference of the Earth, [6371 * pi] km. *)
Theorem calculate_distance_metric (lat1 lon1 lat2 lon2 : Q) :
  calculate_distance lat1 lon1 lat2 lon2
  = calculate_distance lat2 lon2 lat1 lon1
  /\ calculate_distance lat1 lon1 lat1 lon1 = 0%R
  /\ (0 <= calculate_distance lat1 lon1 lat2 lon2 <= 6371 * PI)%R.
Proof.
  split; [| split].
  - unfold calculate_distance, Py.radians.
    assert (Ea : Q2R (lat1 - lat2) = (- Q2R (lat2 - lat1))%R)
      by (rewrite !Q2R_minus; lra).
    assert (Eo : Q2R (lon1 - lon2) = (- Q2R (lon2 - lon1))%R)
      by (rewrite !Q2R_minus; lra).
    rewrite Ea, Eo.
    replace (- Q2R (lat2 - lat1) * PI / 180 / 2)%R
      with (- (Q2R (lat2 - lat1) * PI / 180 / 2))%R by lra.
    replace (- Q2R (lon2 - lon1) * PI / 180 / 2)%R
      with (- (Q2R (lon2 - lon1) * PI / 180 / 2))%R by lra.
    rewrite !sin_neg.
    match goal with
    | |- (_ * (2 * asin (sqrt ?a)) = _ * (2 * asin (sqrt ?b)))%R =>
        replace b with a by ring
    end.
    reflexivity.
  - unfold calculate_distance, Py.radians.
    assert (Ea : Q2R (lat1 - lat1) = 0%R) by (rewrite Q2R_minus; lra).
    assert (Eo : Q2R (lon1 - lon1) = 0%R) by (rewrite Q2R_minus; lra).
    rewrite Ea, Eo.
    replace (0 * PI / 180 / 2)%R with 0%R by lra.
    rewrite sin_0.
    match goal with
    | |- context [sqrt ?a] => replace a with 0%R by ring
    end.
    rewrite sqrt_0, asin_0. lra.
  - split; [apply calculate_distance_nonneg |].
    unfold calculate_distance.
    match goal with
    | |- context [asin ?x] => pose proof (asin_bound x)
    end.
    lra.
Qed.

Lemma allocate_places_to_days_raises_witness :
  (exists err,
     allocate_places_to_days museum_trip [city_museum; riverside_park]
     = inl err)
  /\ allocate_places_to_days
       (mkTripRequest "Lyon" 100 100 200 [] "relaxed" 1)
       [city_museum; riverside_park] = inr [].
Proof.
  split.
  - apply (proj1 (allocate_places_to_days_raises museum_trip
                    [city_museum; riverside_park])).
    unfold num_days. simpl. lia.
  - apply (proj2 (allocate_places_to_days_raises
                    (mkTripRequest "Lyon" 100 100 200 [] "relaxed" 1)
                    [city_museum; riverside_park])).
    unfold num_days. simpl. lia.
Defined.

(** ** The Overpass client *)

Lemma first_key_in_Forall {V} (P : V -> Prop) (d : list (string * V))
    (text : string) (otherwise : V) :
  Forall P (map snd d) -> P otherwise -> P (first_key_in d text otherwise).
Proof.
  intros H O. induction d as [| [key value] d IH]; simpl; [exact O |].
  inversion H; subst. destruct (Py.str_in key text); auto.
Qed.

Lemma estimate_cost_bounds (category : string)
    (tags : list (string * string)) :
  (0 <= _estimate_cost category tags <= 25)%Q.
Proof.
  unfold _estimate_cost.
  destruct (String.eqb _ "no"); [split; discriminate |].
  apply (first_key_in_Forall (fun v => (0 <= v <= 25)%Q));
    [| split; discriminate].
  unfold cost_map. cbn [map snd].
  repeat (apply Forall_cons; [split; discriminate |]). apply Forall_nil.
Qed.

Lemma estimate_time_bounds (category : string) :
  (30 <= _estimate_time category <= 120)%Z.
Proof.
  unfold _estimate_time.
  apply (first_key_in_Forall (fun v => (30 <= v <= 120)%Z)); [| lia].
  unfold time_map. cbn [map snd].
  repeat (apply Forall_cons; [lia |]). apply Forall_nil.
Qed.

(** X13: whatever the category and the tags, the estimated cost of a place
    lies between 0 and 25 and its estimated time between 30 and 120
    minutes; a [fee] tag that reads "no" in any letter case makes the
    place free. *)
Theorem estimates_bounds (category : string)
    (tags : list (string * string)) :
  (0 <= _estimate_cost category tags <= 25)%Q
  /\ (30 <= _estimate_time category <= 120)%Z
  /\ (forall fee, dict_lookup tags "fee" = Some fee ->
        Py.lower fee = "no" -> _estimate_cost category tags = 0%Q).
Proof.
  split; [apply estimate_cost_bounds |].
  split; [apply estimate_time_bounds |].
  intros fee L E. unfold _estimate_cost. rewrite L, E. reflexivity.
Qed.

Lemma estimates_bounds_witness :
  (0 <= _estimate_cost "museum" [("fee", "No")] <= 25)%Q
  /\ (30 <= _estimate_time "museum" <= 120)%Z
  /\ _estimate_cost "museum" [("fee", "No")] = 0%Q.
Proof.
  destruct (estimates_bounds "museum" [("fee", "No")]) as [C [T F]].
  split; [exact C |]. split; [exact T |].
  apply (F "No"); reflexivity.
Defined.

Lemma Place_new_ok (n c : string) (lat lon cost : Q)
    (h d : option string) (tm : Z) (a : option string) :
  (0 <= cost)%Q ->
  Place_new n c lat lon cost h d None tm a
  = inr (mkPlace n c lat lon cost h d None tm a).
Proof.
  intros H. unfold Place_new. apply Qle_bool_iff in H. rewrite H.
  reflexivity.
Qed.

(** [_parse_element] builds a place exactly from an element that has a
    name and coordinates: the construction of the place does not fail. *)
Lemma parse_element_eq (element : Element) :
  _parse_element element
  = match element_name element, element_coords element with
    | Some n, Some (lat, lon) =>
        let tags :=
          match el_tags element with
          | Some d => d
          | None => []
          end in
        let category := _determine_category tags in
        Some (mkPlace n category lat lon (_estimate_cost category tags)
                (dict_lookup tags "opening_hours")
                (py_or (dict_lookup tags "description")
                   (dict_lookup tags "wikipedia"))
                None (_estimate_time category)
                (dict_lookup tags "addr:street"))
    | _, _ => None
    end.
Proof.
  unfold _parse_element, element_name, element_coords.
  set (tags := match el_tags element with Some d => d | None => [] end).
  destruct (truthy (dict_lookup tags "name")) eqn:T0; cbn [negb].
  - rewrite T0. destruct (dict_lookup tags "name") as [n |];
      [| discriminate]. cbn [negb].
    destruct (if match el_type element with
                 | Some ty => String.eqb ty "node"
                 | None => false
                 end
              then Some (el_lat element, el_lon element)
              else match el_center element with
                   | Some center =>
                       Some (center_lat center, center_lon center)
                   | None => None
                   end) as [[[lat |] [lon |]] |]; try reflexivity.
    rewrite Place_new_ok by apply estimate_cost_bounds. reflexivity.
  - set (alt := py_or (dict_lookup tags "name:en")
                  (dict_lookup tags "official_name")).
    destruct (truthy alt) eqn:T1.
    + destruct alt as [n |]; [| discriminate]. cbn [negb].
      destruct (if match el_type element with
                   | Some ty => String.eqb ty "node"
                   | None => false
                   end
                then Some (el_lat element, el_lon element)
                else match el_center element with
                     | Some center =>
                         Some (center_lat center, center_lon center)
                     | None => None
                     end) as [[[lat |] [lon |]] |]; try reflexivity.
      rewrite Place_new_ok by apply estimate_cost_bounds. reflexivity.
    + destruct alt as [n |]; reflexivity.
Qed.

Lemma element_name_nonempty (element : Element) (n : string) :
  element_name element = Some n -> n <> EmptyString.
Proof.
  unfold element_name.
  match goal with
  | |- (if truthy ?x then _ else _) = _ -> _ =>
      destruct x as [m |] eqn:E; cbn [truthy]
  end; [| discriminate].
  destruct (String.eqb_spec m EmptyString) as [-> | N]; cbn [negb];
    [discriminate |].
  intros H. inversion H. subst. exact N.
Qed.

(** The place [_parse_element] gives. *)
Lemma parse_element_some (element : Element) (p : Place) :
  _parse_element element = Some p ->
  Place_ok p = true
  /\ rating p = None
  /\ element_name element = Some (name p)
  /\ name p <> EmptyString
  /\ element_coords element = Some (coordinates p)
  /\ (0 <= estimated_cost p <= 25)%Q
  /\ (30 <= time_needed p <= 120)%Z.
Proof.
  rewrite parse_element_eq. intros H.
  destruct (element_name element) as [n |] eqn:En; [| discriminate].
  destruct (element_coords element) as [[lat lon] |]; [| discriminate].
  cbv zeta in H. inversion H. clear H.
  unfold Place_ok, coordinates.
  cbn [estimated_cost rating name latitude longitude time_needed].
  pose proof (estimate_cost_bounds
                (_determine_category
                   match el_tags element with
                   | Some d => d
                   | None => []
                   end)
                match el_tags element with
                | Some d => d
                | None => []
                end) as C.
  split.
  { rewrite andb_true_r. apply Qle_bool_iff. exact (proj1 C). }
  split; [reflexivity |]. split; [reflexivity |].
  split; [exact (element_name_nonempty element n En) |].
  split; [reflexivity |]. split; [exact C |].
  apply estimate_time_bounds.
Qed.

(** X14: [_parse_element] gives no place exactly when the element has no
    non-empty name ([name], [name:en], [official_name]) or lacks a
    coordinate; the place it gives otherwise carries that name and those
    coordinates, has no rating, a cost between 0 and 25 and a time between
    30 and 120 minutes, and meets the constraints of [Place]. *)
Theorem parse_element_spec (element : Element) :
  (_parse_element element = None
   <-> element_name element = None \/ element_coords element = None)
  /\ (forall p, _parse_element element = Some p ->
        Place_ok p = true
        /\ rating p = None
        /\ element_name element = Some (name p)
        /\ name p <> EmptyString
        /\ element_coords element = Some (coordinates p)
        /\ (0 <= estimated_cost p <= 25)%Q
        /\ (30 <= time_needed p <= 120)%Z).
Proof.
  split; [| exact (parse_element_some element)].
  rewrite parse_element_eq.
  destruct (element_name element) as [n |];
    destruct (element_coords element) as [[lat lon] |]; cbv zeta;
    split; intros H; auto; try discriminate;
    destruct H; discriminate.
Qed.

Lemma parse_element_spec_witness :
  (_parse_element broken_element = None
   <-> element_name broken_element = None
       \/ element_coords broken_element = None)
  /\ exists p,
       _parse_element louvre_element = Some p
       /\ Place_ok p = true
       /\ rating p = None
       /\ element_name louvre_element = Some (name p)
       /\ name p <> EmptyString
       /\ element_coords louvre_element = Some (coordinates p)
       /\ (0 <= estimated_cost p <= 25)%Q
       /\ (30 <= time_needed p <= 120)%Z.
Proof.
  split.
  - exact (proj1 (parse_element_spec broken_element)).
  - eexists. split; [reflexivity |].
    apply (proj2 (parse_element_spec louvre_element)). reflexivity.
Defined.

(** The loop over the elements keeps the places in the order of the
    elements. *)
Lemma parse_elements_flat_map (elements : list Element) (limit : Z) :
  parse_elements elements limit
  = flat_map
      (fun element =>
         match _parse_element element with
         | Some place => [place]
         | None => []
         end)
      (take limit elements).
Proof.
  unfold parse_elements.
  assert (G : forall els acc,
             fold_left
               (fun places element =>
                  match _parse_element element with
                  | Some place => (places ++ [place])%list
                  | None => places
                  end) els acc
             = (acc ++ flat_map
                         (fun element =>
                            match _parse_element element with
                            | Some place => [place]
                            | None => []
                            end) els)%list).
  { induction els as [| el els IH]; intros acc; simpl.
    - symmetry. apply app_nil_r.
    - rewrite IH. destruct (_parse_element el); simpl.
      + rewrite <- app_assoc. reflexivity.
      + reflexivity. }
  apply (G _ []).
Qed.

Lemma take_length {A} (n : Z) (l : list A) :
  (List.length (take n l) <= List.length l)%nat
  /\ ((0 <= n)%Z -> (Z.of_nat (List.length (take n l)) <= n)%Z).
Proof.
  unfold take. destruct (n <? 0)%Z eqn:E.
  - apply Z.ltb_lt in E. rewrite length_firstn. split; lia.
  - apply Z.ltb_ge in E. rewrite length_firstn. split; lia.
Qed.

Lemma parse_elements_ok (elements : list Element) (limit : Z) :
  Forall (fun p => Place_ok p = true) (parse_elements elements limit).
Proof.
  rewrite parse_elements_flat_map. apply Forall_flat_map, Forall_forall.
  intros el _. destruct (_parse_element el) as [p |] eqn:E;
    constructor; [| constructor].
  exact (proj1 (parse_element_some el p E)).
Qed.

Lemma flat_map_option_length {A B} (f : A -> option B) (l : list A) :
  (List.length
     (flat_map (fun a => match f a with Some b => [b] | None => [] end) l)
   <= List.length l)%nat.
Proof.
  induction l as [| a l IH]; simpl; [lia |].
  rewrite length_app. destruct (f a); simpl; lia.
Qed.

(** X15: the places [fetch_pois] parses out of an answer are at most as
    many as the elements and, for a limit that is not negative, as the
    limit; each meets the constraints of [Place] and has no rating; so on
    a valid request [create_itinerary_simple] builds an itinerary from
    them without raising. *)
Theorem parsed_places_plan (elements : list Element) (limit : Z)
    (t : TripRequest) (city_coords : Q * Q) :
  (List.length (parse_elements elements limit) <= List.length elements)%nat
  /\ ((0 <= limit)%Z ->
      (Z.of_nat (List.length (parse_elements elements limit)) <= limit)%Z)
  /\ Forall (fun p => Place_ok p = true /\ rating p = None)
       (parse_elements elements limit)
  /\ (TripRequest_valid t ->
      exists it,
        create_itinerary_simple t (parse_elements elements limit)
          city_coords = inr it).
Proof.
  pose proof (take_length limit elements) as [L1 L2].
  pose proof (flat_map_option_length _parse_element (take limit elements))
    as F.
  rewrite <- parse_elements_flat_map in F.
  split; [lia |]. split; [intros N; specialize (L2 N); lia |].
  split.
  - rewrite parse_elements_flat_map. apply Forall_flat_map, Forall_forall.
    intros el _. destruct (_parse_element el) as [p |] eqn:E;
      constructor; [| constructor].
    destruct (parse_element_some el p E) as [Ok [Rt _]]. auto.
  - intros V.
    destruct (create_itinerary_simple_runs t
                (parse_elements elements limit) city_coords V
                (parse_elements_ok elements limit)) as [ds [k [_ [B _]]]].
    eexists. exact B.
Qed.

Lemma parsed_places_plan_witness :
  (List.length
     (parse_elements [louvre_element; castle_element; broken_element] 50)
   <= 3)%nat
  /\ (Z.of_nat
        (List.length
           (parse_elements [louvre_element; castle_element; broken_element]
              50)) <= 50)%Z
  /\ Forall (fun p => Place_ok p = true /\ rating p = None)
       (parse_elements [louvre_element; castle_element; broken_element] 50)
  /\ exists it,
       create_itinerary_simple museum_trip
         (parse_elements [louvre_element; castle_element; broken_element]
            50) (0, 0) = inr it.
Proof.
  destruct (parsed_places_plan
              [louvre_element; castle_element; broken_element] 50
              museum_trip (0, 0)) as [L [N [F P]]].
  split; [exact L |]. split; [apply N; lia |]. split; [exact F |].
  exact (P museum_trip_valid).
Defined.

(** *** The tags of a query *)

Lemma dict_lookup_In {V} (d : list (string * V)) (key : string) (v : V) :
  dict_lookup d key = Some v -> In (key, v) d.
Proof.
  induction d as [| [k x] d IH]; simpl; [discriminate |].
  destruct (String.eqb_spec k key) as [-> | N]; intros H.
  - inversion H. auto.
  - auto.
Qed.

Lemma collected_tags_In (interests : list string) (tag : string) :
  In tag (collected_tags interests)
  <-> exists interest ts,
        In interest interests
        /\ dict_lookup INTEREST_TO_OSM_TAGS (Py.lower interest) = Some ts
        /\ In tag ts.
Proof.
  unfold collected_tags.
  assert (G : forall acc,
             In tag
               (fold_left
                  (fun tags interest =>
                     match dict_lookup INTEREST_TO_OSM_TAGS
                             (Py.lower interest) with
                     | Some ts => (tags ++ ts)%list
                     | None => tags
                     end) interests acc)
             <-> In tag acc
                 \/ exists interest ts,
                      In interest interests
                      /\ dict_lookup INTEREST_TO_OSM_TAGS (Py.lower interest)
                         = Some ts
                      /\ In tag ts).
  { induction interests as [| i rest IH]; intros acc; cbn [fold_left].
    - split; [auto | intros [H | [x [ts [[] _]]]]; exact H].
    - rewrite IH. split.
      + intros [H | [x [ts [Hx [L T]]]]].
        * destruct (dict_lookup INTEREST_TO_OSM_TAGS (Py.lower i))
            as [ts |] eqn:E; [| auto].
          apply in_app_or in H. destruct H as [H | H]; [auto |].
          right. exists i, ts. simpl. auto.
        * right. exists x, ts. simpl. auto.
      + intros [H | [x [ts [[<- | Hx] [L T]]]]].
        * left. destruct (dict_lookup INTEREST_TO_OSM_TAGS (Py.lower i));
            [apply in_or_app |]; auto.
        * left. rewrite L. apply in_or_app. auto.
        * right. exists x, ts. auto. }
  rewrite G. split; [intros [[] | H]; exact H | auto].
Qed.

Lemma table_tags_two_parts :
  forallb two_parts (flat_map snd INTEREST_TO_OSM_TAGS) = true.
Proof. reflexivity. Qed.

Lemma tag_filters_ok (float_str : Q -> string) (lat lon : Q) (radius : Z)
    (tags : list string) :
  Forall (fun tag => two_parts tag = true) tags ->
  forall acc, exists filters,
    tag_filters float_str lat lon radius tags acc = inr filters
    /\ List.length filters = (List.length acc + List.length tags)%nat.
Proof.
  induction 1 as [| tag tags T _ IH]; intros acc; cbn [tag_filters].
  - exists acc. split; [reflexivity | simpl; lia].
  - unfold two_parts in T.
    destruct (split_on equals_sign tag) as [| k [| v [| x parts]]];
      try discriminate.
    destruct (IH (acc ++ [("  node[" ++ dquote ++ k ++ dquote ++ "="
                           ++ dquote ++ v ++ dquote ++ "](around:"
                           ++ Py.str_of_int radius ++ "," ++ float_str lat
                           ++ "," ++ float_str lon ++ ");")%string])%list)
      as [filters [E L]].
    exists filters. split; [exact E |].
    rewrite L, length_app. simpl. lia.
Qed.

Lemma Forall_firstn_of {A} (P : A -> Prop) (n : nat) (l : list A) :
  Forall P l -> Forall P (firstn n l).
Proof.
  rewrite !Forall_forall. intros H x Hx. apply H.
  rewrite <- (firstn_skipn n l). apply in_or_app. auto.
Qed.

Lemma build_query_ok (float_str : Q -> string) (lat lon : Q) (radius : Z)
    (tags : list string) :
  Forall (fun tag => two_parts tag = true) tags ->
  exists query, _build_query float_str lat lon radius tags = inr query.
Proof.
  intros H. unfold _build_query.
  destruct (tag_filters_ok float_str lat lon radius (firstn 3 tags)
              (Forall_firstn_of _ 3 tags H) []) as [filters [E _]].
  rewrite E. eexists. reflexivity.
Qed.

Lemma interests_tags_two_parts (set_to_list : list string -> list string)
    (interests : list string) :
  enumerates_sets set_to_list ->
  Forall (fun tag => two_parts tag = true)
    (_map_interests_to_tags set_to_list interests).
Proof.
  intros S. unfold _map_interests_to_tags.
  destruct (collected_tags interests) as [| c cs] eqn:E.
  - repeat constructor.
  - apply Forall_forall. intros tag H.
    apply (proj2 (S (c :: cs))) in H. rewrite <- E in H.
    apply collected_tags_In in H. destruct H as [i [ts [_ [L T]]]].
    apply dict_lookup_In in L.
    pose proof table_tags_two_parts as All.
    rewrite forallb_forall in All. apply All.
    apply in_flat_map. exists (Py.lower i, ts). auto.
Qed.

Lemma nodup_enumerates : enumerates_sets (nodup string_dec).
Proof.
  intros l. split; [apply NoDup_nodup | intros x; apply nodup_In].
Defined.

(** X16: whatever order the set of tags is listed in,
    [_map_interests_to_tags] returns a list that is not empty and has no
    repeated tag; its tags are exactly those the table gives the
    lowercased interests, or the single tag [tourism=attraction] when the
    table knows none of the interests; each tag has one [=], so that
    [_build_query] builds a query from them without raising. *)
Theorem interests_tags_wellformed
    (set_to_list : list string -> list string) (interests : list string) :
  enumerates_sets set_to_list ->
  let tags := _map_interests_to_tags set_to_list interests in
  tags <> []
  /\ NoDup tags
  /\ ((forall interest, In interest interests ->
         dict_lookup INTEREST_TO_OSM_TAGS (Py.lower interest) = None) ->
      tags = ["tourism=attraction"])
  /\ (forall tag,
        (exists interest ts,
           In interest interests
           /\ dict_lookup INTEREST_TO_OSM_TAGS (Py.lower interest) = Some ts
           /\ In tag ts) ->
        In tag tags)
  /\ (forall tag, In tag tags ->
        tag = "tourism=attraction"
        \/ exists interest ts,
             In interest interests
             /\ dict_lookup INTEREST_TO_OSM_TAGS (Py.lower interest)
                = Some ts
             /\ In tag ts)
  /\ Forall (fun tag => two_parts tag = true) tags
  /\ (forall float_str lat lon radius,
        exists query,
          _build_query float_str lat lon radius tags = inr query).
Proof.
  intros S tags.
  pose proof (interests_tags_two_parts set_to_list interests S) as T.
  fold tags in T. subst tags. unfold _map_interests_to_tags in *.
  destruct (collected_tags interests) as [| c cs] eqn:E.
  - split; [discriminate |]. split; [repeat constructor; auto |].
    split; [reflexivity |]. split.
    + intros tag H. apply collected_tags_In in H. rewrite E in H.
      destruct H.
    + split; [intros tag [<- | []]; auto |].
      split; [exact T |].
      intros. apply build_query_ok. exact T.
  - destruct (S (c :: cs)) as [N I].
    split.
    { intros Z. assert (H : In c (set_to_list (c :: cs)))
        by (apply I; left; reflexivity).
      rewrite Z in H. destruct H. }
    split; [exact N |]. split.
    { intros U. exfalso.
      assert (H : In c (collected_tags interests))
        by (rewrite E; left; reflexivity).
      apply collected_tags_In in H. destruct H as [i [ts [Hi [L _]]]].
      rewrite (U i Hi) in L. discriminate. }
    split.
    { intros tag H. apply I. rewrite <- E. apply collected_tags_In.
      exact H. }
    split.
    { intros tag H. right. apply I in H. rewrite <- E in H.
      apply collected_tags_In. exact H. }
    split; [exact T |].
    intros. apply build_query_ok. exact T.
Qed.

Lemma interests_tags_wellformed_witness :
  let tags := _map_interests_to_tags (nodup string_dec) ["Museums"; "zoo"] in
  tags <> []
  /\ NoDup tags
  /\ ((forall interest, In interest ["Museums"; "zoo"] ->
         dict_lookup INTEREST_TO_OSM_TAGS (Py.lower interest) = None) ->
      tags = ["tourism=attraction"])
  /\ (forall tag,
        (exists interest ts,
           In interest ["Museums"; "zoo"]
           /\ dict_lookup INTEREST_TO_OSM_TAGS (Py.lower interest) = Some ts
           /\ In tag ts) ->
        In tag tags)
  /\ (forall tag, In tag tags ->
        tag = "tourism=attraction"
        \/ exists interest ts,
             In interest ["Museums"; "zoo"]
             /\ dict_lookup INTEREST_TO_OSM_TAGS (Py.lower interest)
                = Some ts
             /\ In tag ts)
  /\ Forall (fun tag => two_parts tag = true) tags
  /\ (forall float_str lat lon radius,
        exists query,
          _build_query float_str lat lon radius tags = inr query).
Proof.
  exact (interests_tags_wellformed (nodup string_dec) ["Museums"; "zoo"]
           nodup_enumerates).
Defined.

(** *** The servers *)

Lemma try_servers_spec (post : string -> string -> PyError + list Element)
    (query : string) (servers : list string) :
  forall last_error,
    match try_servers post query servers last_error with
    | inr elements =>
        exists before server after,
          servers = (before ++ server :: after)%list
          /\ Forall (fun s => exists e, post s query = inl e) before
          /\ post server query = inr elements
    | inl e =>
        Forall (fun s => exists e', post s query = inl e') servers
        /\ match servers with
           | [] =>
               e = match last_error with
                   | Some e' => e'
                   | None => Exception "All Overpass servers failed"
                   end
           | _ :: _ => post (List.last servers EmptyString) query = inl e
           end
    end.
Proof.
  induction servers as [| s servers IH]; intros last_error;
    cbn [try_servers].
  - split; [constructor | reflexivity].
  - destruct (post s query) as [e0 | elements] eqn:P.
    + specialize (IH (Some e0)).
      destruct (try_servers post query servers (Some e0))
        as [e | elements].
      * destruct IH as [F L]. split.
        -- constructor; [exists e0; exact P | exact F].
        -- destruct servers as [| s' servers']; [subst e; exact P |].
           exact L.
      * destruct IH as [before [server [after [E [F Q]]]]].
        exists (s :: before), server, after. subst servers.
        split; [reflexivity |]. split; [| exact Q].
        constructor; [exists e0; exact P | exact F].
    + exists [], s, servers. split; [reflexivity |].
      split; [constructor | exact P].
Qed.

(** X17: whatever order the set of tags is listed in and however floats
    are printed, [fetch_pois] builds its query without raising and asks
    the three servers in order: it returns the places parsed from the
    answer of the first server that answers, and raises only when all
    three fail, with the error of the last one, never with the generic
    [Exception("All Overpass servers failed")]. *)
Theorem fetch_pois_fallback (set_to_list : list string -> list string)
    (float_str : Q -> string)
    (post : string -> string -> PyError + list Element)
    (latitude longitude : Q) (radius : Z) (interests : option (list string))
    (limit : Z) :
  enumerates_sets set_to_list ->
  let osm_tags :=
    match interests with
    | Some (i :: rest) => _map_interests_to_tags set_to_list (i :: rest)
    | _ => ["tourism=museum"; "amenity=restaurant"; "leisure=park"]
    end in
  exists query,
    _build_query float_str latitude longitude radius osm_tags = inr query
    /\ match fetch_pois set_to_list float_str post latitude longitude
               radius interests limit with
       | inr places =>
           exists before server after elements,
             OVERPASS_SERVERS = (before ++ server :: after)%list
             /\ Forall (fun s => exists e, post s query = inl e) before
             /\ post server query = inr elements
             /\ places = parse_elements elements limit
       | inl e =>
           Forall (fun s => exists e', post s query = inl e')
             OVERPASS_SERVERS
           /\ post "https://maps.mail.ru/osm/tools/overpass/api/interpreter"
                query = inl e
       end.
Proof.
  intros S osm_tags.
  assert (T : Forall (fun tag => two_parts tag = true) osm_tags).
  { subst osm_tags. destruct interests as [[| i rest] |];
      try (repeat constructor).
    apply interests_tags_two_parts. exact S. }
  destruct (build_query_ok float_str latitude longitude radius osm_tags T)
    as [query Q].
  exists query. split; [exact Q |].
  unfold fetch_pois. fold osm_tags. rewrite Q.
  pose proof (try_servers_spec post query OVERPASS_SERVERS None) as H.
  destruct (try_servers post query OVERPASS_SERVERS None)
    as [e | elements].
  - exact H.
  - destruct H as [before [server [after [E [F P]]]]].
    exists before, server, after, elements. auto.
Qed.

Lemma fetch_pois_fallback_witness :
  exists query,
    _build_query (fun _ => "0.0") 0 0 10000
      (_map_interests_to_tags (nodup string_dec) ["museums"]) = inr query
    /\ match fetch_pois (nodup string_dec) (fun _ => "0.0")
               (fun _ _ => inl (Exception "timeout")) 0 0 10000
               (Some ["museums"]) 50 with
       | inr places =>
           exists before server after elements,
             OVERPASS_SERVERS = (before ++ server :: after)%list
             /\ Forall
                  (fun s => exists e,
                     (fun _ _ => inl (Exception "timeout")) s query
                     = @inl PyError (list Element) e) before
             /\ (fun _ _ => inl (Exception "timeout")) server query
                = @inr PyError (list Element) elements
             /\ places = parse_elements elements 50
       | inl e =>
           Forall
             (fun s => exists e',
                (fun _ _ => inl (Exception "timeout")) s query
                = @inl PyError (list Element) e') OVERPASS_SERVERS
           /\ (fun _ _ => inl (Exception "timeout"))
                "https://maps.mail.ru/osm/tools/overpass/api/interpreter"
                query = @inl PyError (list Element) e
       end.
Proof.
  exact (fetch_pois_fallback (nodup string_dec) (fun _ => "0.0")
           (fun _ _ => inl (Exception "timeout")) 0 0 10000
           (Some ["museums"]) 50 nodup_enumerates).
Defined.

(** ** From the given places to the itinerary *)

Lemma itinerary_places_prefix (t : TripRequest) (places : list Place)
    (city_coords : Q * Q) :
  TripRequest_valid t ->
  Forall (fun p => Place_ok p = true) places ->
  exists it n,
    create_itinerary_simple t places city_coords = inr it
    /\ List.concat (map Models.places (days it))
       = firstn n (ranked_places t places city_coords)
    /\ forall d, In d (days it) ->
         (place_count d <= target_places_per_day t)%nat.
Proof.
  intros V H.
  destruct (create_itinerary_simple_runs t places city_coords V H)
    as [ds [k [T [B _]]]].
  eexists. exists k. split; [exact B |]. cbn [days]. split.
  - rewrite (trace_places _ _ _ _ _ _ T). apply slice_0.
  - intros d Hd. exact (proj1 (trace_day_bounds _ _ _ _ _ _ T d Hd)).
Qed.

Lemma In_concat_places (ds : list DayPlan) (d : DayPlan) (p : Place) :
  In d ds -> In p (Models.places d) ->
  In p (List.concat (map Models.places ds)).
Proof.
  intros Hd Hp. apply in_concat. exists (Models.places d).
  split; [apply in_map; exact Hd | exact Hp].
Qed.

Lemma firstn_In_of {A} (n : nat) (l : list A) (x : A) :
  In x (firstn n l) -> In x l.
Proof.
  intros H. rewrite <- (firstn_skipn n l). apply in_or_app. auto.
Qed.

(** X19: on a valid request, every place of every day of the itinerary is
    one of the places given to [create_itinerary_simple]; when no place is
    given twice, no place is visited twice. *)
Theorem itinerary_places_from_input (t : TripRequest) (places : list Place)
    (city_coords : Q * Q) :
  TripRequest_valid t ->
  Forall (fun p => Place_ok p = true) places ->
  exists it,
    create_itinerary_simple t places city_coords = inr it
    /\ (forall d p, In d (days it) -> In p (Models.places d) -> In p places)
    /\ (NoDup places ->
        NoDup (List.concat (map Models.places (days it)))).
Proof.
  intros V H.
  destruct (itinerary_places_prefix t places city_coords V H)
    as [it [n [B [C _]]]].
  exists it. split; [exact B |].
  pose proof (sort_desc_perm (simple_score t city_coords) places) as P.
  rewrite <- ranked_places_sort in P. split.
  - intros d p Hd Hp. apply (Permutation_in _ (Permutation_sym P)).
    apply (firstn_In_of n). rewrite <- C.
    exact (In_concat_places _ d p Hd Hp).
  - intros N. rewrite C. apply NoDup_firstn_of.
    exact (Permutation_NoDup P N).
Qed.

Lemma itinerary_places_from_input_witness :
  exists it,
    create_itinerary_simple museum_trip [city_museum; riverside_park] (0, 0)
    = inr it
    /\ (forall d p, In d (days it) -> In p (Models.places d) ->
          In p [city_museum; riverside_park])
    /\ (NoDup [city_museum; riverside_park] ->
        NoDup (List.concat (map Models.places (days it)))).
Proof.
  exact (itinerary_places_from_input museum_trip
           [city_museum; riverside_park] (0, 0)
           museum_trip_valid museum_places_ok).
Defined.

Lemma fold_time_bounds (ps : list Place) (a : Z) :
  Forall (fun p => (30 <= time_needed p <= 120)%Z) ps ->
  (a + 30 * Z.of_nat (List.length ps)
   <= fold_left Z.add (map time_needed ps) a
   <= a + 120 * Z.of_nat (List.length ps))%Z.
Proof.
  intros H. revert a. induction H as [| p ps Hp _ IH]; intros a.
  - simpl. lia.
  - cbn [map fold_left List.length]. specialize (IH (a + time_needed p)%Z).
    lia.
Qed.

(** X20: on a valid request, a day of the itinerary built from the places
    parsed out of an Overpass answer takes between 30 and 120 minutes for
    each of its places, hence at most 600 minutes in all. *)
Theorem parsed_day_total_time (elements : list Element) (limit : Z)
    (t : TripRequest) (city_coords : Q * Q) :
  TripRequest_valid t ->
  exists it,
    create_itinerary_simple t (parse_elements elements limit) city_coords
    = inr it
    /\ forall d, In d (days it) ->
         (30 * Z.of_nat (place_count d) <= total_time d
          <= 120 * Z.of_nat (place_count d))%Z
         /\ (total_time d <= 600)%Z.
Proof.
  intros V.
  destruct (itinerary_places_prefix t (parse_elements elements limit)
              city_coords V (parse_elements_ok elements limit))
    as [it [n [B [C Cnt]]]].
  exists it. split; [exact B |]. intros d Hd.
  assert (F : Forall (fun p => (30 <= time_needed p <= 120)%Z)
                (Models.places d)).
  { apply Forall_forall. intros p Hp.
    assert (I : In p (parse_elements elements limit)).
    { pose proof (sort_desc_perm (simple_score t city_coords)
                    (parse_elements elements limit)) as P.
      rewrite <- ranked_places_sort in P.
      apply (Permutation_in _ (Permutation_sym P)).
      apply (firstn_In_of n). rewrite <- C.
      exact (In_concat_places _ d p Hd Hp). }
    rewrite parse_elements_flat_map in I. apply in_flat_map in I.
    destruct I as [el [_ I]].
    destruct (_parse_element el) as [q |] eqn:E; [| destruct I].
    destruct I as [<- | []].
    exact (proj2 (proj2 (proj2 (proj2 (proj2 (proj2
             (parse_element_some el q E))))))). }
  pose proof (fold_time_bounds (Models.places d) 0 F) as T.
  pose proof (Cnt d Hd) as K. pose proof (target_at_most_5 t) as M.
  unfold total_time, place_count in *. split; lia.
Qed.

Lemma parsed_day_total_time_witness :
  exists it,
    create_itinerary_simple museum_trip
      (parse_elements [louvre_element; castle_element; broken_element] 50)
      (0, 0) = inr it
    /\ forall d, In d (days it) ->
         (30 * Z.of_nat (place_count d) <= total_time d
          <= 120 * Z.of_nat (place_count d))%Z
         /\ (total_time d <= 600)%Z.
Proof.
  exact (parsed_day_total_time
           [louvre_element; castle_element; broken_element] 50 museum_trip
           (0, 0) museum_trip_valid).
Defined.


(** ** Doubles *)

Section DoubleLaws.

Local Open Scope Q_scope.

Lemma round_half_even_nonneg (x : Q) :
  0 <= x -> (0 <= Py.round_half_even x)%Z.
Proof.
  intros H. pose proof (round_half_even_bounds x) as [L _].
  pose proof (Qfloor_resp_le _ _ H) as F.
  change (Qfloor 0) with 0%Z in F. lia.
Qed.

Lemma rnd_pos_nonneg (a : Q) : 0 <= a -> 0 <= Double.rnd_pos a.
Proof.
  intros H. unfold Double.rnd_pos.
  set (ulp := 2 ^ (Z.max (Double.exponent a) (-1022) - 52)).
  assert (U : 0 < ulp) by (apply Qpower_0_lt; reflexivity).
  apply Qmult_le_0_compat; [| apply Qlt_le_weak; exact U].
  apply inject_Z_nonneg, round_half_even_nonneg.
  apply Qle_shift_div_l; [exact U |]. rewrite Qmult_0_l. exact H.
Qed.

(** Rounding to a double keeps a number that is not negative so. *)
Lemma rnd_nonneg (x : Q) : 0 <= x -> 0 <= Double.rnd x.
Proof.
  intros H. unfold Double.rnd. rewrite Qred_correct.
  destruct (x ?= 0) eqn:C.
  - apply Qle_refl.
  - apply Qlt_alt in C. exfalso. exact (Qlt_not_le _ _ C H).
  - apply rnd_pos_nonneg. exact H.
Qed.

Lemma of_int_nonneg (z : Z) : (0 <= z)%Z -> 0 <= Double.of_int z.
Proof. intros H. apply rnd_nonneg, inject_Z_nonneg, H. Qed.

Lemma fadd_nonneg (x y : Q) : 0 <= x -> 0 <= y -> 0 <= Double.fadd x y.
Proof. intros Hx Hy. apply rnd_nonneg. lra. Qed.

Lemma fmul_nonneg (x y : Q) : 0 <= x -> 0 <= y -> 0 <= Double.fmul x y.
Proof. intros Hx Hy. apply rnd_nonneg, Qmult_le_0_compat; assumption. Qed.

Lemma fround2_nonneg (x : Q) : 0 <= x -> 0 <= Double.fround2 x.
Proof. intros H. apply rnd_nonneg, round2_nonneg, H. Qed.

End DoubleLaws.

(** ** Rounding to the nearest double *)

Section DoubleRounding.

Local Open Scope Q_scope.

Lemma pow2_pos (z : Z) : 0 < 2 ^ z.
Proof. apply Qpower_0_lt. reflexivity. Qed.

Lemma pow2_plus (a b : Z) : 2 ^ (a + b) == 2 ^ a * 2 ^ b.
Proof. apply Qpower_plus. discriminate. Qed.

Lemma pow2_le (a b : Z) : (a <= b)%Z -> 2 ^ a <= 2 ^ b.
Proof. intros H. apply Qpower_le_compat_l; [exact H | discriminate]. Qed.

Lemma pow2_lt_inv (a b : Z) : 2 ^ a < 2 ^ b -> (a < b)%Z.
Proof.
  intros H. destruct (Z_lt_le_dec a b) as [L | L]; [exact L |].
  exfalso. apply (Qlt_not_le _ _ H), pow2_le, L.
Qed.

Lemma pow2_Z (k : Z) : (0 <= k)%Z -> inject_Z (2 ^ k) == 2 ^ k.
Proof. intros H. apply Zpower_Qpower. exact H. Qed.

Lemma pow2_succ (a : Z) : 2 ^ (a + 1) == 2 * 2 ^ a.
Proof. rewrite pow2_plus. change (2 ^ 1) with 2. ring. Qed.

(** The exponent of a positive number. *)
Lemma exponent_spec (a : Q) :
  0 < a ->
  2 ^ Double.exponent a <= a /\ a < 2 ^ (Double.exponent a + 1).
Proof.
  intros P. destruct a as [n d].
  assert (N : (0 < n)%Z).
  { unfold Qlt in P. simpl in P. lia. }
  destruct (Z.log2_spec n N) as [Ln Un].
  destruct (Z.log2_spec (Zpos d) (Pos2Z.is_pos d)) as [Ld Ud].
  pose proof (Z.log2_nonneg n) as Nn.
  pose proof (Z.log2_nonneg (Zpos d)) as Nd.
  unfold Double.exponent. cbn [Qnum Qden].
  set (ln := Z.log2 n) in *. set (ld := Z.log2 (Zpos d)) in *.
  assert (E : n # d == inject_Z n / inject_Z (Zpos d)) by apply Qmake_Qdiv.
  assert (D : 0 < inject_Z (Zpos d)) by reflexivity.
  assert (Qn : 2 ^ ln <= inject_Z n /\ inject_Z n < 2 ^ (ln + 1)).
  { rewrite <- !pow2_Z by lia. rewrite <- Zle_Qle, <- Zlt_Qlt.
    unfold Z.succ in Un. lia. }
  assert (Qd : 2 ^ ld <= inject_Z (Zpos d)
               /\ inject_Z (Zpos d) < 2 ^ (ld + 1)).
  { rewrite <- !pow2_Z by lia. rewrite <- Zle_Qle, <- Zlt_Qlt.
    unfold Z.succ in Ud. lia. }
  destruct Qn as [Qn1 Qn2]. destruct Qd as [Qd1 Qd2].
  assert (Up : n # d < 2 ^ (ln - ld + 1)).
  { rewrite E. apply Qlt_shift_div_r; [exact D |].
    eapply Qlt_le_trans; [exact Qn2 |].
    replace (ln + 1)%Z with ((ln - ld + 1) + ld)%Z by lia.
    rewrite (pow2_plus (ln - ld + 1) ld).
    apply Qmult_le_l; [apply pow2_pos | exact Qd1]. }
  assert (Lo : 2 ^ (ln - ld - 1) < n # d).
  { rewrite E. apply Qlt_shift_div_l; [exact D |].
    eapply Qlt_le_trans; [| exact Qn1].
    replace ln with ((ln - ld - 1) + (ld + 1))%Z at 2 by lia.
    rewrite (pow2_plus (ln - ld - 1) (ld + 1)).
    apply Qmult_lt_l; [apply pow2_pos | exact Qd2]. }
  destruct (Qle_bool (2 ^ (ln - ld)) (n # d)) eqn:B.
  - apply Qle_bool_iff in B. split; assumption.
  - replace (ln - ld - 1 + 1)%Z with (ln - ld)%Z by lia.
    split; [apply Qlt_le_weak; exact Lo |].
    apply Qnot_le_lt. intros C. apply Qle_bool_iff in C. congruence.
Qed.

Lemma exponent_unique (a : Q) (e : Z) :
  2 ^ e <= a -> a < 2 ^ (e + 1) -> Double.exponent a = e.
Proof.
  intros L U.
  assert (P : 0 < a) by (eapply Qlt_le_trans; [apply pow2_pos | exact L]).
  destruct (exponent_spec a P) as [L' U'].
  assert (A : (e < Double.exponent a + 1)%Z).
  { apply pow2_lt_inv. eapply Qle_lt_trans; eassumption. }
  assert (B : (Double.exponent a < e + 1)%Z).
  { apply pow2_lt_inv. eapply Qle_lt_trans; eassumption. }
  lia.
Qed.

Lemma exponent_comp (a b : Q) :
  0 < a -> a == b -> Double.exponent a = Double.exponent b.
Proof.
  intros P E. destruct (exponent_spec a P) as [L U].
  symmetry. apply exponent_unique; rewrite <- E; assumption.
Qed.

(** Case analysis on the sign of [v], with the value of [Qabs v] in each
    case. *)
Ltac qabs_split v :=
  let A := fresh "A" in
  let B := fresh "B" in
  destruct (Qlt_le_dec v 0) as [A | A];
  [ pose proof (Qabs_neg v (Qlt_le_weak _ _ A)) as B
  | pose proof (Qabs_pos v A) as B ].

Lemma rnd_pos_grid (a : Q) :
  Double.rnd_pos a
  = inject_Z (Py.round_half_even (a / 2 ^ grid_exponent a))
    * 2 ^ grid_exponent a.
Proof. reflexivity. Qed.

Lemma grid_exponent_ge (a : Q) : (-1074 <= grid_exponent a)%Z.
Proof. unfold grid_exponent. lia. Qed.

Lemma grid_exponent_comp (a b : Q) :
  0 < a -> a == b -> grid_exponent a = grid_exponent b.
Proof.
  intros P E. unfold grid_exponent. rewrite (exponent_comp a b P E).
  reflexivity.
Qed.

Lemma below_grid (a : Q) :
  0 < a -> a < 2 ^ 53 * 2 ^ grid_exponent a.
Proof.
  intros P. destruct (exponent_spec a P) as [_ U].
  eapply Qlt_le_trans; [exact U |].
  rewrite <- pow2_plus. apply pow2_le. unfold grid_exponent. lia.
Qed.

(** No integer is nearer [x] than its rounding. *)
Lemma round_half_even_nearest (x : Q) (k : Z) :
  Qabs (inject_Z (Py.round_half_even x) - x) <= Qabs (inject_Z k - x).
Proof.
  pose proof (Qfloor_le x) as L. pose proof (Qlt_floor x) as U.
  rewrite inject_Z_plus in U. change (inject_Z 1) with 1 in U.
  assert (K : inject_Z k <= inject_Z (Qfloor x)
              \/ inject_Z (Qfloor x) + 1 <= inject_Z k).
  { destruct (Z_le_gt_dec k (Qfloor x)) as [C | C].
    - left. rewrite <- Zle_Qle. exact C.
    - right. change 1 with (inject_Z 1). rewrite <- inject_Z_plus.
      rewrite <- Zle_Qle. lia. }
  unfold Py.round_half_even.
  destruct (x - inject_Z (Qfloor x) ?= 1 # 2) eqn:C;
    [apply Qeq_alt in C; destruct (Z.even (Qfloor x))
    | apply Qlt_alt in C | apply Qgt_alt in C];
    try (rewrite inject_Z_plus; change (inject_Z 1) with 1);
    set (f := inject_Z (Qfloor x)) in *;
    match goal with
    | |- Qabs ?u <= Qabs ?v => qabs_split u; qabs_split v
    end;
    destruct K; lra.
Qed.

Lemma rnd_pos_mantissa (a : Q) :
  0 < a ->
  (0 <= Py.round_half_even (a / 2 ^ grid_exponent a) <= 2 ^ 53)%Z.
Proof.
  intros P. pose proof (pow2_pos (grid_exponent a)) as G.
  pose proof (below_grid a P) as B.
  assert (L : 0 <= a / 2 ^ grid_exponent a).
  { apply Qle_shift_div_l; [exact G |]. lra. }
  assert (U : a / 2 ^ grid_exponent a < 2 ^ 53).
  { apply Qlt_shift_div_r; [exact G | exact B]. }
  split; [apply round_half_even_nonneg; exact L |].
  pose proof (round_half_even_bounds (a / 2 ^ grid_exponent a)) as [_ R].
  assert (F : (Qfloor (a / 2 ^ grid_exponent a) < 2 ^ 53)%Z).
  { rewrite Zlt_Qlt. eapply Qle_lt_trans; [apply Qfloor_le |].
    rewrite pow2_Z by lia. exact U. }
  lia.
Qed.

Lemma rnd_pos_is_double (a : Q) : 0 < a -> is_double (Double.rnd_pos a).
Proof.
  intros P. exists (Py.round_half_even (a / 2 ^ grid_exponent a)).
  exists (grid_exponent a).
  pose proof (rnd_pos_mantissa a P). pose proof (grid_exponent_ge a).
  split; [lia |]. split; [assumption |]. rewrite rnd_pos_grid.
  reflexivity.
Qed.

Lemma is_double_opp (y : Q) : is_double y -> is_double (- y).
Proof.
  intros [m [e [M [E Y]]]]. exists (- m)%Z, e.
  split; [lia |]. split; [exact E |].
  rewrite inject_Z_opp, Y. ring.
Qed.

Lemma is_double_0 : is_double 0.
Proof. exists 0%Z, 0%Z. split; [lia |]. split; [lia | reflexivity]. Qed.

Lemma is_double_comp (x y : Q) : x == y -> is_double x -> is_double y.
Proof.
  intros E [m [e [M [G X]]]]. exists m, e.
  split; [exact M |]. split; [exact G |]. rewrite <- E. exact X.
Qed.

(** A double lies on the grid around [a] or is no larger than the power
    of two below [a]. *)
Lemma double_cases (a y : Q) :
  0 < a -> is_double y ->
  (exists k, y == inject_Z k * 2 ^ grid_exponent a)
  \/ (Qabs y <= 2 ^ (grid_exponent a + 52)
      /\ 2 ^ (grid_exponent a + 52) <= a).
Proof.
  intros P [m [e [M [E Y]]]].
  destruct (Z_le_gt_dec (grid_exponent a) e) as [C | C].
  - left. exists (m * 2 ^ (e - grid_exponent a))%Z.
    rewrite Y, inject_Z_mult, pow2_Z by lia.
    replace e with ((e - grid_exponent a) + grid_exponent a)%Z at 1
      by lia.
    rewrite pow2_plus. ring.
  - right. destruct (exponent_spec a P) as [L _].
    assert (X : (grid_exponent a + 52)%Z = Double.exponent a).
    { unfold grid_exponent in *. lia. }
    rewrite X. split; [| exact L].
    rewrite Y, Qabs_Qmult, (Qabs_pos (2 ^ e))
      by (apply Qlt_le_weak, pow2_pos).
    apply Qle_trans with (2 ^ 53 * 2 ^ e).
    + apply Qmult_le_compat_r; [| apply Qlt_le_weak, pow2_pos].
      assert (I : Qabs (inject_Z m) == inject_Z (Z.abs m)).
      { unfold inject_Z. rewrite <- Zabs_Qabs. reflexivity. }
      rewrite I, <- pow2_Z by lia. rewrite <- Zle_Qle. exact M.
    + rewrite <- pow2_plus. apply pow2_le. lia.
Qed.

(** A double that is at least [a] in size lies on the grid around [a]. *)
Lemma double_on_grid (a y : Q) :
  0 < a -> is_double y -> a <= Qabs y ->
  exists k, y == inject_Z k * 2 ^ grid_exponent a.
Proof.
  intros P D L. destruct (double_cases a y P D) as [K | [U V]];
    [exact K |].
  assert (E : Qabs y == 2 ^ (grid_exponent a + 52)) by lra.
  rewrite pow2_plus in E.
  qabs_split y.
  - exists (- 2 ^ 52)%Z. rewrite inject_Z_opp, pow2_Z by lia. lra.
  - exists (2 ^ 52)%Z. rewrite pow2_Z by lia. lra.
Qed.

Lemma grid_is_double (a : Q) (k : Z) :
  (Z.abs k <= 2 ^ 53)%Z ->
  is_double (inject_Z k * 2 ^ grid_exponent a).
Proof.
  intros K. exists k, (grid_exponent a). split; [exact K |].
  split; [apply grid_exponent_ge | reflexivity].
Qed.

(** No double is nearer a positive [a] than [rnd_pos a]. *)
Lemma rnd_pos_nearest (a y : Q) :
  0 < a -> is_double y ->
  Qabs (Double.rnd_pos a - a) <= Qabs (y - a).
Proof.
  intros P D. pose proof (pow2_pos (grid_exponent a)) as G.
  assert (N : forall k,
             Qabs (Double.rnd_pos a - a)
             <= Qabs (inject_Z k * 2 ^ grid_exponent a - a)).
  { intros k. rewrite rnd_pos_grid.
    set (u := 2 ^ grid_exponent a) in *.
    assert (E1 : inject_Z (Py.round_half_even (a / u)) * u - a
                 == (inject_Z (Py.round_half_even (a / u)) - a / u) * u).
    { field. lra. }
    assert (E2 : inject_Z k * u - a == (inject_Z k - a / u) * u).
    { field. lra. }
    rewrite E1, E2, !Qabs_Qmult.
    apply Qmult_le_compat_r; [apply round_half_even_nearest |].
    apply Qabs_nonneg. }
  destruct (double_cases a y P D) as [[k K] | [U V]].
  - rewrite K. apply N.
  - eapply Qle_trans; [apply (N (2 ^ 52)%Z) |].
    rewrite pow2_Z, <- pow2_plus by lia.
    replace (52 + grid_exponent a)%Z with (grid_exponent a + 52)%Z
      by lia.
    set (p := 2 ^ (grid_exponent a + 52)) in *.
    pose proof (Qle_Qabs y).
    qabs_split (p - a); qabs_split (y - a); lra.
Qed.

Lemma rnd_pos_comp (a b : Q) :
  0 < a -> a == b -> Double.rnd_pos a == Double.rnd_pos b.
Proof.
  intros P E. rewrite !rnd_pos_grid, (grid_exponent_comp a b P E).
  rewrite (round_half_even_comp (a / 2 ^ grid_exponent b)
             (b / 2 ^ grid_exponent b)); [reflexivity |].
  rewrite E. reflexivity.
Qed.

Lemma rnd_positive (x : Q) : 0 < x -> Double.rnd x == Double.rnd_pos x.
Proof.
  intros P. unfold Double.rnd. rewrite Qred_correct.
  assert (C : (x ?= 0) = Gt) by (apply Qgt_alt; exact P).
  rewrite C. reflexivity.
Qed.

Lemma rnd_negative (x : Q) :
  x < 0 -> Double.rnd x == - Double.rnd_pos (- x).
Proof.
  intros P. unfold Double.rnd. rewrite Qred_correct.
  assert (C : (x ?= 0) = Lt) by (apply Qlt_alt; exact P).
  rewrite C. reflexivity.
Qed.

Lemma rnd_zero (x : Q) : x == 0 -> Double.rnd x == 0.
Proof.
  intros P. unfold Double.rnd. rewrite Qred_correct.
  assert (C : (x ?= 0) = Eq) by (apply Qeq_alt; exact P).
  rewrite C. reflexivity.
Qed.

Lemma rnd_comp (x y : Q) : x == y -> Double.rnd x = Double.rnd y.
Proof.
  intros E. unfold Double.rnd. apply Qred_complete.
  rewrite <- (Qcompare_comp _ _ E _ _ (Qeq_refl 0)).
  destruct (x ?= 0) eqn:C.
  - reflexivity.
  - apply Qlt_alt in C. apply Qopp_comp.
    apply rnd_pos_comp; [lra | rewrite E; reflexivity].
  - apply Qgt_alt in C. apply rnd_pos_comp; assumption.
Qed.

(** The result of a float operation is a double. *)
Lemma rnd_is_double (x : Q) : is_double (Double.rnd x).
Proof.
  destruct (Q_dec x 0) as [[N | P] | Z].
  - apply (is_double_comp (- Double.rnd_pos (- x)));
      [symmetry; apply rnd_negative; exact N |].
    apply is_double_opp, rnd_pos_is_double. lra.
  - apply (is_double_comp (Double.rnd_pos x));
      [symmetry; apply rnd_positive; exact P |].
    apply rnd_pos_is_double. exact P.
  - apply (is_double_comp 0); [symmetry; apply rnd_zero; exact Z |].
    apply is_double_0.
Qed.

(** No double is nearer [x] than [rnd x]. *)
Lemma rnd_nearest (x y : Q) :
  is_double y -> Qabs (Double.rnd x - x) <= Qabs (y - x).
Proof.
  intros D. destruct (Q_dec x 0) as [[N | P] | Z].
  - rewrite (rnd_negative x N).
    assert (P : 0 < - x) by lra.
    pose proof (rnd_pos_nearest (- x) (- y) P (is_double_opp y D)) as H.
    assert (E1 : - Double.rnd_pos (- x) - x
                 == - (Double.rnd_pos (- x) - - x)) by ring.
    assert (E2 : y - x == - (- y - - x)) by ring.
    rewrite E1, E2, !Qabs_opp. exact H.
  - rewrite (rnd_positive x P). apply rnd_pos_nearest; assumption.
  - rewrite (rnd_zero x Z), Z.
    qabs_split (0 - 0); qabs_split (y - 0); lra.
Qed.

(** Rounding leaves a double as it is. *)
Lemma rnd_double (x : Q) : is_double x -> Double.rnd x == x.
Proof.
  intros D. pose proof (rnd_nearest x x D) as H.
  qabs_split (Double.rnd x - x); qabs_split (x - x); lra.
Qed.

(** Rounding is monotone. *)
Lemma rnd_mono (x y : Q) : x <= y -> Double.rnd x <= Double.rnd y.
Proof.
  intros L. destruct (Qlt_le_dec (Double.rnd y) (Double.rnd x))
    as [C | C]; [| exact C].
  exfalso.
  pose proof (rnd_nearest x (Double.rnd y) (rnd_is_double y)) as Hx.
  pose proof (rnd_nearest y (Double.rnd x) (rnd_is_double x)) as Hy.
  assert (E : x == y).
  { qabs_split (Double.rnd x - x); qabs_split (Double.rnd y - x);
      qabs_split (Double.rnd y - y); qabs_split (Double.rnd x - y);
      lra. }
  rewrite (rnd_comp x y E) in C. exact (Qlt_irrefl _ C).
Qed.


Lemma double_twice (b : Q) : is_double b -> is_double (2 * b).
Proof.
  intros [m [e [M [E B]]]]. exists m, (e + 1)%Z.
  split; [exact M |]. split; [lia |]. rewrite pow2_succ, B. ring.
Qed.

(** A number on the grid around [a] that is no larger than [a] is a
    double. *)
Lemma small_on_grid (a y : Q) (k : Z) :
  0 < a -> y == inject_Z k * 2 ^ grid_exponent a -> Qabs y <= a ->
  is_double y.
Proof.
  intros P Y L. apply (is_double_comp (inject_Z k * 2 ^ grid_exponent a));
    [symmetry; exact Y |].
  apply grid_is_double.
  pose proof (pow2_pos (grid_exponent a)) as G.
  pose proof (below_grid a P) as B.
  rewrite Y, Qabs_Qmult, (Qabs_pos (2 ^ grid_exponent a)) in L
    by (apply Qlt_le_weak; exact G).
  assert (I : Qabs (inject_Z k) == inject_Z (Z.abs k)).
  { unfold inject_Z. rewrite <- Zabs_Qabs. reflexivity. }
  rewrite I in L.
  assert (S : inject_Z (Z.abs k) < 2 ^ 53).
  { apply Qmult_lt_r with (2 ^ grid_exponent a); [exact G |].
    eapply Qle_lt_trans; eassumption. }
  rewrite <- pow2_Z in S by lia. rewrite <- Zlt_Qlt in S. lia.
Qed.

(** The rounding error of an addition of two doubles is a double, and
    the two subtractions that recover it are exact. *)
Lemma fast_two_sum (b s : Q) :
  is_double b -> is_double s -> 0 <= s -> s <= b ->
  Double.fadd (Double.fsub b (Double.fadd b s)) s
  == b + s - Double.fadd b s.
Proof.
  intros Db Ds S L. unfold Double.fadd at 1, Double.fsub.
  set (t := Double.fadd b s).
  assert (Dt : is_double t) by apply rnd_is_double.
  assert (Near : Qabs (t - (b + s)) <= Qabs (b - (b + s))).
  { apply rnd_nearest. exact Db. }
  assert (Lo : b <= t).
  { rewrite <- (rnd_double b Db). apply rnd_mono. lra. }
  assert (Hi : t <= 2 * b).
  { rewrite <- (rnd_double (2 * b) (double_twice b Db)).
    apply rnd_mono. lra. }
  assert (D1 : is_double (b - t)).
  { destruct (Qlt_le_dec 0 b) as [P | Z].
    - destruct (double_on_grid b b P Db) as [kb Kb];
        [qabs_split b; lra |].
      destruct (double_on_grid b t P Dt) as [kt Kt];
        [qabs_split t; lra |].
      apply (small_on_grid b (b - t) (kb - kt) P).
      + unfold Zminus. rewrite inject_Z_plus, inject_Z_opp.
        set (u := 2 ^ grid_exponent b) in *.
        transitivity (inject_Z kb * u - inject_Z kt * u); [| ring].
        rewrite <- Kb, <- Kt. reflexivity.
      + qabs_split (b - t); lra.
    - apply (is_double_comp 0); [lra | apply is_double_0]. }
  assert (D2 : is_double (b - t + s)).
  { destruct (Qlt_le_dec 0 s) as [P | Z].
    - destruct (double_on_grid s s P Ds) as [ks Ks];
        [qabs_split s; lra |].
      destruct (double_on_grid s b P Db) as [kb Kb];
        [qabs_split b; lra |].
      destruct (double_on_grid s t P Dt) as [kt Kt];
        [qabs_split t; lra |].
      apply (small_on_grid s (b - t + s) (kb - kt + ks) P).
      + unfold Zminus. rewrite !inject_Z_plus, inject_Z_opp.
        set (u := 2 ^ grid_exponent s) in *.
        transitivity (inject_Z kb * u - inject_Z kt * u + inject_Z ks * u);
          [| ring].
        rewrite <- Kb, <- Kt, <- Ks. reflexivity.
      + qabs_split (t - (b + s)); qabs_split (b - (b + s));
          qabs_split (b - t + s); lra.
    - apply (is_double_comp 0); [| apply is_double_0].
      qabs_split (t - (b + s)); qabs_split (b - (b + s)); lra. }
  rewrite (rnd_comp (Double.rnd (b - t) + s) (b - t + s)).
  - rewrite (rnd_double _ D2). ring.
  - rewrite (rnd_double _ D1). reflexivity.
Qed.

(** One step of the compensated summation keeps the invariant: the
    running sum is a double that is not negative, and the compensation
    does not outweigh it. *)
Lemma neumaier_step (f c x : Q) :
  is_double f -> 0 <= f -> 0 <= f + c -> is_double x -> 0 <= x ->
  is_double (fst (Double.neumaier (f, c) x))
  /\ 0 <= fst (Double.neumaier (f, c) x)
  /\ 0 <= fst (Double.neumaier (f, c) x)
          + snd (Double.neumaier (f, c) x).
Proof.
  intros Df F FC Dx X. unfold Double.neumaier.
  set (t := Double.fadd f x).
  assert (Dt : is_double t) by apply rnd_is_double.
  assert (T : 0 <= t) by (apply rnd_nonneg; lra).
  assert (Low : forall e, e == f + x - t -> 0 <= t + Double.fadd c e).
  { intros e E.
    assert (M : Double.rnd (- t) <= Double.fadd c e).
    { apply rnd_mono. lra. }
    rewrite (rnd_double (- t) (is_double_opp t Dt)) in M. lra. }
  destruct (Double.fle (Qabs x) (Qabs f)) eqn:B; cbn [fst snd].
  - split; [exact Dt |]. split; [exact T |].
    apply Low. apply fast_two_sum; try assumption.
    apply Qle_bool_iff in B.
    rewrite (Qabs_pos x X), (Qabs_pos f F) in B. exact B.
  - split; [exact Dt |]. split; [exact T |].
    apply Low.
    assert (E : t = Double.fadd x f).
    { apply rnd_comp. ring. }
    rewrite E.
    rewrite (fast_two_sum x f Dx Df F).
    + ring.
    + destruct (Qlt_le_dec x f) as [C | C]; [| exact C].
      exfalso.
      assert (B' : Qle_bool (Qabs x) (Qabs f) = true).
      { apply Qle_bool_iff.
        rewrite (Qabs_pos x X), (Qabs_pos f F). lra. }
      unfold Double.fle in B. congruence.
Qed.

Lemma neumaier_fold (xs : list Q) :
  Forall (fun x => is_double x /\ 0 <= x) xs ->
  forall f c,
    is_double f -> 0 <= f -> 0 <= f + c ->
    0 <= fst (fold_left Double.neumaier xs (f, c))
    /\ 0 <= fst (fold_left Double.neumaier xs (f, c))
            + snd (fold_left Double.neumaier xs (f, c)).
Proof.
  induction 1 as [| x xs [Dx X] _ IH]; intros f c Df F FC;
    cbn [fold_left].
  - cbn [fst snd]. split; assumption.
  - destruct (neumaier_step f c x Df F FC Dx X) as [D' [F' FC']].
    destruct (Double.neumaier (f, c) x) as [f' c'].
    apply IH; assumption.
Qed.

Lemma fold_fadd_nonneg (xs : list Q) (a : Q) :
  Forall (fun x => 0 <= x) xs -> 0 <= a ->
  0 <= fold_left Double.fadd xs a.
Proof.
  intros H. revert a.
  induction H as [| x xs Hx _ IH]; intros a A; cbn [fold_left].
  - exact A.
  - apply IH, rnd_nonneg. lra.
Qed.

(** The sum of doubles that are not negative is not negative, whichever
    way the interpreter adds them up. *)
Lemma fsum_nonneg (s : Double.summation) (xs : list Q) :
  Forall (fun x => is_double x /\ 0 <= x) xs -> 0 <= Double.fsum s xs.
Proof.
  intros H. destruct xs as [| x xs].
  - destruct s; apply Qle_refl.
  - destruct s.
    + apply fold_fadd_nonneg; [| apply Qle_refl].
      eapply Forall_impl; [| exact H]. intros a [_ A]. exact A.
    + inversion H as [| x' xs' [Dx X] H']. subst x' xs'.
      unfold Double.fsum.
      destruct (neumaier_fold xs H' (Double.fadd 0 x) 0) as [F FC].
      * apply rnd_is_double.
      * apply rnd_nonneg. lra.
      * assert (0 <= Double.fadd 0 x) by (apply rnd_nonneg; lra). lra.
      * destruct (fold_left Double.neumaier xs (Double.fadd 0 x, 0))
          as [f c].
        cbn [fst snd] in F, FC.
        destruct (Qeq_bool c 0); [exact F | apply rnd_nonneg; exact FC].
Qed.

End DoubleRounding.

(** The arithmetic on a few decimal values, as the interpreter computes
    it: [0.1 + 0.2], [250.0 / 3 * 1.2], [55.1 + 55.2] against [110.3], and
    [round(55.375, 2)]. *)
Example double_arithmetic :
  Double.fadd (Double.lit (1 # 10)) (Double.lit (2 # 10))
  = (1351079888211149 # 4503599627370496)%Q
  /\ Qle_bool 100
       (Double.fmul (Double.fdiv 250 (Double.of_int 3))
          (Double.lit (12 # 10))) = false
  /\ Qle_bool
       (Double.fadd (Double.lit (551 # 10)) (Double.lit (552 # 10)))
       (Double.lit (1103 # 10)) = false
  /\ Double.fround2 (55375 # 1000) = Double.lit (5538 # 100).
Proof.
  vm_compute.
  split; [reflexivity | split; [reflexivity | split; reflexivity]].
Qed.

(** ** The allocation on doubles *)

Section WhileLoopF.

Variable t : TripRequest.
Variable ranked : list Place.

Lemma while_cond_f_true (st : DayState) :
  AgentF.while_cond t ranked st = true ->
  exists place,
    nth_error ranked (current_index st) = Some place
    /\ (List.length (day_places st) < target_places_per_day t)%nat
    /\ (current_index st < List.length ranked)%nat
    /\ Double.fle
         (Double.fadd (day_cost st) (AgentF.place_cost t place))
         (AgentF.ceiling t) = true.
Proof.
  unfold AgentF.while_cond. intros H.
  apply andb_true_iff in H. destruct H as [H C].
  apply andb_true_iff in H. destruct H as [N I].
  destruct (nth_error ranked (current_index st)) as [place |];
    [| discriminate].
  exists place. apply Nat.ltb_lt in N. apply Nat.ltb_lt in I. auto.
Qed.

Lemma while_cond_f_false (st : DayState) :
  AgentF.while_cond t ranked st = false ->
  (target_places_per_day t <= List.length (day_places st))%nat
  \/ (List.length ranked <= current_index st)%nat
  \/ exists place,
       nth_error ranked (current_index st) = Some place
       /\ Double.fle
            (Double.fadd (day_cost st) (AgentF.place_cost t place))
            (AgentF.ceiling t) = false.
Proof.
  unfold AgentF.while_cond. intros H.
  destruct (Nat.ltb_spec (List.length (day_places st))
              (target_places_per_day t)) as [N | N]; [| auto].
  destruct (Nat.ltb_spec (current_index st) (List.length ranked))
    as [I | I]; [| auto].
  simpl in H. right. right.
  destruct (nth_error ranked (current_index st)) as [place |] eqn:E.
  - exists place. auto.
  - apply nth_error_None in E. lia.
Qed.

Lemma advance_f_self (st : DayState) :
  advance_f t ranked st (current_index st) = st.
Proof.
  destruct st as [ps c i]. unfold advance_f. simpl.
  rewrite slice_nil, app_nil_r. reflexivity.
Qed.

Lemma advance_f_body (st : DayState) (place : Place) (j : nat) :
  nth_error ranked (current_index st) = Some place ->
  (current_index st < j)%nat ->
  advance_f t ranked (AgentF.while_body t ranked st) j
  = advance_f t ranked st j.
Proof.
  intros E L. unfold AgentF.while_body. rewrite E. unfold advance_f. simpl.
  rewrite Nat.add_1_r, (slice_cons _ _ _ _ E L), <- app_assoc.
  reflexivity.
Qed.

(** With one unit of fuel for each place left, the loop stops because its
    condition fails. *)
Lemma while_loop_f_spec (fuel : nat) (st : DayState) :
  (current_index st <= List.length ranked)%nat ->
  (List.length ranked - current_index st <= fuel)%nat ->
  exists j,
    (current_index st <= j <= List.length ranked)%nat
    /\ AgentF.while_loop t ranked fuel st = advance_f t ranked st j
    /\ AgentF.while_cond t ranked (advance_f t ranked st j) = false
    /\ forall m, (current_index st <= m < j)%nat ->
         AgentF.while_cond t ranked (advance_f t ranked st m) = true.
Proof.
  revert st. induction fuel as [| fuel IH]; intros st B F.
  - exists (current_index st). rewrite advance_f_self. simpl.
    repeat split; try lia.
    unfold AgentF.while_cond.
    replace (current_index st <? List.length ranked)%nat with false
      by (symmetry; apply Nat.ltb_ge; lia).
    rewrite andb_false_r. reflexivity.
  - simpl. destruct (AgentF.while_cond t ranked st) eqn:C.
    + destruct (while_cond_f_true _ C) as [place [E [_ [I _]]]].
      assert (S_ : current_index (AgentF.while_body t ranked st)
                   = S (current_index st)).
      { unfold AgentF.while_body. rewrite E. simpl. lia. }
      destruct (IH (AgentF.while_body t ranked st))
        as [j [Bj [Ej [Cj Hj]]]]; try (rewrite S_; lia).
      rewrite S_ in Bj, Hj.
      exists j. rewrite <- (advance_f_body st place j E) by lia.
      repeat split; try lia; try assumption.
      intros m Hm.
      destruct (Nat.eq_dec m (current_index st)) as [-> | Nm].
      * rewrite advance_f_self. exact C.
      * rewrite <- (advance_f_body st place m E) by lia.
        apply Hj. lia.
    + exists (current_index st). rewrite advance_f_self.
      repeat split; try lia; try assumption.
Qed.

Lemma while_loop_f_day (i : nat) :
  (i <= List.length ranked)%nat ->
  exists j,
    stops_at_f t ranked i j
    /\ AgentF.while_loop t ranked (List.length ranked - i)
         (mkDayState []
            (Double.fadd 0 (Double.fmul 40 (Double.of_int (group_size t))))
            i)
       = state_at_f t ranked i j.
Proof.
  intros B.
  destruct (while_loop_f_spec (List.length ranked - i)
              (mkDayState []
                 (Double.fadd 0
                    (Double.fmul 40 (Double.of_int (group_size t)))) i))
    as [j [Bj [Ej [Cj Hj]]]]; simpl; try lia.
  exists j. split; [| exact Ej].
  split; [exact Bj |]. split; [exact Cj | exact Hj].
Qed.

Hypothesis group_nonneg : (0 <= group_size t)%Z.
Hypothesis ranked_ok : Forall (fun p => Place_ok p = true) ranked.

Lemma place_cost_nonneg (p : Place) :
  Place_ok p = true -> (0 <= AgentF.place_cost t p)%Q.
Proof.
  intros H. apply fmul_nonneg; [apply Place_ok_cost; exact H |].
  apply of_int_nonneg. exact group_nonneg.
Qed.

Lemma running_cost_f_nonneg (ps : list Place) :
  Forall (fun p => Place_ok p = true) ps ->
  (0 <= running_cost_f t ps)%Q.
Proof.
  unfold running_cost_f.
  assert (A : (0 <= Double.fadd 0
                     (Double.fmul 40 (Double.of_int (group_size t))))%Q).
  { apply fadd_nonneg; [apply Qle_refl |].
    apply fmul_nonneg; [discriminate |].
    apply of_int_nonneg. exact group_nonneg. }
  revert A. generalize (Double.fadd 0
                          (Double.fmul 40 (Double.of_int (group_size t)))).
  intros a A H. revert a A.
  induction H as [| p ps Hp _ IH]; intros a A; cbn [fold_left].
  - exact A.
  - apply IH, fadd_nonneg; [exact A | apply place_cost_nonneg; exact Hp].
Qed.

Lemma plan_day_f_spec (n : Z) (i : nat) :
  (1 <= n)%Z -> (i <= List.length ranked)%nat ->
  exists j,
    stops_at_f t ranked i j
    /\ AgentF.plan_day t ranked n i = inr (day_of_f t ranked n i j, j).
Proof.
  intros N B. destruct (while_loop_f_day i B) as [j [S E]].
  exists j. split; [exact S |].
  unfold AgentF.plan_day. rewrite E. unfold DayPlan_new. cbn [state_at_f
    Agent.day_places Agent.day_cost Agent.current_index].
  replace (1 <=? n)%Z with true by (symmetry; apply Z.leb_le; exact N).
  cbn [app].
  assert (P : Qle_bool 0
                (Double.fround2
                   (Double.fadd (running_cost_f t (slice i j ranked))
                      (Double.fmul 15 (Double.of_int (group_size t)))))
              = true).
  { apply Qle_bool_iff, fround2_nonneg, fadd_nonneg.
    - apply running_cost_f_nonneg, slice_Forall, ranked_ok.
    - apply fmul_nonneg; [discriminate |].
      apply of_int_nonneg. exact group_nonneg. }
  rewrite P. reflexivity.
Qed.

Lemma for_days_f_spec (ns : list Z) :
  Forall (fun n => (1 <= n)%Z) ns ->
  forall (acc : list DayPlan) (i : nat),
    (i <= List.length ranked)%nat ->
    exists ds k,
      AgentF.for_days t ranked ns acc i = inr ((acc ++ ds)%list, k)
      /\ days_trace_f t ranked i ns ds k
      /\ (k <= List.length ranked)%nat.
Proof.
  induction 1 as [| n ns N _ IH]; intros acc i B.
  - exists [], i. simpl. rewrite app_nil_r.
    split; [reflexivity |]. split; [constructor | exact B].
  - destruct (plan_day_f_spec n i N B) as [j [S E]].
    destruct (IH (acc ++ [day_of_f t ranked n i j])%list j)
      as [ds [k [F [T K]]]].
    { destruct S as [S _]. lia. }
    exists (day_of_f t ranked n i j :: ds), k.
    simpl. rewrite E. simpl. rewrite F, <- app_assoc. simpl.
    split; [reflexivity |]. split; [| exact K].
    constructor; assumption.
Qed.

Lemma daily_plans_f_spec :
  exists ds k,
    AgentF.daily_plans t ranked = inr ds
    /\ days_trace_f t ranked 0 (Py.range 1 (num_days t + 1)) ds k
    /\ (k <= List.length ranked)%nat.
Proof.
  destruct (for_days_f_spec (Py.range 1 (num_days t + 1))
              (range_from_1 _) [] 0%nat (Nat.le_0_l _))
    as [ds [k [F [T K]]]].
  exists ds, k. unfold AgentF.daily_plans. rewrite F. simpl. auto.
Qed.

End WhileLoopF.

Section TracesF.

Variable t : TripRequest.
Variable ranked : list Place.

Lemma trace_f_nth i ns ds k :
  days_trace_f t ranked i ns ds k ->
  forall m d, nth_error ds m = Some d ->
    exists n i0 i1,
      nth_error ns m = Some n
      /\ d = day_of_f t ranked n i0 i1
      /\ stops_at_f t ranked i0 i1
      /\ (i <= i0)%nat
      /\ List.concat (map places (firstn m ds)) = slice i i0 ranked.
Proof.
  induction 1 as [| i j k n ns ds S T IH]; intros m d H.
  - destruct m; discriminate.
  - destruct m as [| m]; simpl in H.
    + inversion H. subst d. exists n, i, j. simpl.
      split; [reflexivity |]. split; [reflexivity |]. split; [exact S |].
      split; [lia | symmetry; apply slice_nil].
    + destruct (IH m d H) as [n' [i0 [i1 [Hn [Hd [Hs [Hi Hc]]]]]]].
      exists n', i0, i1. simpl. rewrite Hc.
      destruct S as [B S'].
      split; [exact Hn |]. split; [exact Hd |]. split; [exact Hs |].
      split; [lia | apply slice_app; lia].
Qed.

Lemma trace_f_In i ns ds k :
  days_trace_f t ranked i ns ds k ->
  forall d, In d ds ->
    exists n i0 i1,
      d = day_of_f t ranked n i0 i1 /\ stops_at_f t ranked i0 i1.
Proof.
  intros T d H. apply In_nth_error in H. destruct H as [m H].
  destruct (trace_f_nth _ _ _ _ T m d H) as [n [i0 [i1 [_ [E [S _]]]]]].
  eauto.
Qed.

End TracesF.

Lemma allocation_f_run (t : TripRequest) (ranked : list Place) :
  TripRequest_valid t ->
  Forall (fun p => Place_ok p = true) ranked ->
  exists ds k,
    AgentF.daily_plans t ranked = inr ds
    /\ days_trace_f t ranked 0 (Py.range 1 (num_days t + 1)) ds k
    /\ (k <= List.length ranked)%nat.
Proof.
  intros [_ [_ [_ G]]] H. apply daily_plans_f_spec; [lia | exact H].
Qed.

(** ** The itinerary on doubles *)

Lemma running_cost_f_snoc (t : TripRequest) (ps : list Place) (p : Place) :
  running_cost_f t (ps ++ [p])%list
  = Double.fadd (running_cost_f t ps) (AgentF.place_cost t p).
Proof. unfold running_cost_f. rewrite fold_left_app. reflexivity. Qed.

Lemma day_of_f_total (t : TripRequest) (ranked : list Place) (n : Z)
    (i j : nat) :
  (0 <= group_size t)%Z ->
  Forall (fun p => Place_ok p = true) ranked ->
  is_double (total_cost (day_of_f t ranked n i j))
  /\ (0 <= total_cost (day_of_f t ranked n i j))%Q.
Proof.
  intros G H. unfold day_of_f. cbn [total_cost].
  split; [apply rnd_is_double |].
  apply fround2_nonneg, fadd_nonneg.
  - apply running_cost_f_nonneg; [exact G |]. apply slice_Forall, H.
  - apply fmul_nonneg; [discriminate | apply of_int_nonneg; exact G].
Qed.

(** The itinerary is built, whichever way the interpreter sums the day
    totals. *)
Lemma build_itinerary_f_spec (s : Double.summation) (t : TripRequest)
    (ranked : list Place) :
  TripRequest_valid t ->
  Forall (fun p => Place_ok p = true) ranked ->
  exists ds k,
    AgentF.daily_plans t ranked = inr ds
    /\ days_trace_f t ranked 0 (Py.range 1 (num_days t + 1)) ds k
    /\ AgentF.build_itinerary s t ranked
       = inr (mkItinerary t ds
                (Double.fround2 (Double.fsum s (map total_cost ds)))
                (Some (summary_notes t
                         (AgentF.budget_status
                            (Double.fsum s (map total_cost ds)) t)))).
Proof.
  intros V H. destruct (allocation_f_run t ranked V H) as [ds [k [E [T K]]]].
  exists ds, k. split; [exact E |]. split; [exact T |].
  unfold AgentF.build_itinerary. rewrite E. cbn [bind].
  unfold Itinerary_new.
  assert (P : Qle_bool 0
                (Double.fround2 (Double.fsum s (map total_cost ds)))
              = true).
  { apply Qle_bool_iff, fround2_nonneg, fsum_nonneg.
    apply Forall_forall. intros c Hc. apply in_map_iff in Hc.
    destruct Hc as [d [<- Hd]].
    destruct (trace_f_In _ _ _ _ _ _ T d Hd) as [n [i0 [i1 [-> _]]]].
    destruct V as [_ [_ [_ G]]]. apply day_of_f_total; [lia | exact H]. }
  rewrite P. reflexivity.
Qed.

Lemma cost_40_exact (g : Z) :
  (0 <= g)%Z -> (40 * g <= 2 ^ 53)%Z ->
  (Double.fadd 0 (Double.fmul 40 (Double.of_int g)) == 40 * inject_Z g)%Q.
Proof.
  intros G B.
  assert (D1 : is_double (inject_Z g)).
  { exists g, 0%Z. split; [lia |]. split; [lia |].
    change (2 ^ 0)%Q with 1%Q. ring. }
  assert (D2 : is_double (40 * inject_Z g)).
  { exists (40 * g)%Z, 0%Z. split; [lia |]. split; [lia |].
    rewrite inject_Z_mult. change (2 ^ 0)%Q with 1%Q.
    change (inject_Z 40) with 40%Q. ring. }
  unfold Double.fadd, Double.fmul, Double.of_int.
  rewrite (rnd_comp (0 + Double.rnd (40 * Double.rnd (inject_Z g)))
             (40 * inject_Z g)).
  - apply rnd_double, D2.
  - rewrite Qplus_0_l.
    rewrite (rnd_comp (40 * Double.rnd (inject_Z g)) (40 * inject_Z g)).
    + apply rnd_double, D2.
    + rewrite (rnd_double _ D1). reflexivity.
Qed.

(** C3: the pace target is 2 for relaxed, 3 for moderate, 5 for packed and
    3 for any other pace; a day starts from the running cost
    [0.0 + 40.0 * group_size], which is [40 * group_size] exactly as long
    as that number is below [2^53]; the day at position [m] holds the
    ranked places from [i0], the number of places taken by the days before
    it, up to [i1]; every place [j] in between was added while the day had
    fewer places than the target, the list was not used up and the float
    comparison [running_cost + estimated_cost * group_size
    <= daily_budget * 1.2] held, each operation rounded to a double; and at
    [i1] one of the three conditions fails, so the loop stops at the first
    place it rejects and the next day starts from that place. *)
Theorem allocator_greedy_packing (t : TripRequest) (ranked : list Place) :
  TripRequest_valid t ->
  Forall (fun p => Place_ok p = true) ranked ->
  exists ds,
    AgentF.daily_plans t ranked = inr ds
    /\ target_places_per_day t
       = (if String.eqb "relaxed" (pace t) then 2%nat
          else if String.eqb "moderate" (pace t) then 3%nat
          else if String.eqb "packed" (pace t) then 5%nat
          else 3%nat)
    /\ running_cost_f t []
       = Double.fadd 0 (Double.fmul 40 (Double.of_int (group_size t)))
    /\ ((40 * group_size t <= 2 ^ 53)%Z ->
        (running_cost_f t [] == 40 * inject_Z (group_size t))%Q)
    /\ forall m d, nth_error ds m = Some d ->
         let i0 := List.length (List.concat (map places (firstn m ds))) in
         let i1 := (i0 + List.length (places d))%nat in
         places d = slice i0 i1 ranked
         /\ (forall j, (i0 <= j < i1)%nat ->
               exists place,
                 nth_error ranked j = Some place
                 /\ (j - i0 < target_places_per_day t)%nat
                 /\ (j < List.length ranked)%nat
                 /\ Double.fle
                      (Double.fadd (running_cost_f t (slice i0 j ranked))
                         (Double.fmul (estimated_cost place)
                            (Double.of_int (group_size t))))
                      (Double.fmul (AgentF.daily_budget t)
                         (Double.lit (12 # 10))) = true)
         /\ ((target_places_per_day t <= i1 - i0)%nat
             \/ (List.length ranked <= i1)%nat
             \/ exists place,
                  nth_error ranked i1 = Some place
                  /\ Double.fle
                       (Double.fadd
                          (running_cost_f t (slice i0 i1 ranked))
                          (Double.fmul (estimated_cost place)
                             (Double.of_int (group_size t))))
                       (Double.fmul (AgentF.daily_budget t)
                          (Double.lit (12 # 10))) = false).
Proof.
  intros V H. destruct (allocation_f_run t ranked V H) as [ds [k [E [T K]]]].
  exists ds. split; [exact E |]. split; [apply target_by_pace |].
  split; [reflexivity |].
  split.
  { intros B. destruct V as [_ [_ [_ G]]]. apply cost_40_exact; lia. }
  intros m d Hd.
  destruct (trace_f_nth _ _ _ _ _ _ T m d Hd)
    as [n [j0 [j1 [_ [-> [[B [Stop Go]] [_ C]]]]]]].
  rewrite C, slice_0, length_firstn.
  replace (Nat.min j0 (List.length ranked)) with j0 by lia.
  unfold day_of_f. cbn [places]. rewrite (slice_length _ _ _ B).
  replace (j0 + (j1 - j0))%nat with j1 by lia. cbv zeta.
  split; [reflexivity |]. split.
  - intros j Hj. destruct (while_cond_f_true _ _ _ (Go j Hj))
      as [place [Hp [Hn [Hl Hc]]]].
    unfold state_at_f in Hp, Hn, Hl, Hc.
    cbn [Agent.day_places Agent.day_cost Agent.current_index]
      in Hp, Hn, Hl, Hc.
    rewrite slice_length in Hn by lia.
    exists place. auto.
  - destruct (while_cond_f_false _ _ _ Stop)
      as [F | [F | [place [Hp Hc]]]];
      unfold state_at_f in *;
      cbn [Agent.day_places Agent.day_cost Agent.current_index] in *.
    + left. rewrite slice_length in F by lia. exact F.
    + right. left. exact F.
    + right. right. exists place. auto.
Qed.

Lemma allocator_greedy_packing_witness :
  exists ds,
    AgentF.daily_plans museum_trip [city_museum; riverside_park] = inr ds
    /\ target_places_per_day museum_trip = 2%nat
    /\ running_cost_f museum_trip []
       = Double.fadd 0 (Double.fmul 40 (Double.of_int 1))
    /\ ((40 * 1 <= 2 ^ 53)%Z ->
        (running_cost_f museum_trip [] == 40 * inject_Z 1)%Q)
    /\ forall m d, nth_error ds m = Some d ->
         let i0 := List.length (List.concat (map places (firstn m ds))) in
         let i1 := (i0 + List.length (places d))%nat in
         places d = slice i0 i1 [city_museum; riverside_park]
         /\ (forall j, (i0 <= j < i1)%nat ->
               exists place,
                 nth_error [city_museum; riverside_park] j = Some place
                 /\ (j - i0 < 2)%nat
                 /\ (j < 2)%nat
                 /\ Double.fle
                      (Double.fadd
                         (running_cost_f museum_trip
                            (slice i0 j [city_museum; riverside_park]))
                         (Double.fmul (estimated_cost place)
                            (Double.of_int 1)))
                      (Double.fmul (AgentF.daily_budget museum_trip)
                         (Double.lit (12 # 10))) = true)
         /\ ((2 <= i1 - i0)%nat
             \/ (2 <= i1)%nat
             \/ exists place,
                  nth_error [city_museum; riverside_park] i1 = Some place
                  /\ Double.fle
                       (Double.fadd
                          (running_cost_f museum_trip
                             (slice i0 i1 [city_museum; riverside_park]))
                          (Double.fmul (estimated_cost place)
                             (Double.of_int 1)))
                       (Double.fmul (AgentF.daily_budget museum_trip)
                          (Double.lit (12 # 10))) = false).
Proof.
  exact (allocator_greedy_packing museum_trip [city_museum; riverside_park]
           museum_trip_valid museum_places_ok).
Defined.

(** A budget of 250 over three days: [250 / 3 * 1.2] is the double just
    below 100, so the third place, which would bring the first day to
    40 + 15 + 25 + 20 = 100, waits for the second day. *)
Example scenario_ceiling_below_100 :
  Qle_bool 100 (AgentF.ceiling thirds_trip) = false
  /\ match AgentF.daily_plans thirds_trip thirds_places with
     | inr ds => map (fun d => List.length (places d)) ds
     | inl _ => []
     end = [2; 1; 0]%nat.
Proof. vm_compute. split; reflexivity. Qed.





(** X2: on a valid request and whatever the order of the ranked places, a
    day that has a place passed the float test of the loop when its last
    place was added: its running cost, meals and places accumulated in
    doubles, is at most the double [daily_budget * 1.2]. *)
Theorem itinerary_budget_ceiling (s : Double.summation) (t : TripRequest)
    (ranked : list Place) :
  TripRequest_valid t ->
  Forall (fun p => Place_ok p = true) ranked ->
  exists it,
    AgentF.build_itinerary s t ranked = inr it
    /\ forall d, In d (days it) -> places d <> [] ->
         Double.fle (running_cost_f t (places d))
           (Double.fmul (AgentF.daily_budget t) (Double.lit (12 # 10)))
         = true.
Proof.
  intros V H.
  destruct (build_itinerary_f_spec s t ranked V H) as [ds [k [E [T B]]]].
  eexists. split; [exact B |]. cbn [days]. intros d Hd N.
  destruct (trace_f_In _ _ _ _ _ _ T d Hd)
    as [n [i0 [i1 [-> [Bd [_ Go]]]]]].
  unfold day_of_f in *. cbn [places] in *.
  destruct (Nat.eq_dec i0 i1) as [-> | D].
  { rewrite slice_nil in N. contradiction. }
  destruct (while_cond_f_true _ _ _ (Go (i1 - 1)%nat ltac:(lia)))
    as [place [Hp [_ [_ Hc]]]].
  unfold state_at_f in Hp, Hc.
  cbn [Agent.day_places Agent.day_cost Agent.current_index] in Hp, Hc.
  replace i1 with (S (i1 - 1)) at 1 by lia.
  rewrite (slice_snoc ranked i0 (i1 - 1) place) by (try lia; exact Hp).
  rewrite running_cost_f_snoc. exact Hc.
Qed.

Lemma itinerary_budget_ceiling_witness :
  exists it,
    AgentF.build_itinerary Double.compensated museum_trip
      [city_museum; riverside_park] = inr it
    /\ forall d, In d (days it) -> places d <> [] ->
         Double.fle (running_cost_f museum_trip (places d))
           (Double.fmul (AgentF.daily_budget museum_trip)
              (Double.lit (12 # 10)))
         = true.
Proof.
  exact (itinerary_budget_ceiling Double.compensated museum_trip
           [city_museum; riverside_park] museum_trip_valid
           museum_places_ok).
Defined.

(** The itinerary of the first scenario on doubles, with either
    summation: the days, the total and the notes of the exact run. *)
Example scenario_museum_itinerary_doubles :
  Forall
    (fun s =>
       match
         AgentF.build_itinerary s museum_trip [city_museum; riverside_park]
       with
       | inr it =>
           (map (fun d => map name (places d)) (days it),
            itinerary_total_cost it, itinerary_notes it)
       | inl _ => ([], 0%Q, None)
       end
       = ([["City Museum"; "Riverside Park"]; []], 125%Q,
          Some (summary_notes museum_trip "within budget")))
    [Double.plain; Double.compensated].
Proof. repeat constructor. Qed.
